(** * cqparts: thread cross-sections and coordinate systems

    A shallow embedding of [cqparts/types/threads/base.py] and
    [cqparts/utils/geometry.py].

    Conventions of the embedding.
    - A Python [float] is the rational number ([Q]) it stands for.  Where a
      float is rounded up to an int, in the vertex counts of line 80, the
      operations are those of binary64: a result is rounded to the nearest
      float, overflows to an infinity, and an int is converted to a float
      before it is multiplied.  In the coordinates of the sketch and of the
      frames [+], [-], [*] and [/] are exact: the rounding errors of the
      geometry are not modelled.  [x / y] raises [ZeroDivisionError] when
      [y] is zero, as in Python.
    - A Python [int] is an integer ([Z]); in Python 2 an object of type
      [int] is a machine word, and a larger number, a [long], is not an
      [int].
    - [math.cos], [math.sin] and [math.pi] are operations of a [Math]
      interface: the code only combines their results.
    - Raising is modelled by an error monad ([result]); a function that has
      already issued sketch operations when it raises reports them.
    - The kernel operations [Thread.make] calls (FreeCAD / cadquery) are an
      interface ([Kernel]); [make] records each call in a trace. *)

From Stdlib Require Import ZArith QArith Qround Qabs Qpower.
From Stdlib Require Import List String Ascii Bool Lia Lqa Permutation.
From Stdlib Require Import DecimalString DecimalZ.
Import ListNotations.

Local Open Scope Q_scope.

(** ** The Python runtime *)

Inductive PyVersion : Set := Py2 | Py3.

Inductive ExcKind : Set :=
| TypeError
| ValueError
| ZeroDivisionError
| IndexError
| AttributeError
| KeyError
| NotImplementedError
| OverflowError
| OCCError.

(** An exception object: its class and its message. *)
Record Exception : Set := mkException { exc_kind : ExcKind; exc_msg : string }.

(** A computation that returns or raises; [E] is what is kept of the
    exception. *)
Inductive result (E A : Type) : Type :=
| Ok (a : A)
| Err (e : E).
Arguments Ok {E A} a.
Arguments Err {E A} e.

(** Where only the class of the exception matters. *)
Definition res (A : Type) : Type := result ExcKind A.

Definition bind {E A B : Type} (m : result E A) (k : A -> result E B)
  : result E B :=
  match m with
  | Ok a => k a
  | Err e => Err e
  end.

Notation "x <- m ;; k" := (bind m (fun x => k))
  (at level 61, m at next level, right associativity).
Notation "' pat <- m ;; k" := (bind m (fun x => match x with pat => k end))
  (at level 61, pat pattern, m at next level, right associativity).

Fixpoint mapM {E A B : Type} (f : A -> result E B) (l : list A)
  : result E (list B) :=
  match l with
  | [] => Ok []
  | a :: l' => b <- f a ;; bs <- mapM f l' ;; Ok (b :: bs)
  end.

(** [a / b] in the exact arithmetic of the geometry. *)
Definition py_div (a b : Q) : res Q :=
  if Qeq_bool b 0 then Err ZeroDivisionError else Ok (a / b).

(** Rounding to the nearest integer: half away from zero in Python 2, half to
    even in Python 3. *)
Definition round_half (py : PyVersion) (x : Q) : Z :=
  match py with
  | Py2 => if Qle_bool 0 x then Qfloor (x + (1 # 2)) else Qceiling (x - (1 # 2))
  | Py3 =>
      let f := Qfloor x in
      match Qcompare (x - inject_Z f) (1 # 2) with
      | Lt => f
      | Gt => (f + 1)%Z
      | Eq => if Z.even f then f else (f + 1)%Z
      end
  end.

Definition pow10 (n : nat) : Z := (10 ^ Z.of_nat n)%Z.

(** [round(x, ndigits)]: Python rounds the exact value of the float to
    [ndigits] decimals. *)
Definition py_round (py : PyVersion) (x : Q) (ndigits : nat) : Q :=
  inject_Z (round_half py (x * inject_Z (pow10 ndigits)))
  / inject_Z (pow10 ndigits).

(** *** Floats of binary64

    What line 80 computes is rounded up to an int, so that there the
    operations are modelled as the machine performs them: the exact result
    is rounded to the nearest float, ties to the even significand, with
    gradual underflow, and overflows to an infinity. *)

(** [2^k] *)
Definition pow2 (k : Z) : Q := 2 ^ k.

(** The integer part of the binary logarithm of a positive number. *)
Definition Qlog2 (x : Q) : Z :=
  let e := (Z.log2 (Qnum x) - Z.log2 (Zpos (Qden x)))%Z in
  if Qle_bool (pow2 e) x then e else (e - 1)%Z.

(** The nearest number with a significand of 53 bits and an exponent of at
    least -1074, ties to the even significand; the overflow is left to
    [to_float]. *)
Definition fl (x : Q) : Q :=
  if Qeq_bool x 0 then 0
  else
    let q := Z.max (Qlog2 (Qabs x) - 52) (-1074) in
    inject_Z (round_half Py3 (x / pow2 q)) * pow2 q.

Inductive float : Type :=
| Finite (q : Q)
| Infinity (negative : bool)
| NaN.

(** The float that stands for an exact result. *)
Definition to_float (x : Q) : float :=
  if Qle_bool (pow2 1024) (Qabs (fl x))
  then Infinity (negb (Qle_bool 0 x))
  else Finite (fl x).

(** [a / b] for two finite floats, as a float. *)
Definition float_div (a b : Q) : res float :=
  if Qeq_bool b 0 then Err ZeroDivisionError else Ok (to_float (a / b)).

(** [round(x, ndigits)]: the exact value of the float is rounded to
    [ndigits] decimals, and the nearest float is returned; infinities and
    NaN round to themselves. *)
Definition float_round (py : PyVersion) (x : float) (ndigits : nat) : float :=
  match x with
  | Finite q => to_float (py_round py q ndigits)
  | _ => x
  end.

(** The conversion of the int operand of [float * int]: too large an int
    raises [OverflowError]. *)
Definition float_of_int (z : Z) : res float :=
  match to_float (inject_Z z) with
  | Finite q => Ok (Finite q)
  | _ => Err OverflowError
  end.

(** [x * y] on floats. *)
Definition float_mul (x y : float) : float :=
  match x, y with
  | Finite a, Finite b => to_float (a * b)
  | Finite a, Infinity n | Infinity n, Finite a =>
      if Qeq_bool a 0 then NaN else Infinity (xorb n (negb (Qle_bool 0 a)))
  | Infinity n, Infinity m => Infinity (xorb n m)
  | NaN, _ | _, NaN => NaN
  end.

(** [int(ceil(x))]: an infinity raises [OverflowError] and a NaN
    [ValueError]. *)
Definition int_ceil (x : float) : res Z :=
  match x with
  | Finite q => Ok (Qceiling q)
  | Infinity _ => Err OverflowError
  | NaN => Err ValueError
  end.

(** [range(n)] *)
Definition range (n : Z) : list Z := map Z.of_nat (seq 0 (Z.to_nat n)).

(** [from math import sin, cos, pi] *)
Class Math : Type := {
  cos : Q -> Q;
  sin : Q -> Q;
  pi : Q
}.

(** ** Kernel geometry seen by [profile_to_cross_section] *)

(** [FreeCAD.Base.Vector] *)
Record Vector : Type := mkVector { vx : Q; vy : Q; vz : Q }.

Record BoundBox : Type := mkBoundBox {
  xmin : Q; xmax : Q; ymin : Q; ymax : Q; zmin : Q; zmax : Q
}.

(** [cadquery.Edge]: what the transformer reads of it.  [curve_value] is
    [edge.wrapped.Curve.value], [valueAt] is [edge.wrapped.valueAt]. *)
Record Edge : Type := mkEdge {
  geomType : string;
  startPoint : Vector;
  endPoint : Vector;
  Length : Q;
  ParameterRange : Q * Q;
  curve_value : Q -> Vector;
  valueAt : Q -> Vector
}.

(** [cadquery.Wire] *)
Record Wire : Type := mkWire {
  Edges : list Edge;
  wire_Length : Q;
  BoundingBox : BoundBox
}.

(** What [profile.val()] can be. *)
Inductive WorkplaneVal : Type :=
| ValWire (w : Wire)
| ValOther.

(** The [profile] argument: any Python object. *)
Inductive PyProfile : Type :=
| Workplane (v : WorkplaneVal)
| NotWorkplane.

(** The [min_vertices] argument: an object of type [int], a list or a
    tuple whose entries are ints, or any other object.  Lists and tuples
    with an entry that is not an int are not modelled. *)
Inductive MinVertices : Type :=
| MVInt (B : Z)
| MVList (l : list Z)
| MVTuple (l : list Z)
| MVOther.

(** The calls made on the [cadquery.Workplane("XY")] sketch. *)
Inductive SketchOp : Type :=
| MoveTo (p : Q * Q)
| ThreePointArc (point1 point2 : Q * Q)
| LineTo (p : Q * Q)
| Spline (points : list (Q * Q))
| Close.

(** The outcome of [profile_to_cross_section]: the finished sketch, or the
    exception together with the sketch operations issued before it. *)
Inductive Outcome : Type :=
| Returned (cross_section : list SketchOp)
| Raised (e : ExcKind) (built : list SketchOp).

(** ** [profile_to_cross_section] *)

(** Lines 79-82: the counts for an integer [min_vertices], in the floats of
    binary64.  The quotient is rounded before [min_vertices] is converted
    and multiplied. *)
Definition vertices_count_int (py : PyVersion) (wire : Wire) (min_vertices : Z)
  : res (list Z) :=
  mapM (fun e =>
          share <- float_div (Length e) (wire_Length wire) ;;
          let rounded := float_round py share 7 in
          budget <- float_of_int min_vertices ;;
          int_ceil (float_mul rounded budget))
       (Edges wire).

(** Lines 76-89. *)
Definition resolve_vertices_count (py : PyVersion) (wire : Wire)
  (min_vertices : MinVertices) : res (list Z) :=
  match min_vertices with
  | MVInt B => vertices_count_int py wire B
  | MVList l | MVTuple l =>
      if negb (Nat.eqb (List.length l) (List.length (Edges wire)))
      then Err ValueError
      else Ok l
  | MVOther => Err TypeError
  end.

Definition get_xz (vertex : Vector) : Q * Q := (vx vertex, vz vertex).

Definition cart2polar `{Math} (lead : Q) (lefthand : bool) (x z : Q)
  : res (Q * Q) :=
  let radius := x in
  q <- py_div z lead ;;
  let angle := q * (2 * pi) in
  let angle := if negb lefthand then - angle else angle in
  Ok (radius, angle).

Definition transform `{Math} (lead : Q) (lefthand : bool) (vertex : Vector)
  : res (Q * Q) :=
  let (x, z) := get_xz vertex in
  '(radius, angle) <- cart2polar lead lefthand x z ;;
  Ok (radius * cos angle, radius * sin angle).

(** [wp.spline(points)]: cadquery reads the last point of the list for the
    end of the new edge, so that an empty list raises [IndexError]. *)
Definition wp_spline (points : list (Q * Q)) : res SketchOp :=
  match points with
  | [] => Err IndexError
  | _ :: _ => Ok (Spline points)
  end.

Definition apply_spline `{Math} (lead : Q) (lefthand : bool) (edge : Edge)
  (vert_count : Z) : res SketchOp :=
  iter_dist <-
    (if String.eqb (geomType edge) "CIRCLE"
     then py_div (snd (ParameterRange edge)) (inject_Z vert_count)
     else py_div (Length edge) (inject_Z vert_count)) ;;
  points <-
    mapM (fun j =>
            let dist := inject_Z (j + 1) * iter_dist in
            let vert := curve_value edge dist in
            transform lead lefthand vert)
         (range vert_count) ;;
  wp_spline points.

Definition apply_arc `{Math} (lead : Q) (lefthand : bool) (edge : Edge)
  : res SketchOp :=
  point1 <- transform lead lefthand (valueAt edge (Length edge / 2)) ;;
  point2 <- transform lead lefthand (valueAt edge (Length edge)) ;;
  Ok (ThreePointArc point1 point2).

Definition apply_radial_line `{Math} (lead : Q) (lefthand : bool) (edge : Edge)
  : res SketchOp :=
  p <- transform lead lefthand (endPoint edge) ;;
  Ok (LineTo p).

(** [vertices_count[i]] *)
Definition list_index (l : list Z) (i : nat) : res Z :=
  match nth_error l i with
  | Some v => Ok v
  | None => Err IndexError
  end.

(** The body of the loop of lines 156-166. *)
Definition convert_edge `{Math} (lead : Q) (lefthand : bool)
  (vertices_count : list Z) (i : nat) (edge : Edge) : res SketchOp :=
  if String.eqb (geomType edge) "LINE"
     && Qeq_bool (vx (startPoint edge)) (vx (endPoint edge))
  then apply_arc lead lefthand edge
  else if String.eqb (geomType edge) "LINE"
          && Qeq_bool (vz (startPoint edge)) (vz (endPoint edge))
  then apply_radial_line lead lefthand edge
  else vert_count <- list_index vertices_count i ;;
       apply_spline lead lefthand edge vert_count.

(** The loop of lines 156-168, from edge number [i] on, with the sketch
    [cross_section] built so far. *)
Fixpoint convert_edges `{Math} (lead : Q) (lefthand : bool)
  (vertices_count : list Z) (i : nat) (edges : list Edge)
  (cross_section : list SketchOp) : Outcome :=
  match edges with
  | [] => Returned (cross_section ++ [Close])
  | edge :: rest =>
      match convert_edge lead lefthand vertices_count i edge with
      | Ok op =>
          convert_edges lead lefthand vertices_count (S i) rest
            (cross_section ++ [op])
      | Err e => Raised e cross_section
      end
  end.

Definition profile_to_cross_section `{Math} (py : PyVersion)
  (profile : PyProfile) (lefthand : bool) (min_vertices : MinVertices)
  : Outcome :=
  match profile with
  | NotWorkplane => Raised TypeError []
  | Workplane v =>
      match min_vertices with
      | MVOther => Raised TypeError []
      | _ =>
          match v with
          | ValOther => Raised TypeError []
          | ValWire wire =>
              let profile_bb := BoundingBox wire in
              let lead := zmax profile_bb - zmin profile_bb in
              let edges := Edges wire in
              match resolve_vertices_count py wire min_vertices with
              | Err e => Raised e []
              | Ok vertices_count =>
                  match edges with
                  | [] => Raised IndexError []
                  | e0 :: _ =>
                      match transform lead lefthand (startPoint e0) with
                      | Err e => Raised e []
                      | Ok start =>
                          convert_edges lead lefthand vertices_count 0
                            (Edges wire) [MoveTo start]
                      end
                  end
              end
          end
      end
  end.

(** ** The kernel calls made by [Thread.make] *)

(** The FreeCAD / cadquery operations [make] relies on.  [sewShape] changes
    the shape it is called on: it returns the shape after the call. *)
Class Kernel : Type := {
  Helix : Type;
  Shape : Type;
  makeHelix : Q -> Q -> Q -> Q -> bool -> res Helix;
  sweep : list SketchOp -> Helix -> bool -> res Shape;
  isValid : Shape -> bool;
  sewShape : Shape -> res Shape;
  Solid : Shape -> res Shape
}.

Inductive KernelCall `{Kernel} : Type :=
| CallMakeHelix (pitch length radius angle : Q) (lefthand : bool)
| CallSweep (cross_section : list SketchOp) (path : Helix) (isFrenet : bool)
| CallIsValid (s : Shape)
| CallSewShape (s : Shape)
| CallSolid (s : Shape).

(** A computation that logs the kernel calls it makes. *)
Definition Traced `{Kernel} (A : Type) : Type := (list KernelCall * res A)%type.

Definition tbind `{Kernel} {A B : Type} (m : Traced A) (k : A -> Traced B)
  : Traced B :=
  match m with
  | (t, Ok a) => (t ++ fst (k a), snd (k a))
  | (t, Err e) => (t, Err e)
  end.

Definition call `{Kernel} {A : Type} (c : KernelCall) (r : res A) : Traced A :=
  ([c], r).

Definition quiet `{Kernel} {A : Type} (r : res A) : Traced A := ([], r).

Notation "x <~ m ;; k" := (tbind m (fun x => k))
  (at level 61, m at next level, right associativity).

(** [helical_path]: the wrappers around the helix ([cadquery.Wire],
    [Wire.combine], [newObject]) add nothing to it. *)
Definition helical_path `{Kernel} (pitch length radius angle : Q)
  (lefthand : bool) : Traced Helix :=
  call (CallMakeHelix pitch length radius angle lefthand)
       (makeHelix pitch length radius angle lefthand).

(** ** Python objects, as far as [Thread.__init__] and [CoordSystem.__add__]
    look at them *)

(** The values considered: [None], booleans, integers, floats, strings,
    dictionaries with string keys, classes, and the callables found on an
    instance (bound methods, and the method wrappers and built-in methods
    inherited from [object]).  [VStrOf v] is the string [str(v)] of a value
    that is not a string, whose characters are not spelled out. *)
#[local] Unset Elimination Schemes.
Inductive PyVal : Type :=
| VNone
| VBool (b : bool)
| VInt (z : Z)
| VFloat (q : Q)
| VStr (s : string)
| VStrOf (v : PyVal)
| VDict (items : list (string * PyVal))
| VClass (repr : string)
| VMethod (name : string).
#[local] Set Elimination Schemes.

Inductive PyType : Set :=
| TNoneType | TBool | TInt | TFloat | TStr | TDict | TType | TMethod.

(** [type(v)] *)
Definition type_of (v : PyVal) : PyType :=
  match v with
  | VNone => TNoneType
  | VBool _ => TBool
  | VInt _ => TInt
  | VFloat _ => TFloat
  | VStr _ | VStrOf _ => TStr
  | VDict _ => TDict
  | VClass _ => TType
  | VMethod _ => TMethod
  end.

(** Calling a built-in type on one argument, [float(value)], [int(value)],
    [bool(value)], ...: an operation of the Python runtime. *)
Class Builtins : Type := {
  construct : PyType -> PyVal -> result Exception PyVal
}.

(** A class without [__slots__], descriptors of its own or attribute hooks:
    its [repr] and the attributes found on it and on its bases (data
    attributes and methods), other than the three that Python computes for
    every instance, [__dict__], [__class__] and [__weakref__]. *)
Record PyClass : Type := mkClass {
  class_repr : string;
  class_attrs : list (string * PyVal)
}.

(** An instance: its class and its own attributes, [self.__dict__]. *)
Record Instance : Type := mkInstance {
  inst_class : PyClass;
  inst_dict : list (string * PyVal)
}.

Fixpoint assoc {V : Type} (key : string) (l : list (string * V)) : option V :=
  match l with
  | [] => None
  | (k, v) :: l' => if String.eqb k key then Some v else assoc key l'
  end.

(** [getattr(self, key)], [None] standing for [AttributeError].  The data
    descriptors of [object] and [type] come before the attributes of the
    instance, and these before the attributes of the class. *)
Definition getattr (self : Instance) (key : string) : option PyVal :=
  if String.eqb key "__dict__" then Some (VDict (inst_dict self))
  else if String.eqb key "__class__"
  then Some (VClass (class_repr (inst_class self)))
  else if String.eqb key "__weakref__" then Some VNone
  else
    match assoc key (inst_dict self) with
    | Some v => Some v
    | None => assoc key (class_attrs (inst_class self))
    end.

Definition hasattr (self : Instance) (key : string) : bool :=
  match getattr self key with
  | Some _ => true
  | None => false
  end.

(** [setattr(self, key, v)].  Setting [__dict__] replaces the attributes
    of the instance; [__class__] cannot be set to the class of one of the
    values considered, which is a built-in class; [__weakref__] cannot be
    set; any other name is entered in the dictionary of the instance. *)
Definition setattr (self : Instance) (key : string) (v : PyVal)
  : result Exception Instance :=
  if String.eqb key "__dict__"
  then
    match v with
    | VDict items =>
        Ok {| inst_class := inst_class self; inst_dict := items |}
    | _ =>
        Err (mkException TypeError "__dict__ must be set to a dictionary")
    end
  else if String.eqb key "__class__"
  then Err (mkException TypeError
              "__class__ assignment only supported for heap types")
  else if String.eqb key "__weakref__"
  then Err (mkException AttributeError
              "attribute '__weakref__' is not writable")
  else
    Ok {| inst_class := inst_class self;
          inst_dict := (key, v) :: inst_dict self |}.

(** *** [str.format] *)

(** The format specifications the sources use: none, or one presentation
    type, as in [{other_cls:r}]. *)
Inductive FormatSpec : Set :=
| SpecEmpty
| SpecType (c : ascii).

(** A template, cut into its literal text and its replacement fields. *)
Inductive FormatPiece : Set :=
| Lit (s : string)
| Field (name : string) (spec : FormatSpec).

(** The arguments the sources format: a [str], or a class. *)
Inductive FormatArg : Type :=
| ArgStr (s : string)
| ArgClass (cls : PyClass).

(** [str.__format__]: only the presentation type [s] is accepted. *)
Definition str___format__ (s : string) (spec : FormatSpec)
  : result Exception string :=
  match spec with
  | SpecEmpty => Ok s
  | SpecType c =>
      if Ascii.eqb c "s"
      then Ok s
      else Err (mkException ValueError
                  ("Unknown format code '" ++ String c "' for object of type 'str'"))
  end.

(** [object.__format__], which a class object inherits: with a non-empty
    specification, Python 2 formats [str(self)] with it and Python 3 (3.5
    and later) raises [TypeError]. *)
Definition object___format__ (py : PyVersion) (str_self type_name : string)
  (spec : FormatSpec) : result Exception string :=
  match spec with
  | SpecEmpty => Ok str_self
  | SpecType _ =>
      match py with
      | Py2 => str___format__ str_self spec
      | Py3 =>
          Err (mkException TypeError
                 ("unsupported format string passed to " ++ type_name
                  ++ ".__format__"))
      end
  end.

(** [format(arg, spec)] *)
Definition format_value (py : PyVersion) (arg : FormatArg) (spec : FormatSpec)
  : result Exception string :=
  match arg with
  | ArgStr s => str___format__ s spec
  | ArgClass cls => object___format__ py (class_repr cls) "type" spec
  end.

(** [template.format] with keyword arguments, fields from left to right. *)
Fixpoint str_format (py : PyVersion) (template : list FormatPiece)
  (kwargs : list (string * FormatArg)) : result Exception string :=
  match template with
  | [] => Ok ""%string
  | Lit s :: rest =>
      tail <- str_format py rest kwargs ;; Ok (s ++ tail)%string
  | Field name spec :: rest =>
      match assoc name kwargs with
      | None => Err (mkException KeyError name)
      | Some arg =>
          text <- format_value py arg spec ;;
          tail <- str_format py rest kwargs ;;
          Ok (text ++ tail)%string
      end
  end.

(** [needle in haystack] *)
Fixpoint contains (needle haystack : string) : bool :=
  String.prefix needle haystack
  || match haystack with
     | EmptyString => false
     | String _ rest => contains needle rest
     end.

(** ** [class Thread] *)

Module Thread.

(** The attributes every class inherits from [object], as the callables
    they are on an instance; [__class__] is computed ([getattr]), and
    [__init__] and [__doc__] are those of [Thread].  The lists are those of
    CPython 3.9 and 2.7. *)
Definition object_attrs (py : PyVersion) : list (string * PyVal) :=
  map (fun name => (name, VMethod name))
    (match py with
     | Py3 =>
         [ "__delattr__"; "__dir__"; "__eq__"; "__format__"; "__ge__";
           "__getattribute__"; "__gt__"; "__hash__"; "__init_subclass__";
           "__le__"; "__lt__"; "__ne__"; "__new__"; "__reduce__";
           "__reduce_ex__"; "__repr__"; "__setattr__"; "__sizeof__";
           "__str__"; "__subclasshook__" ]
     | Py2 =>
         [ "__delattr__"; "__format__"; "__getattribute__"; "__hash__";
           "__new__"; "__reduce__"; "__reduce_ex__"; "__repr__";
           "__setattr__"; "__sizeof__"; "__str__"; "__subclasshook__" ]
     end)%string.

(** The class as Python sees it: the attributes of lines 182-188, the
    methods, [__doc__] and [__module__], and what [object] gives. *)
Definition cls (py : PyVersion) : PyClass :=
  {| class_repr := "<class 'cqparts.types.threads.base.Thread'>";
     class_attrs :=
       [ ("length", VFloat 10); ("pitch", VFloat 1); ("start_count", VInt 1);
         ("radius", VFloat 3); ("inner", VBool false);
         ("lefthand", VBool false);
         ("__init__", VMethod "__init__");
         ("build_profile", VMethod "build_profile");
         ("make", VMethod "make");
         ("__doc__", VNone);
         ("__module__", VStr "cqparts.types.threads.base") ]%string
       ++ object_attrs py |}.

(** The template of the message of line 193. *)
Definition init_error_template : list FormatPiece :=
  [ Lit "screw drive class "; Field "cls" SpecEmpty;
    Lit " does not accept a '"; Field "key" SpecEmpty;
    Lit "' parameter" ]%string.

(** The loop of lines 191-208, over [kwargs.items()] in the order the
    dictionary yields them. *)
Fixpoint init_loop `{Builtins} (py : PyVersion) (self : Instance)
  (kwargs : list (string * PyVal)) : result Exception Instance :=
  match kwargs with
  | [] => Ok self
  | (key, value) :: rest =>
      if negb (hasattr self key)
      then
        msg <- str_format py init_error_template
                 [ ("cls", ArgStr (class_repr (inst_class self)));
                   ("key", ArgStr key) ]%string ;;
        Err (mkException ValueError msg)
      else
        match getattr self key with
        | None => Err (mkException AttributeError key)
        | Some default_value =>
            cast_value <-
              match default_value with
              | VNone => Ok value
              | _ => construct (type_of default_value) value
              end ;;
            self' <- setattr self key cast_value ;;
            init_loop py self' rest
        end
  end.

(** [Thread.__init__(self, **kwargs)], as the call of the class runs it
    on a new instance: a keyword named [self] clashes with the instance,
    which is passed by position, and the call raises [TypeError] before
    the body runs. *)
Definition __init__ `{Builtins} (py : PyVersion) (self : Instance)
  (kwargs : list (string * PyVal)) : result Exception Instance :=
  if existsb (String.eqb "self") (map fst kwargs)
  then Err (mkException TypeError
              "__init__() got multiple values for argument 'self'")
  else init_loop py self kwargs.

(** An instance once constructed, with its attributes at the types the
    class defaults give them. *)
Record t : Type := mk {
  length : Q;
  pitch : Q;
  start_count : Z;
  radius : Q;
  inner : bool;
  lefthand : bool
}.

(** [build_profile], which every concrete thread overrides: the profile is
    a function of the thread, so that the two calls [make] makes return the
    same profile. *)
Class Variant : Type := {
  build_profile : t -> res PyProfile
}.

(** The method of the base class, line 222. *)
Definition base_build_profile (self : t) : res PyProfile :=
  Err NotImplementedError.

(** [Thread.make] *)
Definition make `{Math} `{Kernel} `{Variant} (py : PyVersion) (self : t)
  : Traced Shape :=
  profile <~ quiet (build_profile self) ;;
  profile' <~ quiet (build_profile self) ;;
  cross_section <~
    quiet (match profile_to_cross_section py profile' (lefthand self)
                   (MVInt 20) with
           | Returned cs => Ok cs
           | Raised e _ => Err e
           end) ;;
  wire <~
    quiet (match profile with
           | Workplane (ValWire w) => Ok w
           | _ => Err AttributeError
           end) ;;
  let profile_bb := BoundingBox wire in
  let lead := zmax profile_bb - zmin profile_bb in
  path <~ helical_path lead (length self) 1 0 (lefthand self) ;;
  thread_shape <~ call (CallSweep cross_section path true)
                       (sweep cross_section path true) ;;
  valid <~ call (CallIsValid thread_shape) (Ok (isValid thread_shape)) ;;
  if negb valid
  then
    sewn <~ call (CallSewShape thread_shape) (sewShape thread_shape) ;;
    call (CallSolid sewn) (Solid sewn)
  else quiet (Ok thread_shape).

End Thread.

(** ** [FreeCAD.Vector] and [FreeCAD.Matrix] *)

Definition Vector_sub (u v : Vector) : Vector :=
  mkVector (vx u - vx v) (vy u - vy v) (vz u - vz v).

Definition dot (u v : Vector) : Q := vx u * vx v + vy u * vy v + vz u * vz v.

Definition cross (u v : Vector) : Vector :=
  mkVector (vy u * vz v - vz u * vy v)
           (vz u * vx v - vx u * vz v)
           (vx u * vy v - vy u * vx v).

Record Matrix : Type := mkMatrix {
  A11 : Q; A12 : Q; A13 : Q; A14 : Q;
  A21 : Q; A22 : Q; A23 : Q; A24 : Q;
  A31 : Q; A32 : Q; A33 : Q; A34 : Q;
  A41 : Q; A42 : Q; A43 : Q; A44 : Q
}.

(** Modelled from the spec: [FreeCAD.Matrix.multiply] on a matrix, the
    kernel's 4x4 matrix product (section 6, "4x4 affine matrix type"). *)
Definition Matrix_multiply (m n : Matrix) : Matrix :=
  mkMatrix
    (A11 m * A11 n + A12 m * A21 n + A13 m * A31 n + A14 m * A41 n)
    (A11 m * A12 n + A12 m * A22 n + A13 m * A32 n + A14 m * A42 n)
    (A11 m * A13 n + A12 m * A23 n + A13 m * A33 n + A14 m * A43 n)
    (A11 m * A14 n + A12 m * A24 n + A13 m * A34 n + A14 m * A44 n)
    (A21 m * A11 n + A22 m * A21 n + A23 m * A31 n + A24 m * A41 n)
    (A21 m * A12 n + A22 m * A22 n + A23 m * A32 n + A24 m * A42 n)
    (A21 m * A13 n + A22 m * A23 n + A23 m * A33 n + A24 m * A43 n)
    (A21 m * A14 n + A22 m * A24 n + A23 m * A34 n + A24 m * A44 n)
    (A31 m * A11 n + A32 m * A21 n + A33 m * A31 n + A34 m * A41 n)
    (A31 m * A12 n + A32 m * A22 n + A33 m * A32 n + A34 m * A42 n)
    (A31 m * A13 n + A32 m * A23 n + A33 m * A33 n + A34 m * A43 n)
    (A31 m * A14 n + A32 m * A24 n + A33 m * A34 n + A34 m * A44 n)
    (A41 m * A11 n + A42 m * A21 n + A43 m * A31 n + A44 m * A41 n)
    (A41 m * A12 n + A42 m * A22 n + A43 m * A32 n + A44 m * A42 n)
    (A41 m * A13 n + A42 m * A23 n + A43 m * A33 n + A44 m * A43 n)
    (A41 m * A14 n + A42 m * A24 n + A43 m * A34 n + A44 m * A44 n).

(** Modelled from the spec: [FreeCAD.Matrix.multiply] on a vector, the
    matrix applied to a point (section 6, "supporting point
    multiplication"). *)
Definition Matrix_multiply_vector (m : Matrix) (v : Vector) : Vector :=
  mkVector
    (A11 m * vx v + A12 m * vy v + A13 m * vz v + A14 m)
    (A21 m * vx v + A22 m * vy v + A23 m * vz v + A24 m)
    (A31 m * vx v + A32 m * vy v + A33 m * vz v + A34 m).

(** Equality of floats is equality of rationals, [==]; vectors and matrices
    are compared entry by entry. *)
Definition Vector_eq (u v : Vector) : Prop :=
  vx u == vx v /\ vy u == vy v /\ vz u == vz v.

Definition Matrix_eq (m n : Matrix) : Prop :=
  (A11 m == A11 n /\ A12 m == A12 n /\ A13 m == A13 n /\ A14 m == A14 n) /\
  (A21 m == A21 n /\ A22 m == A22 n /\ A23 m == A23 n /\ A24 m == A24 n) /\
  (A31 m == A31 n /\ A32 m == A32 n /\ A33 m == A33 n /\ A34 m == A34 n) /\
  (A41 m == A41 n /\ A42 m == A42 n /\ A43 m == A43 n /\ A44 m == A44 n).

(** ** [class CoordSystem(cadquery.Plane)] *)

Module CoordSystem.

(** Modelled from the spec: [cadquery.Plane], the base class, is not part
    of the sources.  Section 3 gives its data (origin, x-axis direction and
    normal) and section 4.4 its constructor ("direct copy"). *)
Record t : Type := mk {
  origin : Vector;
  xDir : Vector;
  zDir : Vector
}.

Definition cls : PyClass :=
  {| class_repr := "<class 'cqparts.utils.geometry.CoordSystem'>";
     class_attrs := [] |}.

(** Modelled from the spec: the invariant of section 3, "x-axis
    perpendicular to normal, both unit length". *)
Definition orthonormal (c : t) : Prop :=
  dot (xDir c) (xDir c) == 1 /\
  dot (zDir c) (zDir c) == 1 /\
  dot (xDir c) (zDir c) == 0.

(** Modelled from the spec: the implied y axis of a right-handed frame. *)
Definition yDir (c : t) : Vector := cross (zDir c) (xDir c).

(** Modelled from the spec: [cadquery.Plane.rG], the forward
    (local to world) transform of the frame, a derived view of it (section
    4.4): the axes are its columns and the origin its translation. *)
Definition rG (c : t) : Matrix :=
  mkMatrix
    (vx (xDir c)) (vx (yDir c)) (vx (zDir c)) (vx (origin c))
    (vy (xDir c)) (vy (yDir c)) (vy (zDir c)) (vy (origin c))
    (vz (xDir c)) (vz (yDir c)) (vz (zDir c)) (vz (origin c))
    0 0 0 1.

Definition equiv (a b : t) : Prop :=
  Vector_eq (origin a) (origin b) /\
  Vector_eq (xDir a) (xDir b) /\
  Vector_eq (zDir a) (zDir b).

(** The identity frame: origin at zero, standard axes. *)
Definition identity : t :=
  mk (mkVector 0 0 0) (mkVector 1 0 0) (mkVector 0 0 1).

Definition from_plane (plane : t) : t :=
  mk (origin plane) (xDir plane) (zDir plane).

(** The last line constructs the frame with [cls(origin=..., xDir=...,
    normal=...)], the constructor of [cadquery.Plane], modelled from
    section 4.4 of the spec as a copy of its arguments.  That of cadquery
    brings the two directions to unit length (and refuses a null one), so
    that the model is that of the code where the first and the third
    column of the matrix are unit vectors, as they are for the transforms
    of frames that satisfy [orthonormal]. *)
Definition from_transform (matrix : Matrix) : t :=
  let offset := mkVector 0 0 0 in
  let x_vertex := mkVector 1 0 0 in
  let z_vertex := mkVector 0 0 1 in
  let offset := Matrix_multiply_vector matrix offset in
  let x_vertex := Matrix_multiply_vector matrix x_vertex in
  let z_vertex := Matrix_multiply_vector matrix z_vertex in
  let x_axis := Vector_sub x_vertex offset in
  let z_axis := Vector_sub z_vertex offset in
  mk offset x_axis z_axis.

Definition local_to_world_transform (self : t) : Matrix := rG self.

(** The right operand of [+]: a [CoordSystem], or an object of another
    class. *)
Inductive Operand : Type :=
| IsCoordSystem (other : t)
| NotCoordSystem (other_cls : PyClass).

(** The template of the message of line 204. *)
Definition add_error_template : list FormatPiece :=
  [ Lit "adding a "; Field "other_cls" (SpecType "r");
    Lit " to a "; Field "self_cls" (SpecType "r");
    Lit " is not supported" ]%string.

Definition __add__ (py : PyVersion) (self : t) (other : Operand)
  : result Exception t :=
  match other with
  | IsCoordSystem other =>
      let self_transform := local_to_world_transform self in
      let other_transform := local_to_world_transform other in
      Ok (from_transform (Matrix_multiply self_transform other_transform))
  | NotCoordSystem other_cls =>
      msg <- str_format py add_error_template
               [ ("self_cls", ArgClass cls);
                 ("other_cls", ArgClass other_cls) ]%string ;;
      Err (mkException TypeError msg)
  end.

(** [A + B] for two coordinate systems. *)
Definition add (a b : t) : t :=
  from_transform
    (Matrix_multiply (local_to_world_transform a) (local_to_world_transform b)).

End CoordSystem.

(** ** The policies of the specification *)

(** Section 4.1, step 1: the lead of a profile wire. *)
Definition wire_lead (wire : Wire) : Q :=
  zmax (BoundingBox wire) - zmin (BoundingBox wire).

(** Section 4.1, step 3: radius [x], angle [(z / lead) * 2 pi], negated
    unless [lefthand], mapped to [(radius cos angle, radius sin angle)]. *)
Definition polar_image `{Math} (lead : Q) (lefthand : bool) (v : Vector)
  : Q * Q :=
  let radius := vx v in
  let angle := vz v / lead * (2 * pi) in
  let angle := if lefthand then angle else - angle in
  (radius * cos angle, radius * sin angle).

(** Section 4.1, step 2, as line 80 computes it: the count of one segment
    for a budget, each operation rounded to a float, when none of them
    overflows. *)
Definition count_of (py : PyVersion) (wlen : Q) (B : Z) (e : Edge) : Z :=
  Qceiling
    (fl (fl (py_round py (fl (Length e / wlen)) 7) * fl (inject_Z B))).

Fixpoint sum_Z (l : list Z) : Z :=
  match l with
  | [] => 0%Z
  | c :: l' => (c + sum_Z l')%Z
  end.

Fixpoint sum_Q (l : list Q) : Q :=
  match l with
  | [] => 0
  | c :: l' => c + sum_Q l'
  end.

Definition total_length (es : list Edge) : Q := sum_Q (map Length es).

(** Section 4.1, step 4: the kinds of segment. *)
Definition is_line (e : Edge) : Prop := geomType e = "LINE"%string.

Definition constant_x (e : Edge) : Prop :=
  vx (startPoint e) == vx (endPoint e).

Definition constant_z (e : Edge) : Prop :=
  vz (startPoint e) == vz (endPoint e).

(** Neither a vertical nor a horizontal line. *)
Definition to_spline (e : Edge) : Prop :=
  ~ (is_line e /\ constant_x e) /\ ~ (is_line e /\ constant_z e).

(** What a spline is sampled over: the end of the parameter range of a
    circle, the length of any other edge. *)
Definition span (e : Edge) : Q :=
  if String.eqb (geomType e) "CIRCLE" then snd (ParameterRange e) else Length e.

(** The emission policy: the sketch operation a segment gives rise to.  A
    line that is both vertical and horizontal counts as vertical, and a
    spline needs at least one vertex. *)
Inductive emits `{Math} (lead : Q) (lefthand : bool) (vertices_count : list Z)
  (i : nat) (edge : Edge) : SketchOp -> Prop :=
| emits_arc (mid fin : Q * Q) :
    is_line edge -> constant_x edge ->
    transform lead lefthand (valueAt edge (Length edge / 2)) = Ok mid ->
    transform lead lefthand (valueAt edge (Length edge)) = Ok fin ->
    emits lead lefthand vertices_count i edge (ThreePointArc mid fin)
| emits_line (p : Q * Q) :
    is_line edge -> ~ constant_x edge -> constant_z edge ->
    transform lead lefthand (endPoint edge) = Ok p ->
    emits lead lefthand vertices_count i edge (LineTo p)
| emits_spline (vert_count : Z) (points : list (Q * Q)) :
    to_spline edge ->
    nth_error vertices_count i = Some vert_count ->
    (1 <= vert_count)%Z ->
    Z.of_nat (List.length points) = vert_count ->
    (forall j, (0 <= j < vert_count)%Z ->
       exists p, nth_error points (Z.to_nat j) = Some p /\
         transform lead lefthand
           (curve_value edge
              (inject_Z (j + 1) * (span edge / inject_Z vert_count)))
         = Ok p) ->
    emits lead lefthand vertices_count i edge (Spline points).

(** [[c; c'; ...]] for the calls [make] issues from the helix on. *)
Definition helix_call `{Kernel} (wire : Wire) (self : Thread.t) : KernelCall :=
  CallMakeHelix (zmax (BoundingBox wire) - zmin (BoundingBox wire))
                (Thread.length self) 1 0 (Thread.lefthand self).

(** The part of [make] that follows the cross-section, lines 232-246. *)
Definition sweep_and_repair `{Kernel} (wire : Wire) (cs : list SketchOp)
  (self : Thread.t) : Traced Shape :=
  path <~ helical_path (zmax (BoundingBox wire) - zmin (BoundingBox wire))
            (Thread.length self) 1 0 (Thread.lefthand self) ;;
  thread_shape <~ call (CallSweep cs path true) (sweep cs path true) ;;
  valid <~ call (CallIsValid thread_shape) (Ok (isValid thread_shape)) ;;
  if negb valid
  then sewn <~ call (CallSewShape thread_shape) (sewShape thread_shape) ;;
       call (CallSolid sewn) (Solid sewn)
  else quiet (Ok thread_shape).

(** A new instance of a class, before [__init__] runs. *)
Definition fresh (c : PyClass) : Instance := mkInstance c [].

(** The message of line 193, written out. *)
Definition init_error_message (self : Instance) (key : string) : string :=
  ("screw drive class " ++ class_repr (inst_class self)
   ++ " does not accept a '" ++ key ++ "' parameter")%string.

(** A matrix that is the transform of a frame: affine, with its second
    column the cross product of the third and the first. *)
Definition frame_matrix (m : Matrix) : Prop :=
  (A41 m == 0 /\ A42 m == 0 /\ A43 m == 0 /\ A44 m == 1) /\
  Vector_eq (mkVector (A12 m) (A22 m) (A32 m))
            (cross (mkVector (A13 m) (A23 m) (A33 m))
                   (mkVector (A11 m) (A21 m) (A31 m))).

(** ** The shape of a cross-section *)

(** The operations that draw a segment, as opposed to the opening [moveTo]
    and the final [close]. *)
Definition is_drawing (op : SketchOp) : bool :=
  match op with
  | ThreePointArc _ _ | LineTo _ | Spline _ => true
  | MoveTo _ | Close => false
  end.

(** The square of the distance of a sketch point to the thread axis. *)
Definition norm2 (p : Q * Q) : Q := fst p * fst p + snd p * snd p.

(** The curve parameters [apply_spline] samples, lines 124-129:
    [(j + 1) * (span / vert_count)] for [j] in [range(vert_count)]. *)
Definition sample_parameters (edge : Edge) (vert_count : Z) : list Q :=
  map (fun j => inject_Z (j + 1) * (span edge / inject_Z vert_count))
      (range vert_count).

(** Two sketches that are mirror images in the x axis of the sketch
    plane. *)
Definition mirror_point (p q : Q * Q) : Prop :=
  fst q == fst p /\ snd q == - snd p.

Inductive mirror_op : SketchOp -> SketchOp -> Prop :=
| mirror_MoveTo (p q : Q * Q) :
    mirror_point p q -> mirror_op (MoveTo p) (MoveTo q)
| mirror_ThreePointArc (p1 p2 q1 q2 : Q * Q) :
    mirror_point p1 q1 -> mirror_point p2 q2 ->
    mirror_op (ThreePointArc p1 p2) (ThreePointArc q1 q2)
| mirror_LineTo (p q : Q * Q) :
    mirror_point p q -> mirror_op (LineTo p) (LineTo q)
| mirror_Spline (ps qs : list (Q * Q)) :
    Forall2 mirror_point ps qs -> mirror_op (Spline ps) (Spline qs)
| mirror_Close : mirror_op Close Close.

Definition mirror_outcome (a b : Outcome) : Prop :=
  match a, b with
  | Returned cs, Returned cs' => Forall2 mirror_op cs cs'
  | Raised e built, Raised e' built' => e = e' /\ Forall2 mirror_op built built'
  | _, _ => False
  end.

Definition mirror_result {A : Type} (R : A -> A -> Prop) (a b : res A) : Prop :=
  match a, b with
  | Ok x, Ok y => R x y
  | Err e, Err e' => e = e'
  | _, _ => False
  end.

(** A number half way between two integers, where the rounding of Python 2
    and that of Python 3 part. *)
Definition tie (x : Q) : Prop := x - inject_Z (Qfloor x) == 1 # 2.

(** ** The cast of [Thread.__init__] *)

(** Lines 195-207: the value is cast to the type of the class default,
    unless the default is [None]. *)
Definition cast_to `{Builtins} (default_value value : PyVal)
  : result Exception PyVal :=
  match default_value with
  | VNone => Ok value
  | _ => construct (type_of default_value) value
  end.

(** ** The kernel calls of [make] *)

Inductive CallKind : Set := KMakeHelix | KSweep | KIsValid | KSewShape | KSolid.

Definition call_kind `{Kernel} (c : KernelCall) : CallKind :=
  match c with
  | CallMakeHelix _ _ _ _ _ => KMakeHelix
  | CallSweep _ _ _ => KSweep
  | CallIsValid _ => KIsValid
  | CallSewShape _ => KSewShape
  | CallSolid _ => KSolid
  end.

(** The order of lines 234-244. *)
Definition make_protocol : list CallKind :=
  [KMakeHelix; KSweep; KIsValid; KSewShape; KSolid].

(** ** [intersect] *)

(** What [intersect] (geometry.py, lines 8-35) asks of cadquery solids:
    the objects a workplane stacks, the boolean intersection and the
    clean-up, each of which may raise. *)
Class Solids : Type := {
  SolidObj : Type;
  StackObj : Type;
  solid_intersect : SolidObj -> StackObj -> result Exception SolidObj;
  solid_clean : SolidObj -> result Exception SolidObj;
  as_object : SolidObj -> StackObj
}.

(** The second argument: a [cadquery.CQ], with what its [val()] gives; a
    [cadquery.Solid]; or an object of another class. *)
Inductive Wp2 `{Solids} : Type :=
| IsCQ (val : result Exception StackObj)
| IsSolid (solid : SolidObj)
| OtherObject (wp2_cls : PyClass).

(** What a call leaves: the objects of the workplane it returns, and the
    shape [solidRef] wraps afterwards. *)
Record Intersection `{Solids} : Type := mkIntersection {
  new_objects : list SolidObj;
  solidRef_wrapped : SolidObj
}.

(** The template of the message of line 25; its only field is the first
    positional argument. *)
Definition intersect_error_template : list FormatPiece :=
  [ Lit "Cannot intersect type '"; Field "0" SpecEmpty; Lit "'" ]%string.

(** [intersect(wp1, wp2, combine, clean)]; [findSolid] is what
    [wp1.findSolid(searchStack=True, searchParents=True)] returns. *)
Definition intersect `{Solids} (py : PyVersion) (findSolid : option SolidObj)
  (wp2 : Wp2) (combine clean : bool) : result Exception Intersection :=
  match findSolid with
  | None =>
      Err (mkException ValueError "Cannot find solid to intersect with")
  | Some solidRef =>
      solidToIntersect <-
        match wp2 with
        | IsCQ val => val
        | IsSolid solid => Ok (as_object solid)
        | OtherObject wp2_cls =>
            msg <- str_format py intersect_error_template
                     [ ("0", ArgClass wp2_cls) ]%string ;;
            Err (mkException ValueError msg)
        end ;;
      newS <- solid_intersect solidRef solidToIntersect ;;
      newS <- (if clean then solid_clean newS else Ok newS) ;;
      Ok {| new_objects := [newS];
            solidRef_wrapped := if combine then newS else solidRef |}
  end.

(** ** Translations *)

(** A frame with the standard axes at [v]. *)
Definition translation (v : Vector) : CoordSystem.t :=
  CoordSystem.mk v (mkVector 1 0 0) (mkVector 0 0 1).

Definition Vector_add (u v : Vector) : Vector :=
  mkVector (vx u + vx v) (vy u + vy v) (vz u + vz v).

(** ** Concrete inputs for the examples *)

(** A math library over the rationals (truncated series); every theorem
    below holds for any other. *)
Definition rational_math : Math :=
  {| cos := fun x => 1 - x * x / 2;
     sin := fun x => x - x * x * x / 6;
     pi := 355 # 113 |}.

Definition py_truth (v : PyVal) : bool :=
  match v with
  | VNone => false
  | VBool b => b
  | VInt z => negb (Z.eqb z 0)
  | VFloat q => negb (Qeq_bool q 0)
  | VStr s => negb (String.eqb s "")
  | VDict items => match items with [] => false | _ :: _ => true end
  | VStrOf _ | VClass _ | VMethod _ => true
  end.

(** [t.__name__] *)
Definition type_name (t : PyType) : string :=
  match t with
  | TNoneType => "NoneType"
  | TBool => "bool"
  | TInt => "int"
  | TFloat => "float"
  | TStr => "str"
  | TDict => "dict"
  | TType => "type"
  | TMethod => "method"
  end.

(** [str(v)], spelled out where it is short. *)
Definition py_str (v : PyVal) : PyVal :=
  match v with
  | VNone => VStr "None"
  | VBool b => VStr (if b then "True" else "False")
  | VInt z => VStr (NilZero.string_of_int (Z.to_int z))
  | VStr s => VStr s
  | VStrOf w => VStrOf w
  | VClass repr => VStr repr
  | VFloat _ | VDict _ | VMethod _ => VStrOf v
  end.

(** The integer a string spells: a sign and decimal digits.  The other
    numerals Python reads in a string (blanks around them, underscores, a
    fraction or an exponent for a float) are left out of the examples. *)
Definition parse_int (s : string) : option Z :=
  option_map Z.of_int
    (NilZero.int_of_string
       (match s with
        | String "+" (String c rest) =>
            if Ascii.eqb c "-" then "+" else String c rest
        | _ => s
        end)).

(** The built-in constructors on the values considered, with the messages
    of CPython 3.9. *)
Definition numeric_builtins : Builtins :=
  {| construct := fun ty v =>
       match ty, v with
       | TFloat, VBool b => Ok (VFloat (if b then 1 else 0))
       | TFloat, VInt z => Ok (VFloat (inject_Z z))
       | TFloat, VFloat q => Ok (VFloat q)
       | TFloat, VStrOf (VFloat q) => Ok (VFloat q)
       | TFloat, VStrOf (VInt z) => Ok (VFloat (inject_Z z))
       | TFloat, VStr s =>
           match parse_int s with
           | Some z => Ok (VFloat (inject_Z z))
           | None =>
               Err (mkException ValueError "could not convert string to float")
           end
       | TFloat, VStrOf _ =>
           Err (mkException ValueError "could not convert string to float")
       | TFloat, _ =>
           Err (mkException TypeError
                  ("float() argument must be a string or a number, not '"
                   ++ type_name (type_of v) ++ "'"))
       | TInt, VBool b => Ok (VInt (if b then 1 else 0))
       | TInt, VInt z => Ok (VInt z)
       | TInt, VFloat q =>
           Ok (VInt (if Qle_bool 0 q then Qfloor q else Qceiling q))
       | TInt, VStrOf (VInt z) => Ok (VInt z)
       | TInt, VStr s =>
           match parse_int s with
           | Some z => Ok (VInt z)
           | None =>
               Err (mkException ValueError
                      "invalid literal for int() with base 10")
           end
       | TInt, VStrOf _ =>
           Err (mkException ValueError
                  "invalid literal for int() with base 10")
       | TInt, _ =>
           Err (mkException TypeError
                  ("int() argument must be a string, a bytes-like object or "
                   ++ "a number, not '" ++ type_name (type_of v) ++ "'"))
       | TBool, _ => Ok (VBool (py_truth v))
       | TStr, _ => Ok (py_str v)
       | TDict, VDict items => Ok (VDict items)
       | TDict, VStr "" => Ok (VDict [])
       | TDict, (VStr _ | VStrOf _) =>
           Err (mkException ValueError
                  ("dictionary update sequence element #0 has length 1; "
                   ++ "2 is required"))
       | TDict, _ =>
           Err (mkException TypeError
                  ("'" ++ type_name (type_of v) ++ "' object is not iterable"))
       | TType, _ =>
           Ok (VClass ("<class '" ++ type_name (type_of v) ++ "'>"))
       | TNoneType, _ =>
           Err (mkException TypeError "NoneType takes no arguments")
       | TMethod, _ =>
           Err (mkException TypeError "method expected 2 arguments, got 1")
       end |}.

(** A straight edge from [a] to [b] of length [len], parametrised by arc
    length. *)
Definition line_edge (a b : Vector) (len : Q) : Edge :=
  let at_ := fun d =>
    mkVector (vx a + d / len * (vx b - vx a))
             (vy a + d / len * (vy b - vy a))
             (vz a + d / len * (vz b - vz a)) in
  mkEdge "LINE" a b len (0, len) at_ at_.

(** A profile with a slanted, a vertical, a horizontal and a vertical
    segment; its lead is 8 and its length 12. *)
Definition example_wire : Wire :=
  mkWire
    [ line_edge (mkVector 2 0 0) (mkVector 5 0 4) 5;
      line_edge (mkVector 5 0 4) (mkVector 5 0 6) 2;
      line_edge (mkVector 5 0 6) (mkVector 2 0 6) 3;
      line_edge (mkVector 2 0 6) (mkVector 2 0 8) 2 ]
    12
    (mkBoundBox 2 5 0 0 0 8).

(** Three segments of the same length. *)
Definition thirds_wire : Wire :=
  mkWire
    [ line_edge (mkVector 2 0 0) (mkVector 5 0 4) 5;
      line_edge (mkVector 5 0 4) (mkVector 2 0 8) 5;
      line_edge (mkVector 2 0 8) (mkVector 5 0 12) 5 ]
    15
    (mkBoundBox 2 5 0 0 0 12).

(** A slanted segment followed by a segment along the y axis, which the
    projection on the XZ plane reduces to a point. *)
Definition folded_wire : Wire :=
  mkWire
    [ line_edge (mkVector 2 0 0) (mkVector 5 0 4) 5;
      line_edge (mkVector 5 0 4) (mkVector 5 3 4) 3 ]
    8
    (mkBoundBox 2 5 0 3 0 4).

(** A single horizontal segment: the lead is 0. *)
Definition flat_wire : Wire :=
  mkWire
    [ line_edge (mkVector 2 0 0) (mkVector 5 0 0) 3 ]
    3
    (mkBoundBox 2 5 0 0 0 0).

(** A kernel for the examples: a helix is the tuple of its arguments, a
    shape is a number, valid when it is even; sewing leaves a shape as it
    is and [Solid] adds one to it. *)
Definition example_kernel : Kernel :=
  {| Helix := Q * Q * Q * Q * bool;
     Shape := nat;
     makeHelix := fun pitch length radius angle lefthand =>
                    Ok (pitch, length, radius, angle, lefthand);
     sweep := fun _ _ _ => Ok 1%nat;
     isValid := Nat.even;
     sewShape := fun s => Ok s;
     Solid := fun s => Ok (S s) |}.

(** The same kernel, but for [Solid], which fails. *)
Definition brittle_kernel : Kernel :=
  {| Helix := Q * Q * Q * Q * bool;
     Shape := nat;
     makeHelix := fun pitch length radius angle lefthand =>
                    Ok (pitch, length, radius, angle, lefthand);
     sweep := fun _ _ _ => Ok 1%nat;
     isValid := Nat.even;
     sewShape := fun s => Ok s;
     Solid := fun _ => Err OCCError |}.

Definition example_variant : Thread.Variant :=
  {| Thread.build_profile := fun _ => Ok (Workplane (ValWire example_wire)) |}.

Definition example_thread : Thread.t := Thread.mk 10 1 1 3 false false.

(** The cross-section of the example profile for the default budget. *)
Definition example_cross_section : list SketchOp :=
  Eval vm_compute in
    match profile_to_cross_section (H := rational_math) Py2
            (Workplane (ValWire example_wire)) false (MVInt 20) with
    | Returned cs => cs
    | Raised _ _ => []
    end.

(** [int], as Python 3 and Python 2 print it. *)
Definition int_class (py : PyVersion) : PyClass :=
  {| class_repr := match py with
                   | Py2 => "<type 'int'>"
                   | Py3 => "<class 'int'>"
                   end;
     class_attrs := [] |}.

(** An orthonormal frame that is not the identity. *)
Definition tilted_frame : CoordSystem.t :=
  CoordSystem.mk (mkVector 1 2 3)
                 (mkVector (3 # 5) (4 # 5) 0)
                 (mkVector 0 0 1).

Definition turned_frame : CoordSystem.t :=
  CoordSystem.mk (mkVector 0 1 0)
                 (mkVector 0 0 1)
                 (mkVector (4 # 5) (-3 # 5) 0).

(** A math library over the rationals whose [cos] and [sin] lie on the unit
    circle exactly (its rational parametrisation), the first even and the
    second odd. *)
Definition circle_math : Math :=
  {| cos := fun x => (1 - x * x) / (1 + x * x);
     sin := fun x => 2 * x / (1 + x * x);
     pi := 355 # 113 |}.

(** Two segments of lengths 35 and 90. *)
Definition uneven_wire : Wire :=
  mkWire
    [ line_edge (mkVector 2 0 0) (mkVector 2 0 35) 35;
      line_edge (mkVector 2 0 35) (mkVector 2 0 125) 90 ]
    125
    (mkBoundBox 2 2 0 0 0 125).

(** A wire without edges. *)
Definition empty_wire : Wire :=
  mkWire [] 0 (mkBoundBox 0 0 0 0 0 0).

(** A wire whose only edge has length 0. *)
Definition point_wire : Wire :=
  mkWire
    [ line_edge (mkVector 2 0 1) (mkVector 2 0 1) 0 ]
    0
    (mkBoundBox 2 2 0 0 1 1).

(** A vertical and a horizontal segment: its lead is 4. *)
Definition step_wire : Wire :=
  mkWire
    [ line_edge (mkVector 2 0 0) (mkVector 2 0 4) 4;
      line_edge (mkVector 2 0 4) (mkVector 5 0 4) 3 ]
    7
    (mkBoundBox 2 5 0 0 0 4).

(** A wire with a segment whose share of the length is [1/256]: times
    [10^7] it is half way between two integers. *)
Definition tie_wire : Wire :=
  mkWire
    [ line_edge (mkVector 2 0 0) (mkVector 3 0 0) 1;
      line_edge (mkVector 3 0 0) (mkVector 3 0 255) 255 ]
    256
    (mkBoundBox 2 3 0 0 0 255).

(** A wire whose record gives it the length 1 and its only segment the
    length [2^1100], so that the share of the segment overflows. *)
Definition overlong_wire : Wire :=
  mkWire
    [ line_edge (mkVector 2 0 0) (mkVector 5 0 4) (pow2 1100) ]
    1
    (mkBoundBox 2 5 0 0 0 4).

(** The base class, whose [build_profile] is not overridden. *)
Definition base_variant : Thread.Variant :=
  {| Thread.build_profile := Thread.base_build_profile |}.

(** A thread whose profile is flat. *)
Definition flat_variant : Thread.Variant :=
  {| Thread.build_profile := fun _ => Ok (Workplane (ValWire flat_wire)) |}.

(** A plain translation. *)
Definition shifted_frame : CoordSystem.t := translation (mkVector 1 0 0).


(** * Properties *)

(** ** Arithmetic of the runtime *)

Lemma inject_Z_nonzero (z : Z) : z <> 0%Z -> ~ inject_Z z == 0.
Proof. unfold Qeq. simpl. lia. Qed.

Lemma py_div_ok (a b : Q) : ~ b == 0 -> py_div a b = Ok (a / b).
Proof.
  intros Hb. unfold py_div.
  destruct (Qeq_bool b 0) eqn:E; [ | reflexivity ].
  apply Qeq_bool_iff in E. contradiction.
Qed.

Lemma py_div_zero (a b : Q) : b == 0 -> py_div a b = Err ZeroDivisionError.
Proof.
  intros Hb. unfold py_div. apply Qeq_bool_iff in Hb. now rewrite Hb.
Qed.

(** Rounding moves a number by at most one half. *)
Lemma round_half_spec (py : PyVersion) (x : Q) :
  x - (1 # 2) <= inject_Z (round_half py x) <= x + (1 # 2).
Proof.
  destruct py; unfold round_half.
  - destruct (Qle_bool 0 x).
    + pose proof (Qfloor_le (x + (1 # 2))) as H1.
      pose proof (Qlt_floor (x + (1 # 2))) as H2.
      rewrite inject_Z_plus in H2. change (inject_Z 1) with 1 in H2. lra.
    + pose proof (Qle_ceiling (x - (1 # 2))) as H1.
      pose proof (Qceiling_lt (x - (1 # 2))) as H2.
      unfold Z.sub in H2. rewrite inject_Z_plus in H2.
      change (inject_Z (- (1))) with (- (1)) in H2. lra.
  - pose proof (Qfloor_le x) as H1. pose proof (Qlt_floor x) as H2.
    rewrite inject_Z_plus in H2. change (inject_Z 1) with 1 in H2.
    destruct (Qcompare_spec (x - inject_Z (Qfloor x)) (1 # 2));
      [ destruct (Z.even (Qfloor x)) | | ];
      rewrite ?inject_Z_plus; change (inject_Z 1) with 1; lra.
Qed.

Lemma round_half_nonneg (py : PyVersion) (x : Q) :
  0 <= x -> (0 <= round_half py x)%Z.
Proof.
  intros Hx.
  assert (Hf : forall y, 0 <= y -> (0 <= Qfloor y)%Z).
  { intros y Hy. change 0%Z with (Qfloor 0). now apply Qfloor_resp_le. }
  destruct py; unfold round_half.
  - destruct (Qle_bool 0 x) eqn:E.
    + apply Hf. lra.
    + rewrite <- Bool.not_true_iff_false, Qle_bool_iff in E. contradiction.
  - pose proof (Hf x Hx).
    destruct (Qcompare _ _); [ destruct (Z.even _) | | ]; lia.
Qed.

(** [round(x, 7)] is within half a unit of the seventh decimal of [x]. *)
Lemma py_round_spec (py : PyVersion) (x : Q) :
  x - (1 # 20000000) <= py_round py x 7 <= x + (1 # 20000000).
Proof.
  unfold py_round.
  pose proof (round_half_spec py (x * inject_Z (pow10 7))) as H.
  change (inject_Z (pow10 7)) with 10000000 in *.
  set (k := inject_Z (round_half py (x * 10000000))) in *.
  split.
  - apply Qle_shift_div_l; lra.
  - apply Qle_shift_div_r; lra.
Qed.

Lemma py_round_nonneg (py : PyVersion) (x : Q) :
  0 <= x -> 0 <= py_round py x 7.
Proof.
  intros Hx. unfold py_round.
  change (inject_Z (pow10 7)) with 10000000.
  apply Qle_shift_div_l; [ lra | ].
  assert (H : (0 <= round_half py (x * 10000000))%Z)
    by (apply round_half_nonneg; lra).
  rewrite Zle_Qle in H. change (inject_Z 0) with 0 in H. lra.
Qed.

(** ** Floats *)

Lemma pow2_pos (k : Z) : 0 < pow2 k.
Proof. apply Qpower_0_lt. reflexivity. Qed.

Lemma pow2_plus (a b : Z) : pow2 (a + b) == pow2 a * pow2 b.
Proof. apply Qpower_plus. discriminate. Qed.

Lemma pow2_minus (a b : Z) : pow2 (a - b) == pow2 a / pow2 b.
Proof. apply Qpower_minus. discriminate. Qed.

Lemma pow2_Z (k : Z) : (0 <= k)%Z -> pow2 k == inject_Z (2 ^ k).
Proof. intros Hk. unfold pow2. now rewrite Zpower_Qpower. Qed.

Lemma pow2_half (k : Z) : pow2 k * (1 # 2) == pow2 (k - 1).
Proof. rewrite pow2_minus. change (pow2 1) with 2. field. Qed.

(** [Qlog2 x] is not above the binary logarithm of [x]. *)
Lemma Qlog2_le (x : Q) : 0 < x -> pow2 (Qlog2 x) <= x.
Proof.
  intros Hx. unfold Qlog2.
  set (e := (Z.log2 (Qnum x) - Z.log2 (Z.pos (Qden x)))%Z).
  destruct (Qle_bool (pow2 e) x) eqn:E; [ now apply Qle_bool_iff | ].
  destruct x as [n d]. cbn [Qnum Qden] in *.
  assert (Hn : (0 < n)%Z) by (unfold Qlt in Hx; simpl in Hx; lia).
  pose proof (Z.log2_spec n Hn) as [Hn1 _].
  pose proof (Z.log2_spec (Z.pos d) (Pos2Z.is_pos d)) as [_ Hd2].
  pose proof (Z.log2_nonneg n) as Ln.
  pose proof (Z.log2_nonneg (Z.pos d)) as Ld.
  replace (e - 1)%Z with (Z.log2 n - Z.succ (Z.log2 (Z.pos d)))%Z
    by (subst e; lia).
  rewrite pow2_minus, !pow2_Z by lia.
  assert (Hp : 0 < inject_Z (2 ^ Z.succ (Z.log2 (Z.pos d)))).
  { change 0 with (inject_Z 0). rewrite <- Zlt_Qlt. lia. }
  apply Qle_shift_div_r; [ exact Hp | ].
  unfold Qle, Qmult, inject_Z. cbn [Qnum Qden].
  rewrite !Z.mul_1_r, Pos.mul_1_r.
  apply Z.mul_le_mono_nonneg; lia.
Qed.

Lemma Qabs_nonneg_eq (x : Q) : 0 <= x -> Qabs x = x.
Proof.
  destruct x as [n d]. unfold Qle, Qabs. simpl. intros H.
  rewrite Z.abs_eq by lia. reflexivity.
Qed.

(** One unit in the last place is at most [2^-52] of the number, or
    [2^-1074]. *)
Lemma ulp_le (x : Q) :
  0 < x ->
  pow2 (Z.max (Qlog2 x - 52) (-1074)) <= x * pow2 (-52) + pow2 (-1074).
Proof.
  intros Hx. pose proof (Qlog2_le x Hx) as Hl.
  pose proof (pow2_pos (-52)) as H52. pose proof (pow2_pos (-1074)) as H1074.
  destruct (Z.max_spec (Qlog2 x - 52) (-1074)) as [[_ ->] | [_ ->]].
  - set (t := pow2 (-1074)) in *. set (s := pow2 (-52)) in *. nra.
  - replace (Qlog2 x - 52)%Z with (Qlog2 x + - 52)%Z by lia.
    rewrite pow2_plus.
    set (t := pow2 (-1074)) in *. set (s := pow2 (-52)) in *.
    set (l := pow2 (Qlog2 x)) in *. nra.
Qed.

Lemma fl_zero (x : Q) : x == 0 -> fl x = 0.
Proof. intros E. unfold fl. apply Qeq_bool_iff in E. now rewrite E. Qed.

(** Rounding to a float moves a number that is not negative by at most
    [2^-53] of it, or [2^-1075], and does not make it negative. *)
Lemma fl_error (x : Q) :
  0 <= x ->
  0 <= fl x /\
  x - (x * pow2 (-53) + pow2 (-1075)) <= fl x /\
  fl x <= x + (x * pow2 (-53) + pow2 (-1075)).
Proof.
  intros Hx. unfold fl.
  pose proof (pow2_pos (-53)) as H53. pose proof (pow2_pos (-1075)) as H1075.
  destruct (Qeq_bool x 0) eqn:E.
  - apply Qeq_bool_iff in E.
    set (t := pow2 (-1075)) in *. set (s := pow2 (-53)) in *.
    repeat split; nra.
  - apply Qeq_bool_neq in E. assert (Hpos : 0 < x) by lra.
    rewrite (Qabs_nonneg_eq x Hx).
    pose proof (ulp_le x Hpos) as Hu.
    set (q := Z.max (Qlog2 x - 52) (-1074)) in *.
    pose proof (pow2_pos q) as Hq.
    pose proof (round_half_spec Py3 (x / pow2 q)) as [R1 R2].
    assert (R0 : (0 <= round_half Py3 (x / pow2 q))%Z).
    { apply round_half_nonneg. apply Qle_shift_div_l; lra. }
    rewrite Zle_Qle in R0. change (inject_Z 0) with 0 in R0.
    set (m := inject_Z (round_half Py3 (x / pow2 q))) in *.
    assert (Hx' : x / pow2 q * pow2 q == x) by (field; lra).
    assert (E53 : pow2 (-53) == pow2 (-52) * (1 # 2))
      by (change (-53)%Z with (-52 - 1)%Z; now rewrite pow2_half).
    assert (E1075 : pow2 (-1075) == pow2 (-1074) * (1 # 2))
      by (change (-1075)%Z with (-1074 - 1)%Z; now rewrite pow2_half).
    set (t := pow2 (-1074)) in *. set (s := pow2 (-52)) in *.
    set (t' := pow2 (-1075)) in *. set (s' := pow2 (-53)) in *.
    set (p := pow2 q) in *. set (y := x / p) in *.
    repeat split; nra.
Qed.

(** The error of a rounding, in decimals. *)
Lemma fl_near (x : Q) :
  0 <= x ->
  0 <= fl x /\
  x - (x * (1 # 1000000000000000) + (1 # 1000000000000000)) <= fl x /\
  fl x <= x + (x * (1 # 1000000000000000) + (1 # 1000000000000000)).
Proof.
  intros Hx. destruct (fl_error x Hx) as (H0 & H1 & H2).
  assert (S : pow2 (-53) <= 1 # 1000000000000000)
    by (vm_compute; discriminate).
  assert (T : pow2 (-1075) <= 1 # 1000000000000000)
    by (vm_compute; discriminate).
  set (t := pow2 (-1075)) in *. set (s := pow2 (-53)) in *.
  repeat split; nra.
Qed.

(** A number that is not negative and at most [2^1023] stands for a finite
    float. *)
Lemma to_float_finite (x : Q) :
  0 <= x -> x <= pow2 1023 -> to_float x = Finite (fl x).
Proof.
  intros H0 H1. unfold to_float.
  destruct (fl_near x H0) as (F0 & _ & F2).
  rewrite (Qabs_nonneg_eq _ F0).
  destruct (Qle_bool (pow2 1024) (fl x)) eqn:E; [ | reflexivity ].
  apply Qle_bool_iff in E. exfalso.
  assert (P : pow2 1024 == 2 * pow2 1023)
    by (change 1024%Z with (1 + 1023)%Z; rewrite pow2_plus; reflexivity).
  assert (P1 : 1 <= pow2 1023)
    by (apply (Qpower_1_le 2 1023); [ lra | lia ]).
  set (a := pow2 1023) in *. set (b := pow2 1024) in *. nra.
Qed.

(** Known floats: the decimals 0.1, 0.28 and 1/3, the integers next to
    [2^53], where the spacing is 2, and the subnormal numbers, where it is
    [2^-1074]; ties go to the even significand. *)
Lemma fl_examples :
  fl (1 # 10) == 3602879701896397 # 36028797018963968 /\
  fl (28 # 100) == 1261007895663739 # 4503599627370496 /\
  fl (1 # 3) == 6004799503160661 # 18014398509481984 /\
  fl (inject_Z (2 ^ 53 + 1)) == inject_Z (2 ^ 53) /\
  fl (inject_Z (2 ^ 53 + 3)) == inject_Z (2 ^ 53 + 4) /\
  fl ((3 # 2) * pow2 (-1074)) == 2 * pow2 (-1074) /\
  fl ((5 # 2) * pow2 (-1074)) == 2 * pow2 (-1074) /\
  fl ((1 # 2) * pow2 (-1074)) == 0 /\
  to_float (pow2 1024 - pow2 970) = Infinity false.
Proof. repeat split; vm_compute; reflexivity. Qed.

(** Rounding to the nearest integer keeps the order. *)
Lemma round_half_mono (x y : Q) :
  x <= y -> (round_half Py3 x <= round_half Py3 y)%Z.
Proof.
  intros Hxy. unfold round_half.
  pose proof (Qfloor_resp_le _ _ Hxy) as Hf.
  pose proof (Qfloor_le x) as X1. pose proof (Qlt_floor x) as X2.
  pose proof (Qfloor_le y) as Y1. pose proof (Qlt_floor y) as Y2.
  rewrite inject_Z_plus in X2, Y2. change (inject_Z 1) with 1 in X2, Y2.
  set (f := Qfloor x) in *. set (g := Qfloor y) in *.
  clearbody f g.
  destruct (Z.eq_dec f g) as [E | N].
  - rewrite <- E in *.
    destruct (Qcompare_spec (x - inject_Z f) (1 # 2)) as [Ex | Lx | Gx];
    destruct (Qcompare_spec (y - inject_Z f) (1 # 2)) as [Ey | Ly | Gy].
    all: try (destruct (Z.even f); lia).
    all: exfalso; set (a := inject_Z f) in *; clearbody a; lra.
  - assert (Hlt : (f + 1 <= g)%Z) by lia.
    assert (A : (match Qcompare (x - inject_Z f) (1 # 2) with
                 | Lt => f | Gt => f + 1 | Eq => if Z.even f then f else f + 1
                 end <= f + 1)%Z).
    { destruct (Qcompare (x - inject_Z f) (1 # 2));
        [ destruct (Z.even f) | | ]; lia. }
    assert (B : (g <= match Qcompare (y - inject_Z g) (1 # 2) with
                 | Lt => g | Gt => g + 1 | Eq => if Z.even g then g else g + 1
                 end)%Z).
    { destruct (Qcompare (y - inject_Z g) (1 # 2));
        [ destruct (Z.even g) | | ]; lia. }
    lia.
Qed.

Lemma round_half_int (k : Z) : round_half Py3 (inject_Z k) = k.
Proof.
  unfold round_half. rewrite Qfloor_Z.
  destruct (Qcompare_spec (inject_Z k - inject_Z k) (1 # 2)) as [E | L | G].
  - exfalso. set (a := inject_Z k) in *. lra.
  - reflexivity.
  - exfalso. set (a := inject_Z k) in *. lra.
Qed.

(** [Qlog2 x] is the integer part of the binary logarithm of [x]. *)
Lemma Qlog2_lt (x : Q) : 0 < x -> x < pow2 (Qlog2 x + 1).
Proof.
  intros Hx. unfold Qlog2.
  set (e := (Z.log2 (Qnum x) - Z.log2 (Z.pos (Qden x)))%Z).
  destruct (Qle_bool (pow2 e) x) eqn:E.
  - destruct x as [n d]. cbn [Qnum Qden] in *.
    assert (Hn : (0 < n)%Z) by (unfold Qlt in Hx; simpl in Hx; lia).
    pose proof (Z.log2_spec n Hn) as [_ Hn2].
    pose proof (Z.log2_spec (Z.pos d) (Pos2Z.is_pos d)) as [Hd1 _].
    pose proof (Z.log2_nonneg n) as Ln.
    pose proof (Z.log2_nonneg (Z.pos d)) as Ld.
    replace (e + 1)%Z with (Z.succ (Z.log2 n) - Z.log2 (Z.pos d))%Z
      by (subst e; lia).
    rewrite pow2_minus, !pow2_Z by lia.
    assert (Hp : 0 < inject_Z (2 ^ Z.log2 (Z.pos d))).
    { change 0 with (inject_Z 0). rewrite <- Zlt_Qlt. lia. }
    apply Qlt_shift_div_l; [ exact Hp | ].
    unfold Qlt, Qmult, inject_Z. cbn [Qnum Qden].
    rewrite !Z.mul_1_r, Pos.mul_1_r.
    apply Z.le_lt_trans with (n * Z.pos d)%Z.
    + apply Z.mul_le_mono_nonneg_l; lia.
    + apply Z.mul_lt_mono_pos_r; lia.
  - replace (e - 1 + 1)%Z with e by lia.
    apply Qnot_le_lt. intros H. apply Qle_bool_iff in H. congruence.
Qed.

Lemma pow2_le (a b : Z) : (a <= b)%Z -> pow2 a <= pow2 b.
Proof. intros H. apply Qpower_le_compat_l; [ exact H | discriminate ]. Qed.

Lemma pow2_lt_inv (a b : Z) : pow2 a < pow2 b -> (a < b)%Z.
Proof.
  intros H. destruct (Z_lt_le_dec a b) as [L | G]; [ exact L | ].
  pose proof (pow2_le b a G). lra.
Qed.

Lemma Qlog2_mono (x y : Q) : 0 < x -> x <= y -> (Qlog2 x <= Qlog2 y)%Z.
Proof.
  intros Hx Hxy.
  pose proof (Qlog2_le x Hx) as A.
  pose proof (Qlog2_lt y) as B.
  assert (C : pow2 (Qlog2 x) < pow2 (Qlog2 y + 1)) by (specialize (B ltac:(lra)); lra).
  apply pow2_lt_inv in C. lia.
Qed.

(** The significand of a positive number has at most 53 bits. *)
Lemma significand_le (x : Q) :
  0 < x ->
  let q := Z.max (Qlog2 x - 52) (-1074) in
  (round_half Py3 (x / pow2 q) <= 2 ^ 53)%Z.
Proof.
  intros Hx q.
  pose proof (pow2_pos q) as Hq.
  pose proof (Qlog2_lt x Hx) as Hl.
  assert (Hle : pow2 (Qlog2 x + 1) <= pow2 (q + 53))
    by (apply pow2_le; subst q; lia).
  assert (E : pow2 (q + 53) == pow2 q * inject_Z (2 ^ 53)).
  { rewrite pow2_plus. now rewrite (pow2_Z 53) by lia. }
  rewrite <- (round_half_int (2 ^ 53)).
  apply round_half_mono.
  apply Qle_shift_div_r; [ exact Hq | ].
  set (a := pow2 (Qlog2 x + 1)) in *. set (b := pow2 (q + 53)) in *.
  set (p := pow2 q) in *. set (m := inject_Z (2 ^ 53)) in *. lra.
Qed.

(** A normal number has a significand of at least 53 bits. *)
Lemma significand_ge (x : Q) :
  0 < x -> (-1074 <= Qlog2 x - 52)%Z ->
  (2 ^ 52 <= round_half Py3 (x / pow2 (Qlog2 x - 52)))%Z.
Proof.
  intros Hx Hn.
  pose proof (pow2_pos (Qlog2 x - 52)) as Hq.
  pose proof (Qlog2_le x Hx) as Hl.
  assert (E : pow2 (Qlog2 x) == pow2 (Qlog2 x - 52) * inject_Z (2 ^ 52)).
  { replace (Qlog2 x) with (Qlog2 x - 52 + 52)%Z at 1 by lia.
    rewrite pow2_plus. now rewrite (pow2_Z 52) by lia. }
  rewrite <- (round_half_int (2 ^ 52)) at 1.
  apply round_half_mono.
  apply Qle_shift_div_l; [ exact Hq | ].
  set (a := pow2 (Qlog2 x)) in *.
  set (p := pow2 (Qlog2 x - 52)) in *. set (m := inject_Z (2 ^ 52)) in *. lra.
Qed.

(** Rounding to a float keeps the order. *)
Lemma fl_mono (x y : Q) : 0 <= x -> x <= y -> fl x <= fl y.
Proof.
  intros Hx Hxy.
  assert (Hy : 0 <= y) by lra.
  destruct (Qeq_dec x 0) as [E | N].
  { rewrite (fl_zero x E). apply (fl_error y Hy). }
  assert (Hx0 : 0 < x) by lra. assert (Hy0 : 0 < y) by lra.
  unfold fl.
  replace (Qeq_bool x 0) with false
    by (symmetry; apply not_true_is_false; intros T;
        apply Qeq_bool_iff in T; contradiction).
  replace (Qeq_bool y 0) with false
    by (symmetry; apply not_true_is_false; intros T;
        apply Qeq_bool_iff in T; lra).
  rewrite (Qabs_nonneg_eq x Hx), (Qabs_nonneg_eq y Hy).
  pose proof (Qlog2_mono x y Hx0 Hxy) as HL.
  pose proof (significand_le x Hx0) as Sx. cbv zeta in Sx.
  set (qx := Z.max (Qlog2 x - 52) (-1074)) in *.
  set (qy := Z.max (Qlog2 y - 52) (-1074)) in *.
  pose proof (pow2_pos qx) as Px. pose proof (pow2_pos qy) as Py.
  destruct (Z.eq_dec qx qy) as [Eq | Nq].
  - rewrite <- Eq in *.
    apply Qmult_le_compat_r; [ | lra ].
    rewrite <- Zle_Qle. apply round_half_mono.
    apply Qle_shift_div_l; [ exact Px | ].
    setoid_replace (x / pow2 qx * pow2 qx) with x by (field; lra). exact Hxy.
  - assert (Hqy : qy = (Qlog2 y - 52)%Z) by (subst qx qy; lia).
    assert (Hn : (-1074 <= Qlog2 y - 52)%Z) by (subst qx qy; lia).
    pose proof (significand_ge y Hy0 Hn) as Sy. rewrite <- Hqy in Sy.
    assert (Hq : (qx + 1 <= qy)%Z) by (subst qx qy; lia).
    rewrite Zle_Qle in Sx, Sy.
    assert (E : pow2 qy == pow2 (qy - qx - 1) * 2 * pow2 qx).
    { replace qy with ((qy - qx - 1) + 1 + qx)%Z at 1 by lia.
      rewrite !pow2_plus. reflexivity. }
    assert (G : 1 <= pow2 (qy - qx - 1)).
    { change 1 with (pow2 0). apply pow2_le. lia. }
    assert (T : inject_Z (2 ^ 53) == 2 * inject_Z (2 ^ 52)) by reflexivity.
    set (mx := inject_Z (round_half Py3 (x / pow2 qx))) in *.
    set (my := inject_Z (round_half Py3 (y / pow2 qy))) in *.
    set (a := inject_Z (2 ^ 53)) in *. set (b := inject_Z (2 ^ 52)) in *.
    set (px := pow2 qx) in *. set (py := pow2 qy) in *.
    set (g := pow2 (qy - qx - 1)) in *.
    assert (Hb : 0 < b) by (subst b; reflexivity).
    apply Qle_trans with (a * px); [ nra | ].
    apply Qle_trans with (b * py); [ | nra ].
    rewrite E, T.
    assert (Hc : 0 <= b * px) by nra.
    setoid_replace (2 * b * px) with (2 * (b * px)) by ring.
    setoid_replace (b * (g * 2 * px)) with (2 * (b * px) * g) by ring.
    set (c := b * px) in *. nra.
Qed.

Lemma round_half_compat (x y : Q) :
  x == y -> round_half Py3 x = round_half Py3 y.
Proof.
  intros E. apply Z.le_antisymm; apply round_half_mono; rewrite E; apply Qle_refl.
Qed.

(** An integer of at most 53 bits is a float. *)
Lemma fl_int (B : Z) : (0 <= B <= 2 ^ 53)%Z -> fl (inject_Z B) == inject_Z B.
Proof.
  intros [H0 H1].
  destruct (Z.eq_dec B 0) as [-> | N0]; [ reflexivity | ].
  destruct (Z.eq_dec B (2 ^ 53)) as [-> | N1]; [ vm_compute; reflexivity | ].
  assert (Hx : 0 < inject_Z B).
  { change 0 with (inject_Z 0). rewrite <- Zlt_Qlt. lia. }
  pose proof (Qlog2_le _ Hx) as L1. pose proof (Qlog2_lt _ Hx) as L2.
  assert (A : pow2 0 < pow2 (Qlog2 (inject_Z B) + 1)).
  { apply Qle_lt_trans with (inject_Z B); [ | exact L2 ].
    change (pow2 0) with (inject_Z 1). rewrite <- Zle_Qle. lia. }
  assert (C : pow2 (Qlog2 (inject_Z B)) < pow2 53).
  { apply Qle_lt_trans with (inject_Z B); [ exact L1 | ].
    rewrite (pow2_Z 53) by lia. rewrite <- Zlt_Qlt. lia. }
  apply pow2_lt_inv in A, C.
  unfold fl.
  replace (Qeq_bool (inject_Z B) 0) with false
    by (symmetry; apply not_true_is_false; intros T;
        apply Qeq_bool_iff in T; lra).
  rewrite (Qabs_nonneg_eq (inject_Z B)) by lra.
  set (L := Qlog2 (inject_Z B)) in *.
  replace (Z.max (L - 52) (-1074)) with (0 - (52 - L))%Z by lia.
  assert (P : pow2 (0 - (52 - L)) == 1 / inject_Z (2 ^ (52 - L))).
  { rewrite pow2_minus, (pow2_Z (52 - L)) by lia. reflexivity. }
  assert (K : 0 < inject_Z (2 ^ (52 - L))).
  { change 0 with (inject_Z 0). rewrite <- Zlt_Qlt. lia. }
  assert (E : inject_Z B / pow2 (0 - (52 - L))
              == inject_Z (B * 2 ^ (52 - L))).
  { rewrite P, inject_Z_mult. field. lra. }
  rewrite (round_half_compat _ _ E), round_half_int, P, inject_Z_mult.
  field. lra.
Qed.

(** ** Vertex counts for a budget *)

(** The largest budget considered; no operation overflows below it. *)
Lemma budget_in_range (B : Z) :
  (0 <= B <= 10 ^ 300)%Z ->
  0 <= inject_Z B /\ 2 * inject_Z B + 4 <= pow2 1023.
Proof.
  intros [HB HB'].
  rewrite Zle_Qle in HB, HB'. change (inject_Z 0) with 0 in HB.
  assert (P : 2 * inject_Z (10 ^ 300) + 4 <= pow2 1023)
    by (vm_compute; discriminate).
  set (m := inject_Z (10 ^ 300)) in *. split; lra.
Qed.

(** What the code computes for one edge whose share [u] of the length is
    between 0 and 1, and how far the count is from the share of the
    budget. *)
Lemma count_bounds (py : PyVersion) (u : Q) (B : Z) :
  0 <= u <= 1 -> (0 <= B <= 10 ^ 300)%Z ->
  let c := Qceiling (fl (fl (py_round py (fl u) 7) * fl (inject_Z B))) in
  (budget <- float_of_int B ;;
   int_ceil (float_mul (float_round py (to_float u) 7) budget)) = Ok c /\
  (0 <= c)%Z /\
  (u - (1 # 10000000)) * inject_Z B <= inject_Z c /\
  inject_Z c < (u + (1 # 10000000)) * inject_Z B + 1.
Proof.
  intros [Hu0 Hu1] HB c.
  destruct (budget_in_range B HB) as (HB0 & HBmax).
  assert (P1 : 4 <= pow2 1023) by lra.
  (* the share *)
  destruct (fl_near u Hu0) as (Q0 & Q1 & Q2).
  (* the share rounded to seven decimals *)
  pose proof (py_round_spec py (fl u)) as [K1 K2].
  pose proof (py_round_nonneg py (fl u) Q0) as K0.
  (* as a float *)
  destruct (fl_near _ K0) as (R0 & R1 & R2).
  (* the budget as a float *)
  destruct (fl_near _ HB0) as (B0 & B1 & B2).
  (* the product *)
  assert (M0 : 0 <= fl (py_round py (fl u) 7) * fl (inject_Z B))
    by (apply Qmult_le_0_compat; assumption).
  destruct (fl_near _ M0) as (P0 & P1' & P2).
  assert (Fq : to_float u = Finite (fl u))
    by (apply to_float_finite; lra).
  assert (Fr : to_float (py_round py (fl u) 7)
               = Finite (fl (py_round py (fl u) 7)))
    by (apply to_float_finite; lra).
  assert (Fb : to_float (inject_Z B) = Finite (fl (inject_Z B)))
    by (apply to_float_finite; lra).
  assert (Hrun : forall Fp : to_float (fl (py_round py (fl u) 7)
                                       * fl (inject_Z B))
                             = Finite (fl (fl (py_round py (fl u) 7)
                                           * fl (inject_Z B))),
            (budget <- float_of_int B ;;
             int_ceil (float_mul (float_round py (to_float u) 7) budget))
            = Ok c).
  { intros Fp. unfold float_of_int. rewrite Fb. cbn [bind].
    rewrite Fq. cbn [float_round]. rewrite Fr.
    cbn [float_mul]. rewrite Fp. reflexivity. }
  set (q := fl u) in *.
  set (k := py_round py q 7) in *.
  set (r := fl k) in *.
  set (b := fl (inject_Z B)) in *.
  set (m := inject_Z B) in *.
  assert (Hr : u - (51 # 1000000000) <= r <= u + (51 # 1000000000)) by lra.
  assert (Hr2 : 0 <= r <= 2) by lra.
  assert (Hb : m - (m * (1 # 1000000000000000) + (1 # 1000000000000000)) <= b
               <= m + (m * (1 # 1000000000000000) + (1 # 1000000000000000)))
    by lra.
  assert (Hrb : r * b <= 2 * m + 1) by nra.
  assert (Fp : to_float (r * b) = Finite (fl (r * b)))
    by (apply to_float_finite; lra).
  split; [ | split; [ | split ] ].
  - apply Hrun, Fp.
  - subst c. change 0%Z with (Qceiling 0). apply Qceiling_resp_le. exact P0.
  - subst c. pose proof (Qle_ceiling (fl (r * b))) as C1.
    set (p := fl (r * b)) in *.
    apply Qle_trans with p; [ | exact C1 ].
    destruct (Z.eq_dec B 0) as [-> | HBne].
    + subst m. change (inject_Z 0) with 0. lra.
    + assert (Hm1 : 1 <= m).
      { subst m. change 1 with (inject_Z 1). rewrite <- Zle_Qle. lia. }
      assert (Hrb' : (u - (51 # 1000000000)) * (m - m * (2 # 1000000000000000))
                     <= r * b \/ u <= 51 # 1000000000).
      { destruct (Qlt_le_dec (51 # 1000000000) u) as [Hlt | Hle];
          [ left | now right ].
        apply Qle_trans with ((u - (51 # 1000000000)) * b).
        - apply Qmult_le_compat_nonneg; split; lra.
        - apply Qmult_le_compat_r; lra. }
      destruct Hrb' as [Hrb' | Hsmall]; nra.
  - subst c. pose proof (Qceiling_lt (fl (r * b))) as C2.
    unfold Z.sub in C2. rewrite inject_Z_plus in C2.
    change (inject_Z (- (1))) with (- (1)) in C2.
    set (p := fl (r * b)) in *.
    set (cc := inject_Z (Qceiling p)) in *.
    destruct (Z.eq_dec B 0) as [-> | HBne].
    + assert (Ep : p = 0).
      { subst p. apply fl_zero. subst b m.
        rewrite (fl_zero (inject_Z 0)) by reflexivity. ring. }
      subst m. change (inject_Z 0) with 0. rewrite Ep in C2. lra.
    + assert (Hm1 : 1 <= m).
      { subst m. change 1 with (inject_Z 1). rewrite <- Zle_Qle. lia. }
      assert (Hrb' : r * b
                     <= (u + (51 # 1000000000))
                        * (m + m * (2 # 1000000000000000))).
      { apply Qle_trans with ((u + (51 # 1000000000)) * b).
        - apply Qmult_le_compat_r; lra.
        - apply Qmult_le_compat_nonneg; split; lra. }
      nra.
Qed.

Lemma vertices_count_int_eq (py : PyVersion) (w : Wire) (B : Z) :
  0 < wire_Length w ->
  Forall (fun e => 0 <= Length e <= wire_Length w) (Edges w) ->
  (0 <= B <= 10 ^ 300)%Z ->
  vertices_count_int py w B = Ok (map (count_of py (wire_Length w) B) (Edges w)).
Proof.
  intros HL Hes HB. unfold vertices_count_int.
  assert (E : Qeq_bool (wire_Length w) 0 = false).
  { destruct (Qeq_bool (wire_Length w) 0) eqn:E; [ | reflexivity ].
    apply Qeq_bool_iff in E. lra. }
  induction Hes as [|e es He Hes IH]; cbn [mapM map]; [ reflexivity | ].
  unfold float_div at 1. rewrite E. cbn [bind]. cbv zeta.
  assert (Hu : 0 <= Length e / wire_Length w <= 1).
  { split; [ apply Qle_shift_div_l | apply Qle_shift_div_r ]; lra. }
  destruct (count_bounds py _ B Hu HB) as (Hc & _).
  rewrite Hc. cbn [bind]. cbv zeta in IH. rewrite IH. reflexivity.
Qed.

Lemma sum_ratio (L : Q) (es : list Edge) :
  ~ L == 0 ->
  sum_Q (map (fun e => Length e / L) es) == total_length es / L.
Proof.
  intros HL. unfold total_length.
  induction es as [|e es IH]; simpl.
  - field. exact HL.
  - rewrite IH. field. exact HL.
Qed.

(** An edge is not longer than a wire whose length is the sum of the
    lengths of its edges. *)
Lemma length_le_total (es : list Edge) :
  Forall (fun e => 0 <= Length e) es ->
  0 <= total_length es /\
  Forall (fun e => 0 <= Length e <= total_length es) es.
Proof.
  unfold total_length.
  induction 1 as [|e es He Hes [IH0 IH]]; simpl.
  - split; [ lra | constructor ].
  - split; [ lra | ]. constructor; [ lra | ].
    apply Forall_forall. intros e' He'. rewrite Forall_forall in IH.
    specialize (IH e' He'). lra.
Qed.

Lemma sum_counts_bounds (py : PyVersion) (L : Q) (B : Z) (es : list Edge) :
  0 < L -> (0 <= B <= 10 ^ 300)%Z ->
  Forall (fun e => 0 <= Length e <= L) es ->
  let s := inject_Z (sum_Z (map (count_of py L B) es)) in
  let u := sum_Q (map (fun e => Length e / L) es) in
  let n := inject_Z (Z.of_nat (List.length es)) in
  (u - n * (1 # 10000000)) * inject_Z B <= s /\
  s <= (u + n * (1 # 10000000)) * inject_Z B + n /\
  (es <> [] -> s < (u + n * (1 # 10000000)) * inject_Z B + n).
Proof.
  intros HL HB Hes.
  assert (HB0 : 0 <= inject_Z B).
  { change 0 with (inject_Z 0). rewrite <- Zle_Qle. lia. }
  induction Hes as [|e es He Hes IH].
  - simpl. change (inject_Z 0) with 0. repeat split; try lra. congruence.
  - cbn zeta in *.
    assert (Hu : 0 <= Length e / L <= 1).
    { split; [ apply Qle_shift_div_l | apply Qle_shift_div_r ]; lra. }
    destruct (count_bounds py _ B Hu HB) as (_ & _ & Hlo & Hhi).
    destruct IH as (IHlo & IHhi & _).
    change (List.length (e :: es)) with (S (List.length es)).
    rewrite Nat2Z.inj_succ. unfold Z.succ.
    simpl map. simpl sum_Z. simpl sum_Q.
    rewrite !inject_Z_plus. change (inject_Z 1) with 1.
    fold (count_of py L B e) in Hlo, Hhi.
    set (c := inject_Z (count_of py L B e)) in *.
    set (s := inject_Z (sum_Z (map (count_of py L B) es))) in *.
    set (u := sum_Q (map (fun e0 => Length e0 / L) es)) in *.
    set (n := inject_Z (Z.of_nat (List.length es))) in *.
    set (b := inject_Z B) in *.
    set (x := Length e / L) in *.
    repeat split; intros; nra.
Qed.

(** C1 (amended).  For a profile wire whose edge lengths are not negative
    and sum to its length [L > 0], and an integer budget [0 <= B <= 10^300],
    the count resolved for edge [i] is [ceil(round(L_i / L, 7) * B)] as the
    floats of binary64 compute it, the quotient, the rounded share, the
    budget and the product each rounded to the nearest float; every count is
    [>= 0]; the sum of the counts differs from [B] by at most
    [n * (1 + B / 10^7)], hence by at most [n] when [n * B <= 10^7]. *)
Theorem vertices_count_budget (py : PyVersion) (wire : Wire) (B : Z) :
  0 < wire_Length wire ->
  wire_Length wire == total_length (Edges wire) ->
  Forall (fun e => 0 <= Length e) (Edges wire) ->
  (0 <= B <= 10 ^ 300)%Z ->
  exists counts,
    resolve_vertices_count py wire (MVInt B) = Ok counts /\
    counts = map (fun e =>
                    Qceiling
                      (fl (fl (py_round py
                                 (fl (Length e / wire_Length wire)) 7)
                           * fl (inject_Z B))))
                 (Edges wire) /\
    Forall (fun c => (0 <= c)%Z) counts /\
    let n := Z.of_nat (List.length (Edges wire)) in
    (10000000 * Z.abs (sum_Z counts - B) <= n * (B + 10000000))%Z /\
    ((n * B <= 10000000)%Z -> (Z.abs (sum_Z counts - B) <= n)%Z).
Proof.
  intros HL Hsum Hes HB.
  assert (HL0 : ~ wire_Length wire == 0) by lra.
  assert (Hes' : Forall (fun e => 0 <= Length e <= wire_Length wire)
                   (Edges wire)).
  { destruct (length_le_total _ Hes) as (_ & Ht).
    apply Forall_forall. intros e He. rewrite Forall_forall in Ht.
    specialize (Ht e He). lra. }
  exists (map (count_of py (wire_Length wire) B) (Edges wire)).
  split; [ | split; [ reflexivity | split ] ].
  - simpl. apply vertices_count_int_eq; assumption.
  - apply Forall_forall. intros c Hc. apply in_map_iff in Hc.
    destruct Hc as (e & <- & He).
    rewrite Forall_forall in Hes'. specialize (Hes' e He).
    apply (count_bounds py (Length e / wire_Length wire) B); [ | exact HB ].
    split; [ apply Qle_shift_div_l | apply Qle_shift_div_r ]; lra.
  - destruct (sum_counts_bounds py (wire_Length wire) B (Edges wire) HL HB Hes')
      as (Hlo & _ & Hhi).
    rewrite (sum_ratio (wire_Length wire) (Edges wire) HL0) in Hlo, Hhi.
    assert (Hone : total_length (Edges wire) / wire_Length wire == 1).
    { rewrite <- Hsum. field. exact HL0. }
    rewrite Hone in Hlo, Hhi.
    assert (Hne : Edges wire <> []).
    { intros E. rewrite E in Hsum. unfold total_length in Hsum.
      simpl in Hsum. lra. }
    specialize (Hhi Hne).
    set (S := sum_Z (map (count_of py (wire_Length wire) B) (Edges wire))) in *.
    assert (Hn : (1 <= Z.of_nat (List.length (Edges wire)))%Z).
    { destruct (Edges wire); [ congruence | simpl List.length; lia ]. }
    set (n := Z.of_nat (List.length (Edges wire))) in *.
    assert (ZLo : (10000000 * B - n * B <= 10000000 * S)%Z).
    { rewrite Zle_Qle.
      unfold Z.sub. rewrite inject_Z_plus, inject_Z_opp, !inject_Z_mult.
      change (inject_Z 10000000) with 10000000. lra. }
    assert (ZHi : (10000000 * S < 10000000 * B + n * B + 10000000 * n)%Z).
    { rewrite Zlt_Qlt.
      rewrite !inject_Z_plus, !inject_Z_mult.
      change (inject_Z 10000000) with 10000000. lra. }
    cbv zeta. split; [ | intros Hsmall ]; nia.
Qed.

(** The budget of 20 vertices on the example profile. *)
Lemma vertices_count_budget_witness :
  exists counts,
    resolve_vertices_count Py2 example_wire (MVInt 20) = Ok counts /\
    counts = map (fun e =>
                    Qceiling
                      (fl (fl (py_round Py2 (fl (Length e / 12)) 7)
                           * fl (inject_Z 20))))
                 (Edges example_wire) /\
    Forall (fun c => (0 <= c)%Z) counts /\
    let n := Z.of_nat (List.length (Edges example_wire)) in
    (10000000 * Z.abs (sum_Z counts - 20) <= n * (20 + 10000000))%Z /\
    ((n * 20 <= 10000000)%Z -> (Z.abs (sum_Z counts - 20) <= n)%Z).
Proof.
  apply (vertices_count_budget Py2 example_wire 20).
  - reflexivity.
  - reflexivity.
  - repeat constructor; discriminate.
  - split; [ discriminate | vm_compute; discriminate ].
Defined.

(** C1 as stated fails.  For a large budget the sum is far from it: three
    equal edges and a budget of [10^9] give three counts of 333333300,
    whose sum is 100 short of the budget, with [n = 3].  The count is not
    the exact value of the formula: for lengths 35 and 90 and a budget of
    50 the share of the first edge is 0.28, [0.28 * 50] is above 14 in
    floats, and the count is 15 where the exact formula gives 14.  A
    negative budget gives negative counts, and a budget that is too large
    for a float raises [OverflowError]. *)
Lemma vertices_count_sum_counterexample :
  0 < wire_Length thirds_wire /\
  wire_Length thirds_wire == total_length (Edges thirds_wire) /\
  resolve_vertices_count Py2 thirds_wire (MVInt 1000000000)
  = Ok [333333300; 333333300; 333333300]%Z /\
  resolve_vertices_count Py3 thirds_wire (MVInt 1000000000)
  = Ok [333333300; 333333300; 333333300]%Z /\
  ~ (Z.abs (sum_Z [333333300; 333333300; 333333300] - 1000000000)
     <= Z.of_nat (List.length (Edges thirds_wire)))%Z /\
  resolve_vertices_count Py3 uneven_wire (MVInt 50) = Ok [15; 36]%Z /\
  map (fun e => Qceiling (py_round Py3 (Length e / 125) 7 * inject_Z 50))
      (Edges uneven_wire) = [14; 36]%Z /\
  resolve_vertices_count Py2 thirds_wire (MVInt (-20))
  = Ok [-6; -6; -6]%Z /\
  resolve_vertices_count Py3 thirds_wire (MVInt (10 ^ 400))
  = Err OverflowError.
Proof.
  repeat split; try (vm_compute; reflexivity).
  vm_compute. intros H. apply H. reflexivity.
Qed.

(** ** The point transform *)

Section PointTransform.
Context {M : Math}.

Lemma transform_ok (lead : Q) (lefthand : bool) (v : Vector) :
  ~ lead == 0 ->
  transform lead lefthand v = Ok (polar_image lead lefthand v).
Proof.
  intros Hlead. unfold transform, get_xz, cart2polar, polar_image.
  rewrite (py_div_ok _ _ Hlead). now destruct lefthand.
Qed.

Lemma transform_zero_lead (lead : Q) (lefthand : bool) (v : Vector) :
  lead == 0 -> transform lead lefthand v = Err ZeroDivisionError.
Proof.
  intros Hlead. unfold transform, get_xz, cart2polar.
  now rewrite (py_div_zero _ _ Hlead).
Qed.

(** C3.  For a profile point [(x, z)] and [lead > 0], the transform takes
    radius [x] and angle [(z / lead) * 2 pi], negates the angle exactly when
    [lefthand] is false, and returns [(radius cos angle, radius sin angle)];
    the angle for [lefthand = False] is the negation of the angle for
    [lefthand = True]. *)
Theorem transform_polar (lead : Q) (v : Vector) :
  0 < lead ->
  let base := vz v / lead * (2 * pi) in
  (forall lefthand : bool,
     let angle := if lefthand then base else - base in
     cart2polar lead lefthand (vx v) (vz v) = Ok (vx v, angle) /\
     transform lead lefthand v = Ok (vx v * cos angle, vx v * sin angle)) /\
  (exists radius angle,
     cart2polar lead true (vx v) (vz v) = Ok (radius, angle) /\
     cart2polar lead false (vx v) (vz v) = Ok (radius, - angle)).
Proof.
  intros Hlead base.
  assert (H0 : ~ lead == 0) by lra.
  split.
  - intros lefthand angle. subst angle base.
    unfold transform, get_xz, cart2polar.
    rewrite (py_div_ok _ _ H0). now destruct lefthand.
  - exists (vx v), base. unfold cart2polar.
    rewrite (py_div_ok _ _ H0). split; reflexivity.
Qed.

End PointTransform.

(** The point at height 4 of a profile of lead 8. *)
Lemma transform_polar_witness :
  exists radius angle,
    cart2polar (H := rational_math) 8 true 5 4 = Ok (radius, angle) /\
    cart2polar (H := rational_math) 8 false 5 4 = Ok (radius, - angle).
Proof.
  apply (@transform_polar rational_math 8 (mkVector 5 0 4)).
  reflexivity.
Defined.

(** ** Validation of the arguments *)

(** C4.  [profile_to_cross_section] raises [TypeError] for a profile that is
    not a Workplane and for a [min_vertices] that is not an int, a list or
    a tuple, and [ValueError] for a list or tuple whose length is not the
    number of edges of the profile; each time before any sketch operation is
    issued. *)
Theorem validation_errors `{Math} (py : PyVersion) (profile : PyProfile)
  (lefthand : bool) (min_vertices : MinVertices) (wire : Wire) (l : list Z) :
  profile_to_cross_section py NotWorkplane lefthand min_vertices
  = Raised TypeError [] /\
  profile_to_cross_section py profile lefthand MVOther = Raised TypeError [] /\
  (List.length l <> List.length (Edges wire) ->
   profile_to_cross_section py (Workplane (ValWire wire)) lefthand (MVList l)
   = Raised ValueError [] /\
   profile_to_cross_section py (Workplane (ValWire wire)) lefthand (MVTuple l)
   = Raised ValueError []).
Proof.
  split; [ reflexivity | split ].
  - destruct profile; reflexivity.
  - intros Hlen. unfold profile_to_cross_section, resolve_vertices_count.
    destruct (Nat.eqb_spec (List.length l) (List.length (Edges wire)));
      [ contradiction | ].
    split; reflexivity.
Qed.

(** Three counts for the four edges of the example profile. *)
Lemma validation_errors_witness :
  profile_to_cross_section (H := rational_math) Py2
    (Workplane (ValWire example_wire)) false (MVList [5; 5; 5]%Z)
  = Raised ValueError [] /\
  profile_to_cross_section (H := rational_math) Py2
    (Workplane (ValWire example_wire)) false (MVTuple [5; 5; 5]%Z)
  = Raised ValueError [].
Proof.
  apply (@validation_errors rational_math Py2 NotWorkplane false MVOther
           example_wire [5; 5; 5]%Z).
  simpl. discriminate.
Defined.

(** ** The loop over the edges *)

Lemma mapM_ok {E A B : Type} (f : A -> result E B) (g : A -> B) (l : list A) :
  (forall a, In a l -> f a = Ok (g a)) -> mapM f l = Ok (map g l).
Proof.
  induction l as [|a l IH]; intros Hf; simpl; [ reflexivity | ].
  rewrite (Hf a (or_introl eq_refl)). simpl.
  rewrite IH by (intros; apply Hf; now right). reflexivity.
Qed.

Lemma mapM_length {E A B : Type} (f : A -> result E B) (l : list A)
  (bs : list B) :
  mapM f l = Ok bs -> List.length bs = List.length l.
Proof.
  revert bs. induction l as [|a l IH]; intros bs; simpl.
  - intros [= <-]. reflexivity.
  - destruct (f a); simpl; [ | discriminate ].
    destruct (mapM f l); simpl; [ | discriminate ].
    intros [= <-]. simpl. f_equal. now apply IH.
Qed.

Lemma range_length (n : Z) : List.length (range n) = Z.to_nat n.
Proof. unfold range. now rewrite length_map, length_seq. Qed.

Lemma range_nth (n j : Z) :
  (0 <= j < n)%Z -> nth_error (range n) (Z.to_nat j) = Some j.
Proof.
  intros Hj. unfold range.
  rewrite nth_error_map, nth_error_seq.
  destruct (Nat.ltb_spec (Z.to_nat j) (Z.to_nat n)); [ | lia ].
  simpl. f_equal. lia.
Qed.

Lemma resolve_length (py : PyVersion) (wire : Wire) (mv : MinVertices)
  (counts : list Z) :
  resolve_vertices_count py wire mv = Ok counts ->
  List.length counts = List.length (Edges wire).
Proof.
  destruct mv as [B | l | l | ]; simpl.
  - apply mapM_length.
  - destruct (Nat.eqb_spec (List.length l) (List.length (Edges wire)));
      simpl; [ now intros [= <-] | discriminate ].
  - destruct (Nat.eqb_spec (List.length l) (List.length (Edges wire)));
      simpl; [ now intros [= <-] | discriminate ].
  - discriminate.
Qed.

Lemma counts_cover (counts : list Z) (edges : list Edge) :
  List.length counts = List.length edges ->
  forall j, (j < List.length edges)%nat ->
  exists c, nth_error counts j = Some c.
Proof.
  intros Hlen j Hj.
  destruct (nth_error counts j) eqn:E; [ eauto | ].
  apply nth_error_None in E. lia.
Qed.

Section Loop.
Context {M : Math}.
Variables (lead : Q) (lefthand : bool).
Hypothesis Hlead : ~ lead == 0.

Lemma range_positive (n : Z) :
  (1 <= n)%Z -> exists rest, range n = 0%Z :: rest.
Proof.
  intros Hn. unfold range.
  destruct (Z.to_nat n) as [|k] eqn:E; [ lia | ].
  simpl. eauto.
Qed.

Lemma apply_spline_ok (edge : Edge) (vert_count : Z) :
  (1 <= vert_count)%Z ->
  apply_spline lead lefthand edge vert_count =
  Ok (Spline
        (map (fun j =>
                polar_image lead lefthand
                  (curve_value edge
                     (inject_Z (j + 1) * (span edge / inject_Z vert_count))))
             (range vert_count))).
Proof.
  intros Hvc1.
  assert (Hvc : ~ inject_Z vert_count == 0) by (apply inject_Z_nonzero; lia).
  destruct (range_positive vert_count Hvc1) as (rest & Hr).
  unfold apply_spline, span.
  destruct (String.eqb (geomType edge) "CIRCLE");
    rewrite (py_div_ok _ _ Hvc); cbn [bind];
    (erewrite mapM_ok; [ | intros; apply transform_ok, Hlead ]);
    cbn [bind]; rewrite Hr; reflexivity.
Qed.

(** With a negative count nothing is divided by zero, but the spline is
    given no point. *)
Lemma apply_spline_negative (edge : Edge) (vert_count : Z) :
  (vert_count < 0)%Z ->
  apply_spline lead lefthand edge vert_count = Err IndexError.
Proof.
  intros Hvc1.
  assert (Hvc : ~ inject_Z vert_count == 0) by (apply inject_Z_nonzero; lia).
  assert (Hr : range vert_count = []).
  { unfold range. now replace (Z.to_nat vert_count) with 0%nat by lia. }
  unfold apply_spline.
  destruct (String.eqb (geomType edge) "CIRCLE");
    rewrite (py_div_ok _ _ Hvc); cbn [bind]; rewrite Hr; reflexivity.
Qed.

Lemma apply_spline_zero (edge : Edge) :
  apply_spline lead lefthand edge 0 = Err ZeroDivisionError.
Proof.
  unfold apply_spline.
  destruct (String.eqb (geomType edge) "CIRCLE"); reflexivity.
Qed.

(** The three branches of the loop body, with the tests they pass. *)
Lemma dispatch_cases (edge : Edge) :
  (is_line edge /\ constant_x edge /\
   String.eqb (geomType edge) "LINE"
   && Qeq_bool (vx (startPoint edge)) (vx (endPoint edge)) = true) \/
  (is_line edge /\ ~ constant_x edge /\ constant_z edge /\
   String.eqb (geomType edge) "LINE"
   && Qeq_bool (vx (startPoint edge)) (vx (endPoint edge)) = false /\
   String.eqb (geomType edge) "LINE"
   && Qeq_bool (vz (startPoint edge)) (vz (endPoint edge)) = true) \/
  (to_spline edge /\
   String.eqb (geomType edge) "LINE"
   && Qeq_bool (vx (startPoint edge)) (vx (endPoint edge)) = false /\
   String.eqb (geomType edge) "LINE"
   && Qeq_bool (vz (startPoint edge)) (vz (endPoint edge)) = false).
Proof.
  unfold to_spline, is_line, constant_x, constant_z.
  destruct (String.eqb_spec (geomType edge) "LINE") as [E|E];
  (destruct (Qeq_bool (vx (startPoint edge)) (vx (endPoint edge))) eqn:Ex;
   [ apply Qeq_bool_iff in Ex | apply Qeq_bool_neq in Ex ]);
  (destruct (Qeq_bool (vz (startPoint edge)) (vz (endPoint edge))) eqn:Ez;
   [ apply Qeq_bool_iff in Ez | apply Qeq_bool_neq in Ez ]);
  simpl; intuition congruence.
Qed.

Lemma convert_edge_emits (vertices_count : list Z) (i : nat) (edge : Edge) :
  (to_spline edge ->
   exists c, nth_error vertices_count i = Some c /\ (1 <= c)%Z) ->
  exists op,
    convert_edge lead lefthand vertices_count i edge = Ok op /\
    emits lead lefthand vertices_count i edge op.
Proof.
  intros Hc. unfold convert_edge.
  destruct (dispatch_cases edge)
    as [(Hl & Hx & ->) | [(Hl & Hx & Hz & -> & ->) | (Hs & -> & ->)]].
  - unfold apply_arc. rewrite !(transform_ok _ _ _ Hlead). simpl.
    eexists; split; [ reflexivity | ].
    apply emits_arc; auto using transform_ok.
  - unfold apply_radial_line. rewrite (transform_ok _ _ _ Hlead). simpl.
    eexists; split; [ reflexivity | ].
    apply emits_line; auto using transform_ok.
  - destruct (Hc Hs) as (c & Hn & Hc1).
    unfold list_index. rewrite Hn. simpl.
    rewrite (apply_spline_ok _ _ Hc1).
    eexists; split; [ reflexivity | ].
    apply emits_spline with (vert_count := c); auto.
    + rewrite length_map, range_length. lia.
    + intros j Hj. eexists; split; [ | apply transform_ok, Hlead ].
      rewrite nth_error_map, (range_nth _ _ Hj). reflexivity.
Qed.

Lemma convert_edges_emits (vertices_count : list Z) (edges : list Edge) :
  forall (i : nat) (cs : list SketchOp),
  (forall k e, nth_error edges k = Some e -> to_spline e ->
     exists c, nth_error vertices_count (i + k) = Some c /\ (1 <= c)%Z) ->
  exists ops,
    convert_edges lead lefthand vertices_count i edges cs
    = Returned (cs ++ ops ++ [Close]) /\
    List.length ops = List.length edges /\
    forall k e, nth_error edges k = Some e ->
      exists op, nth_error ops k = Some op /\
                 emits lead lefthand vertices_count (i + k) e op.
Proof.
  induction edges as [|edge rest IH]; intros i cs Hc; simpl.
  - exists []. split; [ reflexivity | split; [ reflexivity | ] ].
    intros [|k] e; discriminate.
  - destruct (convert_edge_emits vertices_count i edge) as (op & Hop & Hem).
    { intros Hs. specialize (Hc 0%nat edge eq_refl Hs).
      now rewrite Nat.add_0_r in Hc. }
    rewrite Hop.
    destruct (IH (S i) (cs ++ [op])) as (ops & Hops & Hlen & Hnth).
    { intros k e Hk Hs. specialize (Hc (S k) e Hk Hs).
      now rewrite Nat.add_succ_r in Hc. }
    exists (op :: ops). split; [ | split ].
    + rewrite Hops, <- app_assoc. reflexivity.
    + simpl. now rewrite Hlen.
    + intros [|k] e Hk; simpl in Hk.
      * injection Hk as <-. exists op. rewrite Nat.add_0_r. now split.
      * destruct (Hnth k e Hk) as (op' & Hop' & Hem').
        exists op'. rewrite Nat.add_succ_r. now split.
Qed.

(** The loop body returns, or, in the spline branch, divides by a zero
    count or draws a spline without points for a negative count. *)
Lemma convert_edge_result (vertices_count : list Z) (i : nat) (edge : Edge)
  (c : Z) :
  nth_error vertices_count i = Some c ->
  (exists op, convert_edge lead lefthand vertices_count i edge = Ok op /\
              (to_spline edge -> (1 <= c)%Z)) \/
  (convert_edge lead lefthand vertices_count i edge = Err ZeroDivisionError /\
   to_spline edge /\ c = 0%Z) \/
  (convert_edge lead lefthand vertices_count i edge = Err IndexError /\
   to_spline edge /\ (c < 0)%Z).
Proof.
  intros Hn. unfold convert_edge.
  destruct (dispatch_cases edge)
    as [(Hl & Hx & ->) | [(Hl & Hx & Hz & -> & ->) | (Hs & -> & ->)]].
  - left. unfold apply_arc. rewrite !(transform_ok _ _ _ Hlead). simpl.
    eexists. split; [ reflexivity | ]. intros [Hs _]. tauto.
  - left. unfold apply_radial_line. rewrite (transform_ok _ _ _ Hlead).
    simpl. eexists. split; [ reflexivity | ]. intros [_ Hs]. tauto.
  - unfold list_index. rewrite Hn. simpl.
    destruct (Z.lt_trichotomy c 0) as [Hc | [-> | Hc]].
    + right. right. rewrite apply_spline_negative by exact Hc. auto.
    + right. left. rewrite apply_spline_zero. auto.
    + left. rewrite apply_spline_ok by lia.
      eexists. split; [ reflexivity | ]. intros _. lia.
Qed.

Lemma convert_edge_zero (vertices_count : list Z) (i : nat) (edge : Edge) :
  to_spline edge -> nth_error vertices_count i = Some 0%Z ->
  convert_edge lead lefthand vertices_count i edge = Err ZeroDivisionError.
Proof.
  intros Hs Hz. unfold convert_edge.
  destruct (dispatch_cases edge)
    as [(Hl & Hx & _) | [(Hl & Hx & Hzz & _) | (_ & -> & ->)]].
  - destruct Hs as [Hs _]. tauto.
  - destruct Hs as [_ Hs]. tauto.
  - unfold list_index. rewrite Hz. simpl. apply apply_spline_zero.
Qed.

(** A spline edge with count 0, after edges whose counts are not negative,
    makes the loop raise [ZeroDivisionError], at that edge or before. *)
Lemma convert_edges_zero (vertices_count : list Z) (edges : list Edge) :
  forall (i : nat) (cs : list SketchOp) (k : nat) (e : Edge),
  (forall j, (j < List.length edges)%nat ->
     exists c, nth_error vertices_count (i + j) = Some c) ->
  (forall j e' c, (j < k)%nat -> nth_error edges j = Some e' ->
     to_spline e' -> nth_error vertices_count (i + j) = Some c ->
     (0 <= c)%Z) ->
  nth_error edges k = Some e -> to_spline e ->
  nth_error vertices_count (i + k) = Some 0%Z ->
  exists built,
    convert_edges lead lefthand vertices_count i edges cs
    = Raised ZeroDivisionError built /\
    (List.length built <= List.length cs + k)%nat.
Proof.
  induction edges as [|edge rest IH]; intros i cs k e Hcov Hpos Hk Hs Hz.
  - destruct k; discriminate.
  - simpl. destruct k as [|k]; simpl in Hk.
    + injection Hk as ->. rewrite Nat.add_0_r in Hz.
      rewrite (convert_edge_zero vertices_count i e Hs Hz).
      exists cs. split; [ reflexivity | lia ].
    + destruct (Hcov 0%nat) as (c & Hc); [ simpl; lia | ].
      rewrite Nat.add_0_r in Hc.
      destruct (convert_edge_result vertices_count i edge c Hc)
        as [(op & -> & _) | [(-> & _ & _) | (_ & Hs' & Hneg)]].
      * destruct (IH (S i) (cs ++ [op]) k e) as (built & Hb & Hlen); auto.
        -- intros j Hj. destruct (Hcov (S j)) as (c' & Hc'); [ simpl; lia | ].
           rewrite Nat.add_succ_r in Hc'. eauto.
        -- intros j e' c' Hj He' Hs'' Hc'.
           apply (Hpos (S j) e' c'); auto; [ lia | ].
           now rewrite Nat.add_succ_r.
        -- now rewrite Nat.add_succ_r in Hz.
        -- exists built. split; [ exact Hb | ].
           rewrite length_app in Hlen. simpl in Hlen. lia.
      * exists cs. split; [ reflexivity | lia ].
      * exfalso.
        assert (0 <= c)%Z; [ | lia ].
        apply (Hpos 0%nat edge c); auto; [ lia | ].
        now rewrite Nat.add_0_r.
Qed.

(** When the loop returns, every edge of the spline branch has a count of
    at least 1. *)
Lemma convert_edges_returned (vertices_count : list Z) (edges : list Edge) :
  forall (i : nat) (cs r : list SketchOp),
  convert_edges lead lefthand vertices_count i edges cs = Returned r ->
  forall k e c, nth_error edges k = Some e -> to_spline e ->
    nth_error vertices_count (i + k) = Some c -> (1 <= c)%Z.
Proof.
  induction edges as [|edge rest IH]; intros i cs r Hr k e c Hk Hs Hc.
  - destruct k; discriminate.
  - simpl in Hr.
    destruct (convert_edge lead lefthand vertices_count i edge) as [op|err]
      eqn:Hop; [ | discriminate ].
    destruct k as [|k]; simpl in Hk.
    + injection Hk as ->. rewrite Nat.add_0_r in Hc.
      destruct (convert_edge_result vertices_count i e c Hc)
        as [(op' & _ & H1) | [(H1 & _) | (H1 & _)]];
        [ auto | congruence | congruence ].
    + apply (IH (S i) _ _ Hr k e c Hk Hs).
      now rewrite Nat.add_succ_r in Hc.
Qed.

End Loop.

(** The function on a Workplane that holds a wire, once the counts are
    resolved: the lead it transforms with is the z extent of the bounding
    box of the wire. *)
Lemma profile_to_cross_section_wire `{Math} (py : PyVersion) (wire : Wire)
  (lefthand : bool) (mv : MinVertices) (counts : list Z) (e0 : Edge)
  (rest : list Edge) :
  resolve_vertices_count py wire mv = Ok counts ->
  Edges wire = e0 :: rest ->
  profile_to_cross_section py (Workplane (ValWire wire)) lefthand mv =
  match transform (wire_lead wire) lefthand (startPoint e0) with
  | Err e => Raised e []
  | Ok start =>
      convert_edges (wire_lead wire) lefthand counts 0 (Edges wire)
        [MoveTo start]
  end.
Proof.
  intros Hr He. unfold profile_to_cross_section, wire_lead.
  destruct mv; try discriminate; rewrite Hr, He; reflexivity.
Qed.

(** ** The shape emitted for each edge *)




(** ** Division by a zero vertex count *)

Lemma mapM_nth {E A B : Type} (f : A -> result E B) (l : list A)
  (bs : list B) (k : nat) (a : A) :
  mapM f l = Ok bs -> nth_error l k = Some a ->
  exists b, f a = Ok b /\ nth_error bs k = Some b.
Proof.
  revert bs k. induction l as [|a0 l IH]; intros bs k Hm Hk.
  - destruct k; discriminate.
  - simpl in Hm.
    destruct (f a0) as [b0|] eqn:E0; simpl in Hm; [ | discriminate ].
    destruct (mapM f l) as [bs'|] eqn:El; simpl in Hm; [ | discriminate ].
    injection Hm as <-.
    destruct k as [|k]; simpl in Hk.
    + injection Hk as <-. exists b0. auto.
    + apply (IH bs' k eq_refl Hk).
Qed.

Lemma to_float_zero (x : Q) : x == 0 -> to_float x = Finite 0.
Proof. intros E. unfold to_float. now rewrite (fl_zero x E). Qed.




(** ** [Thread.__init__] *)

Lemma string_app_assoc (a b c : string) :
  (a ++ b ++ c = (a ++ b) ++ c)%string.
Proof. induction a as [|x a IH]; simpl; [ reflexivity | now rewrite IH ]. Qed.

Lemma prefix_app (s t : string) : String.prefix s (s ++ t) = true.
Proof.
  induction s as [|a s IH]; simpl.
  - now destruct t.
  - destruct (ascii_dec a a) as [_|N]; [ exact IH | congruence ].
Qed.

Lemma contains_of_prefix (s h : string) :
  String.prefix s h = true -> contains s h = true.
Proof. destruct h; simpl; intros ->; reflexivity. Qed.

Lemma contains_app (s pre post : string) :
  contains s (pre ++ s ++ post) = true.
Proof.
  induction pre as [|a pre IH]; simpl.
  - apply contains_of_prefix, prefix_app.
  - rewrite IH. apply orb_true_r.
Qed.

Lemma init_error_message_names (self : Instance) (key : string) :
  contains key (init_error_message self key) = true /\
  contains (class_repr (inst_class self)) (init_error_message self key) = true.
Proof.
  unfold init_error_message. split.
  - rewrite 2!string_app_assoc. apply contains_app.
  - apply contains_app.
Qed.

Lemma setattr_class (self self' : Instance) (key : string) (v : PyVal) :
  setattr self key v = Ok self' -> inst_class self' = inst_class self.
Proof.
  unfold setattr. destruct (String.eqb key "__dict__").
  - destruct v; try discriminate. now intros [= <-].
  - destruct (String.eqb key "__class__"); [ discriminate | ].
    destruct (String.eqb key "__weakref__"); [ discriminate | ].
    now intros [= <-].
Qed.

(** Setting an attribute other than [__dict__] enters it in the dictionary
    of the instance; the name is then neither [__class__] nor
    [__weakref__]. *)
Lemma setattr_plain (self self' : Instance) (key : string) (v : PyVal) :
  setattr self key v = Ok self' -> key <> "__dict__"%string ->
  String.eqb key "__class__" = false /\
  String.eqb key "__weakref__" = false /\
  self' = {| inst_class := inst_class self;
             inst_dict := (key, v) :: inst_dict self |}.
Proof.
  unfold setattr. intros Hs Hd.
  destruct (String.eqb_spec key "__dict__") as [E|_]; [ contradiction | ].
  destruct (String.eqb key "__class__"); [ discriminate | ].
  destruct (String.eqb key "__weakref__"); [ discriminate | ].
  injection Hs as <-. auto.
Qed.

Lemma getattr_setattr_same (self self' : Instance) (key : string) (v : PyVal) :
  setattr self key v = Ok self' -> key <> "__dict__"%string ->
  getattr self' key = Some v.
Proof.
  intros Hs Hd. destruct (setattr_plain _ _ _ _ Hs Hd) as (Hc & Hw & ->).
  unfold getattr. rewrite Hc, Hw.
  destruct (String.eqb_spec key "__dict__") as [E|_]; [ contradiction | ].
  simpl. now rewrite String.eqb_refl.
Qed.

Lemma getattr_setattr_other (self self' : Instance) (k key : string)
  (v : PyVal) :
  setattr self k v = Ok self' -> k <> "__dict__"%string ->
  key <> "__dict__"%string -> k <> key ->
  getattr self' key = getattr self key.
Proof.
  intros Hs Hd Hkd Hne. destruct (setattr_plain _ _ _ _ Hs Hd) as (_ & _ & ->).
  unfold getattr. simpl.
  destruct (String.eqb_spec key "__dict__") as [E|_]; [ contradiction | ].
  destruct (String.eqb_spec k key) as [E|_]; [ contradiction | reflexivity ].
Qed.

Lemma existsb_self (keys : list string) :
  ~ In "self"%string keys -> existsb (String.eqb "self") keys = false.
Proof.
  intros Hn. destruct (existsb (String.eqb "self") keys) eqn:E; [ | reflexivity ].
  apply existsb_exists in E. destruct E as (k & Hin & Hk).
  apply String.eqb_eq in Hk. subst k. contradiction.
Qed.

Section Init.
Context {B : Builtins}.
Variable py : PyVersion.

(** Without a keyword named [self], the call runs the loop. *)
Lemma init_runs_loop (self : Instance) (kwargs : list (string * PyVal)) :
  ~ In "self"%string (map fst kwargs) ->
  Thread.__init__ py self kwargs = Thread.init_loop py self kwargs.
Proof. intros Hn. unfold Thread.__init__. now rewrite existsb_self. Qed.

Lemma init_completed (self self' : Instance) (kwargs : list (string * PyVal)) :
  Thread.__init__ py self kwargs = Ok self' ->
  Thread.init_loop py self kwargs = Ok self'.
Proof.
  unfold Thread.__init__.
  destruct (existsb (String.eqb "self") (map fst kwargs));
    [ discriminate | auto ].
Qed.

Lemma init_unknown (self : Instance) (key : string) (value : PyVal)
  (rest : list (string * PyVal)) :
  hasattr self key = false ->
  Thread.init_loop py self ((key, value) :: rest) =
  Err (mkException ValueError (init_error_message self key)).
Proof. intros Hh. simpl. rewrite Hh. reflexivity. Qed.

(** One round of the loop that does not raise. *)
Lemma init_step (self self' : Instance) (key : string) (value : PyVal)
  (rest : list (string * PyVal)) :
  Thread.init_loop py self ((key, value) :: rest) = Ok self' ->
  exists default_value cast_value s,
    getattr self key = Some default_value /\
    cast_to default_value value = Ok cast_value /\
    setattr self key cast_value = Ok s /\
    Thread.init_loop py s rest = Ok self'.
Proof.
  simpl. destruct (hasattr self key); simpl; [ | discriminate ].
  destruct (getattr self key) as [d|]; [ | discriminate ].
  unfold cast_to.
  destruct (match d with
            | VNone => Ok value
            | _ => construct (type_of d) value
            end) as [v|e] eqn:Hc; simpl; [ | discriminate ].
  destruct (setattr self key v) as [s|e] eqn:Hs; simpl; [ | discriminate ].
  intros Hi. exists d, v, s. repeat split; assumption.
Qed.

Lemma init_class (self self' : Instance) (kwargs : list (string * PyVal)) :
  Thread.init_loop py self kwargs = Ok self' ->
  inst_class self' = inst_class self.
Proof.
  revert self. induction kwargs as [|[key value] rest IH]; intros self Hi.
  - simpl in Hi. now injection Hi as <-.
  - destruct (init_step _ _ _ _ _ Hi) as (d & v & s & _ & _ & Hs & Hr).
    rewrite (IH _ Hr). apply (setattr_class _ _ _ _ Hs).
Qed.

(** Attributes that [kwargs] does not name are left alone, when [kwargs]
    does not replace the dictionary of the instance. *)
Lemma init_other (self self' : Instance) (kwargs : list (string * PyVal))
  (key : string) :
  Thread.init_loop py self kwargs = Ok self' ->
  ~ In "__dict__"%string (map fst kwargs) ->
  key <> "__dict__"%string ->
  ~ In key (map fst kwargs) ->
  getattr self' key = getattr self key.
Proof.
  revert self. induction kwargs as [|[k value] rest IH];
    intros self Hi Hd Hk Hn.
  - simpl in Hi. now injection Hi as <-.
  - destruct (init_step _ _ _ _ _ Hi) as (d & v & s & _ & _ & Hs & Hr).
    simpl in Hd, Hn.
    rewrite (IH _ Hr) by tauto.
    apply (getattr_setattr_other _ _ _ _ _ Hs); tauto.
Qed.

Lemma init_app (self : Instance) (pre rest : list (string * PyVal)) :
  Thread.init_loop py self (pre ++ rest) =
  (s <- Thread.init_loop py self pre ;; Thread.init_loop py s rest).
Proof.
  revert self. induction pre as [|[key value] pre IH]; intros self; simpl.
  - reflexivity.
  - destruct (hasattr self key); simpl; [ | reflexivity ].
    destruct (getattr self key) as [d|]; [ | reflexivity ].
    destruct (match d with
              | VNone => Ok value
              | _ => construct (type_of d) value
              end) as [v|e]; simpl; [ | reflexivity ].
    destruct (setattr self key v) as [s|e]; simpl; [ apply IH | reflexivity ].
Qed.

Lemma init_stored (kwargs : list (string * PyVal)) :
  forall self self',
  NoDup (map fst kwargs) ->
  ~ In "__dict__"%string (map fst kwargs) ->
  (forall k, In k (map fst kwargs) -> assoc k (inst_dict self) = None) ->
  Thread.init_loop py self kwargs = Ok self' ->
  forall key value, In (key, value) kwargs ->
  exists default_value,
    assoc key (class_attrs (inst_class self)) = Some default_value /\
    match default_value with
    | VNone => getattr self' key = Some value
    | _ => exists cast_value,
             construct (type_of default_value) value = Ok cast_value /\
             getattr self' key = Some cast_value
    end.
Proof.
  induction kwargs as [|[k v] rest IH];
    intros self self' Hnd Hdict Hfresh Hi key value Hin.
  - destruct Hin.
  - simpl in Hnd, Hdict. inversion Hnd as [|? ? Hk Hnd']; subst.
    destruct (init_step _ _ _ _ _ Hi) as (d & cv & s & Hd & Hc & Hs & Hr).
    assert (Hkd : k <> "__dict__"%string) by tauto.
    destruct (setattr_plain _ _ _ _ Hs Hkd) as (Hkc & Hkw & Es).
    assert (Hcls : assoc k (class_attrs (inst_class self)) = Some d).
    { unfold getattr in Hd. rewrite Hkc, Hkw in Hd.
      destruct (String.eqb_spec k "__dict__") as [E|_]; [ contradiction | ].
      rewrite (Hfresh k) in Hd by (now left). exact Hd. }
    destruct Hin as [[= -> ->] | Hin].
    + exists d. split; [ exact Hcls | ].
      assert (Hg : getattr self' key = Some cv).
      { rewrite (init_other _ _ _ _ Hr) by tauto.
        apply (getattr_setattr_same _ _ _ _ Hs Hkd). }
      unfold cast_to in Hc.
      destruct d; try (exists cv; split; [ exact Hc | exact Hg ]).
      injection Hc as <-. exact Hg.
    + rewrite <- (setattr_class _ _ _ _ Hs).
      apply (IH s self' Hnd'); auto.
      intros k' Hk'. rewrite Es. simpl.
      destruct (String.eqb_spec k k') as [->|_]; [ contradiction | ].
      apply Hfresh. now right.
Qed.


End Init.



(** ** [CoordSystem.__add__] with another kind of operand *)

(** C6 (the code departs from it).  With an operand that is not a
    CoordSystem, the message is never built: formatting the first field,
    [{other_cls:r}], raises.  Python 3 raises a [TypeError] whose message
    names neither operand type, and Python 2 raises a [ValueError]. *)
Theorem add_non_coordsystem (py : PyVersion) (self : CoordSystem.t)
  (other_cls : PyClass) :
  CoordSystem.__add__ py self (CoordSystem.NotCoordSystem other_cls) =
  Err (match py with
       | Py2 =>
           mkException ValueError
             "Unknown format code 'r' for object of type 'str'"
       | Py3 =>
           mkException TypeError
             "unsupported format string passed to type.__format__"
       end) /\
  contains (class_repr CoordSystem.cls)
    "unsupported format string passed to type.__format__" = false /\
  contains (class_repr (int_class Py3))
    "unsupported format string passed to type.__format__" = false.
Proof.
  split; [ destruct py; reflexivity | split; reflexivity ].
Qed.

(** ** Composition of coordinate systems *)

Import CoordSystem.

Ltac project :=
  cbn [ origin xDir zDir vx vy vz
        A11 A12 A13 A14 A21 A22 A23 A24 A31 A32 A33 A34 A41 A42 A43 A44 ].

Ltac project_in H :=
  cbn [ origin xDir zDir vx vy vz
        A11 A12 A13 A14 A21 A22 A23 A24 A31 A32 A33 A34 A41 A42 A43 A44 ] in H.

(** Unfold the geometry to equations between coordinates, a layer at a
    time. *)
Ltac expose :=
  unfold add, identity, local_to_world_transform, from_transform,
    frame_matrix, equiv, orthonormal;
  unfold rG, yDir, Matrix_eq, Vector_eq; project;
  unfold Matrix_multiply_vector, Vector_sub; project;
  unfold Matrix_multiply; project;
  unfold cross, dot; project.

Ltac expose_in H :=
  unfold add, identity, local_to_world_transform, from_transform,
    frame_matrix, equiv, orthonormal in H;
  unfold rG, yDir, Matrix_eq, Vector_eq in H; project_in H;
  unfold Matrix_multiply_vector, Vector_sub in H; project_in H;
  unfold Matrix_multiply in H; project_in H;
  unfold cross, dot in H; project_in H.

Lemma Matrix_multiply_assoc (a b c : Matrix) :
  Matrix_eq (Matrix_multiply (Matrix_multiply a b) c)
            (Matrix_multiply a (Matrix_multiply b c)).
Proof. expose. repeat split; ring. Qed.

Lemma Matrix_eq_refl (m : Matrix) : Matrix_eq m m.
Proof. expose. repeat split; reflexivity. Qed.

Lemma row_column_compat
  (a1 a2 a3 a4 b1 b2 b3 b4 a1' a2' a3' a4' b1' b2' b3' b4' : Q) :
  a1 == a1' -> a2 == a2' -> a3 == a3' -> a4 == a4' ->
  b1 == b1' -> b2 == b2' -> b3 == b3' -> b4 == b4' ->
  a1 * b1 + a2 * b2 + a3 * b3 + a4 * b4 ==
  a1' * b1' + a2' * b2' + a3' * b3' + a4' * b4'.
Proof.
  intros E1 E2 E3 E4 E5 E6 E7 E8.
  now rewrite E1, E2, E3, E4, E5, E6, E7, E8.
Qed.

Lemma Matrix_multiply_compat (m m' n n' : Matrix) :
  Matrix_eq m m' -> Matrix_eq n n' ->
  Matrix_eq (Matrix_multiply m n) (Matrix_multiply m' n').
Proof.
  intros ((?&?&?&?)&(?&?&?&?)&(?&?&?&?)&(?&?&?&?))
         ((?&?&?&?)&(?&?&?&?)&(?&?&?&?)&(?&?&?&?)).
  expose. repeat split; apply row_column_compat; assumption.
Qed.

Lemma from_transform_compat (m n : Matrix) :
  Matrix_eq m n -> equiv (from_transform m) (from_transform n).
Proof.
  intros ((?&?&?&?)&(?&?&?&?)&(?&?&?&?)&_).
  expose.
  repeat split;
    repeat match goal with H : _ == _ |- _ => rewrite H; clear H end;
    reflexivity.
Qed.

Lemma equiv_trans (a b c : t) : equiv a b -> equiv b c -> equiv a c.
Proof.
  unfold equiv, Vector_eq.
  intros ((?&?&?)&(?&?&?)&(?&?&?)) ((?&?&?)&(?&?&?)&(?&?&?)).
  repeat split; etransitivity; eassumption.
Qed.

Lemma equiv_sym (a b : t) : equiv a b -> equiv b a.
Proof.
  unfold equiv, Vector_eq.
  intros ((?&?&?)&(?&?&?)&(?&?&?)).
  repeat split; symmetry; assumption.
Qed.

(** The transform of the frame read off a frame matrix is that matrix. *)
Lemma rG_from_transform (m : Matrix) :
  frame_matrix m -> Matrix_eq (rG (from_transform m)) m.
Proof.
  intros ((H1 & H2 & H3 & H4) & Hy).
  expose_in Hy. destruct Hy as (Hx & Hy & Hz). expose.
  repeat split; try ring; try (symmetry; assumption).
  - rewrite Hx. ring.
  - rewrite Hy. ring.
  - rewrite Hz. ring.
Qed.

Lemma cross_yz (c : t) :
  orthonormal c -> Vector_eq (cross (yDir c) (zDir c)) (xDir c).
Proof.
  intros (Hxx & Hzz & Hxz). unfold Vector_eq, yDir.
  assert (E : forall k : Vector -> Q,
             (k = vx \/ k = vy \/ k = vz) ->
             k (cross (cross (zDir c) (xDir c)) (zDir c)) ==
             k (xDir c) * dot (zDir c) (zDir c)
             - k (zDir c) * dot (xDir c) (zDir c)).
  { intros k [-> | [-> | ->]]; unfold cross, dot; simpl; ring. }
  repeat split; rewrite E by tauto; rewrite Hzz, Hxz; ring.
Qed.

Lemma cross_xy (c : t) :
  orthonormal c -> Vector_eq (cross (xDir c) (yDir c)) (zDir c).
Proof.
  intros (Hxx & Hzz & Hxz). unfold Vector_eq, yDir.
  assert (E : forall k : Vector -> Q,
             (k = vx \/ k = vy \/ k = vz) ->
             k (cross (xDir c) (cross (zDir c) (xDir c))) ==
             k (zDir c) * dot (xDir c) (xDir c)
             - k (xDir c) * dot (xDir c) (zDir c)).
  { intros k [-> | [-> | ->]]; unfold cross, dot; simpl; ring. }
  repeat split; rewrite E by tauto; rewrite Hxx, Hxz; ring.
Qed.

(** The product of the transforms of two frames is a frame matrix when the
    first frame is orthonormal: a rotation carries cross products to cross
    products. *)
Lemma frame_matrix_product (a b : t) :
  orthonormal a -> frame_matrix (Matrix_multiply (rG a) (rG b)).
Proof.
  intros Ha.
  destruct (cross_yz a Ha) as (X1 & X2 & X3).
  destruct (cross_xy a Ha) as (Z1 & Z2 & Z3).
  destruct a as [[oa1 oa2 oa3] [xa1 xa2 xa3] [za1 za2 za3]].
  destruct b as [[ob1 ob2 ob3] [xb1 xb2 xb3] [zb1 zb2 zb3]].
  expose_in X1. expose_in X2. expose_in X3.
  expose_in Z1. expose_in Z2. expose_in Z3. expose.
  split; [ repeat split; ring | ].
  repeat split.
  - match type of X1 with ?lx == _ =>
    match type of Z1 with ?lz == _ =>
    match goal with |- ?L == _ =>
      transitivity (L + (lx - xa1) * (zb2 * xb3 - zb3 * xb2)
                      + (lz - za1) * (zb1 * xb2 - zb2 * xb1));
        [ rewrite X1, Z1; ring | ring ]
    end end end.
  - match type of X2 with ?lx == _ =>
    match type of Z2 with ?lz == _ =>
    match goal with |- ?L == _ =>
      transitivity (L + (lx - xa2) * (zb2 * xb3 - zb3 * xb2)
                      + (lz - za2) * (zb1 * xb2 - zb2 * xb1));
        [ rewrite X2, Z2; ring | ring ]
    end end end.
  - match type of X3 with ?lx == _ =>
    match type of Z3 with ?lz == _ =>
    match goal with |- ?L == _ =>
      transitivity (L + (lx - xa3) * (zb2 * xb3 - zb3 * xb2)
                      + (lz - za3) * (zb1 * xb2 - zb2 * xb1));
        [ rewrite X3, Z3; ring | ring ]
    end end end.
Qed.

Lemma add_identity_r (a : t) : equiv (add a identity) a.
Proof.
  destruct a as [[o1 o2 o3] [x1 x2 x3] [z1 z2 z3]].
  expose. repeat split; ring.
Qed.

Lemma add_identity_l (a : t) : equiv (add identity a) a.
Proof.
  destruct a as [[o1 o2 o3] [x1 x2 x3] [z1 z2 z3]].
  expose. repeat split; ring.
Qed.

Lemma add_assoc (a b c : t) :
  orthonormal a -> orthonormal b ->
  equiv (add (add a b) c) (add a (add b c)).
Proof.
  intros Ha Hb. unfold add, local_to_world_transform.
  apply equiv_trans with
    (from_transform (Matrix_multiply (Matrix_multiply (rG a) (rG b)) (rG c))).
  - apply from_transform_compat, Matrix_multiply_compat.
    + apply rG_from_transform, frame_matrix_product, Ha.
    + apply Matrix_eq_refl.
  - apply equiv_trans with
      (from_transform (Matrix_multiply (rG a) (Matrix_multiply (rG b) (rG c)))).
    + apply from_transform_compat, Matrix_multiply_assoc.
    + apply equiv_sym, from_transform_compat, Matrix_multiply_compat.
      * apply Matrix_eq_refl.
      * apply rG_from_transform, frame_matrix_product, Hb.
Qed.

(** A rotation keeps dot products. *)
Lemma rotate_dot (x1 x2 x3 z1 z2 z3 u1 u2 u3 v1 v2 v3 : Q) :
  x1 * x1 + x2 * x2 + x3 * x3 == 1 ->
  z1 * z1 + z2 * z2 + z3 * z3 == 1 ->
  x1 * z1 + x2 * z2 + x3 * z3 == 0 ->
  let y1 := z2 * x3 - z3 * x2 in
  let y2 := z3 * x1 - z1 * x3 in
  let y3 := z1 * x2 - z2 * x1 in
  (x1 * u1 + y1 * u2 + z1 * u3) * (x1 * v1 + y1 * v2 + z1 * v3)
  + (x2 * u1 + y2 * u2 + z2 * u3) * (x2 * v1 + y2 * v2 + z2 * v3)
  + (x3 * u1 + y3 * u2 + z3 * u3) * (x3 * v1 + y3 * v2 + z3 * v3)
  == u1 * v1 + u2 * v2 + u3 * v3.
Proof.
  intros Hxx Hzz Hxz y1 y2 y3. subst y1 y2 y3.
  transitivity
    ((x1 * x1 + x2 * x2 + x3 * x3) * (u1 * v1)
     + ((z1 * z1 + z2 * z2 + z3 * z3) * (x1 * x1 + x2 * x2 + x3 * x3)
        - (x1 * z1 + x2 * z2 + x3 * z3) * (x1 * z1 + x2 * z2 + x3 * z3))
       * (u2 * v2)
     + (z1 * z1 + z2 * z2 + z3 * z3) * (u3 * v3)
     + (x1 * z1 + x2 * z2 + x3 * z3) * (u1 * v3 + u3 * v1)).
  - ring.
  - rewrite Hxx, Hzz, Hxz. ring.
Qed.

(** The invariant of the data model is kept by [+]. *)
Lemma add_orthonormal (a b : t) :
  orthonormal a -> orthonormal b -> orthonormal (add a b).
Proof.
  intros Ha Hb.
  destruct a as [[oa1 oa2 oa3] [xa1 xa2 xa3] [za1 za2 za3]].
  destruct b as [[ob1 ob2 ob3] [xb1 xb2 xb3] [zb1 zb2 zb3]].
  unfold orthonormal in Ha, Hb. unfold dot in Ha, Hb.
  cbn [xDir zDir vx vy vz] in Ha, Hb.
  destruct Ha as (Hxx & Hzz & Hxz). destruct Hb as (Bxx & Bzz & Bxz).
  pose proof (fun u1 u2 u3 v1 v2 v3 =>
                rotate_dot xa1 xa2 xa3 za1 za2 za3 u1 u2 u3 v1 v2 v3
                  Hxx Hzz Hxz) as R.
  cbv zeta in R.
  expose. repeat split.
  - transitivity (xb1 * xb1 + xb2 * xb2 + xb3 * xb3); [ | exact Bxx ].
    rewrite <- (R xb1 xb2 xb3 xb1 xb2 xb3). ring.
  - transitivity (zb1 * zb1 + zb2 * zb2 + zb3 * zb3); [ | exact Bzz ].
    rewrite <- (R zb1 zb2 zb3 zb1 zb2 zb3). ring.
  - transitivity (xb1 * zb1 + xb2 * zb2 + xb3 * zb3); [ | exact Bxz ].
    rewrite <- (R xb1 xb2 xb3 zb1 zb2 zb3). ring.
Qed.

(** C7.  The identity frame is a two-sided identity of [+], and [+] is
    associative on frames that satisfy the invariant of the data model
    (orthonormal axes); equality is equality of every coordinate. *)
Theorem add_identity_assoc (py : PyVersion) (a b c : t) :
  (exists r, __add__ py a (IsCoordSystem identity) = Ok r /\ equiv r a) /\
  (exists r, __add__ py identity (IsCoordSystem a) = Ok r /\ equiv r a) /\
  (orthonormal a -> orthonormal b ->
   exists ab bc left right,
     __add__ py a (IsCoordSystem b) = Ok ab /\
     __add__ py ab (IsCoordSystem c) = Ok left /\
     __add__ py b (IsCoordSystem c) = Ok bc /\
     __add__ py a (IsCoordSystem bc) = Ok right /\
     equiv left right).
Proof.
  split; [ | split ].
  - exists (add a identity). split; [ reflexivity | apply add_identity_r ].
  - exists (add identity a). split; [ reflexivity | apply add_identity_l ].
  - intros Ha Hb.
    exists (add a b), (add b c), (add (add a b) c), (add a (add b c)).
    split; [ reflexivity | ]. split; [ reflexivity | ].
    split; [ reflexivity | ]. split; [ reflexivity | ].
    apply add_assoc; assumption.
Qed.

(** Two tilted frames and the identity. *)
Lemma add_identity_assoc_witness :
  exists ab bc left right,
    __add__ Py2 tilted_frame (IsCoordSystem turned_frame) = Ok ab /\
    __add__ Py2 ab (IsCoordSystem identity) = Ok left /\
    __add__ Py2 turned_frame (IsCoordSystem identity) = Ok bc /\
    __add__ Py2 tilted_frame (IsCoordSystem bc) = Ok right /\
    equiv left right.
Proof.
  apply (add_identity_assoc Py2 tilted_frame turned_frame identity);
    unfold orthonormal; repeat split; vm_compute; reflexivity.
Defined.

(** ** [Thread.make] *)

Section Make.
Context {M : Math} {K : Kernel} {V : Thread.Variant}.
Variable py : PyVersion.

Lemma tbind_quiet_ok {A B : Type} (a : A) (k : A -> Traced B) :
  tbind (quiet (Ok a)) k = k a.
Proof. unfold tbind, quiet. simpl. now destruct (k a). Qed.

Lemma tbind_quiet_err {A B : Type} (e : ExcKind) (k : A -> Traced B) :
  tbind (quiet (Err e)) k = ([], Err e).
Proof. reflexivity. Qed.

Lemma tbind_call_ok {A B : Type} (c : KernelCall) (a : A) (k : A -> Traced B) :
  tbind (call c (Ok a)) k = (c :: fst (k a), snd (k a)).
Proof. reflexivity. Qed.

Lemma tbind_call_err {A B : Type} (c : KernelCall) (e : ExcKind)
  (k : A -> Traced B) :
  tbind (call c (Err e)) k = ([c], Err e).
Proof. reflexivity. Qed.

(** [make] raises before any kernel call, or goes on to sweep the
    cross-section of the profile it built. *)
Lemma make_cases (self : Thread.t) :
  (exists e, Thread.make py self = ([], Err e)) \/
  (exists wire cs,
     Thread.build_profile self = Ok (Workplane (ValWire wire)) /\
     profile_to_cross_section py (Workplane (ValWire wire))
       (Thread.lefthand self) (MVInt 20) = Returned cs /\
     Thread.make py self = sweep_and_repair wire cs self).
Proof.
  unfold Thread.make.
  destruct (Thread.build_profile self) as [profile | e] eqn:Hp.
  - rewrite !tbind_quiet_ok.
    destruct (profile_to_cross_section py profile (Thread.lefthand self)
                (MVInt 20)) as [cs | e built] eqn:Hcs.
    + rewrite tbind_quiet_ok.
      destruct profile as [[wire | ] | ].
      * rewrite tbind_quiet_ok. right. exists wire, cs. auto.
      * left. eexists. apply tbind_quiet_err.
      * left. eexists. apply tbind_quiet_err.
    + left. eexists. apply tbind_quiet_err.
  - left. eexists. apply tbind_quiet_err.
Qed.

Lemma sweep_and_repair_helix (wire : Wire) (cs : list SketchOp)
  (self : Thread.t) :
  exists rest,
    fst (sweep_and_repair wire cs self) = helix_call wire self :: rest /\
    forall pitch length radius angle lefthand,
      ~ In (CallMakeHelix pitch length radius angle lefthand) rest.
Proof.
  unfold sweep_and_repair, helical_path, helix_call.
  destruct (makeHelix _ _ _ _ _) as [path | e].
  - rewrite tbind_call_ok. cbn [fst].
    eexists. split; [ reflexivity | ].
    destruct (sweep cs path true) as [shape | e].
    + rewrite tbind_call_ok. cbn [fst]. rewrite tbind_call_ok. cbn [fst].
      destruct (isValid shape); cbn [negb].
      * intros ? ? ? ? ? [Hin | [Hin | []]]; discriminate.
      * destruct (sewShape shape) as [sewn | e].
        -- rewrite tbind_call_ok. cbn [fst call].
           intros ? ? ? ? ? [Hin | [Hin | [Hin | [Hin | []]]]]; discriminate.
        -- rewrite tbind_call_err. cbn [fst].
           intros ? ? ? ? ? [Hin | [Hin | [Hin | []]]]; discriminate.
    + rewrite tbind_call_err. cbn [fst].
      intros ? ? ? ? ? [Hin | []]; discriminate.
  - rewrite tbind_call_err. cbn [fst].
    eexists. split; [ reflexivity | ]. intros ? ? ? ? ? [].
Qed.

(** C8.  Every helix [make] constructs has as pitch the lead of the built
    profile (the z extent of its bounding box, which is also the lead
    [profile_to_cross_section] transforms with), the configured length and
    handedness, and radius 1 whatever the radius of the thread; [make]
    constructs exactly one once the cross-section is there, and it is the
    helix the kernel returns for these arguments that the cross-section is
    swept along: what [make] returns is the outcome of that sweep, checked
    and repaired. *)
Theorem make_helix_arguments (self : Thread.t) :
  (forall pitch length radius angle lefthand,
     In (CallMakeHelix pitch length radius angle lefthand)
        (fst (Thread.make py self)) ->
     exists wire,
       Thread.build_profile self = Ok (Workplane (ValWire wire)) /\
       pitch = wire_lead wire /\
       length = Thread.length self /\ radius = 1 /\ angle = 0 /\
       lefthand = Thread.lefthand self) /\
  (forall wire cs,
     Thread.build_profile self = Ok (Workplane (ValWire wire)) ->
     profile_to_cross_section py (Workplane (ValWire wire))
       (Thread.lefthand self) (MVInt 20) = Returned cs ->
     (exists rest,
        fst (Thread.make py self)
        = CallMakeHelix (wire_lead wire) (Thread.length self) 1 0
            (Thread.lefthand self) :: rest /\
        forall pitch length radius angle lefthand,
          ~ In (CallMakeHelix pitch length radius angle lefthand) rest) /\
     (forall counts e0 rest,
        resolve_vertices_count py wire (MVInt 20) = Ok counts ->
        Edges wire = e0 :: rest ->
        profile_to_cross_section py (Workplane (ValWire wire))
          (Thread.lefthand self) (MVInt 20) =
        match transform (wire_lead wire) (Thread.lefthand self)
                (startPoint e0) with
        | Err e => Raised e []
        | Ok start =>
            convert_edges (wire_lead wire) (Thread.lefthand self) counts 0
              (Edges wire) [MoveTo start]
        end) /\
     match makeHelix (wire_lead wire) (Thread.length self) 1 0
             (Thread.lefthand self) with
     | Err e =>
         Thread.make py self
         = ([ CallMakeHelix (wire_lead wire) (Thread.length self) 1 0
                (Thread.lefthand self) ], Err e)
     | Ok path =>
         (exists rest,
            fst (Thread.make py self)
            = CallMakeHelix (wire_lead wire) (Thread.length self) 1 0
                (Thread.lefthand self)
              :: CallSweep cs path true :: rest) /\
         snd (Thread.make py self)
         = (shape <- sweep cs path true ;;
            if isValid shape then Ok shape
            else sewn <- sewShape shape ;; Solid sewn)
     end).
Proof.
  split.
  - intros pitch length radius angle lefthand Hin.
    destruct (make_cases self) as [(e & He) | (wire & cs & Hp & Hcs & Hm)].
    + rewrite He in Hin. destruct Hin.
    + rewrite Hm in Hin.
      destruct (sweep_and_repair_helix wire cs self) as (rest & Hfst & Hrest).
      rewrite Hfst in Hin. destruct Hin as [Hin | Hin].
      * injection Hin as <- <- <- <- <-.
        exists wire. repeat split; auto.
      * exfalso. eapply Hrest, Hin.
  - intros wire cs Hp Hcs.
    assert (Hm : Thread.make py self = sweep_and_repair wire cs self).
    { unfold Thread.make.
      rewrite Hp, !tbind_quiet_ok, Hcs, !tbind_quiet_ok. reflexivity. }
    split; [ | split ].
    + rewrite Hm. apply sweep_and_repair_helix.
    + intros counts e0 rest Hr He.
      apply (profile_to_cross_section_wire py wire (Thread.lefthand self)
               (MVInt 20) counts e0 rest Hr He).
    + rewrite Hm. unfold sweep_and_repair, helical_path, wire_lead.
      destruct (makeHelix _ _ _ _ _) as [path | e].
      * rewrite tbind_call_ok. cbn [fst snd].
        destruct (sweep cs path true) as [shape | e].
        -- rewrite tbind_call_ok. cbn [fst snd]. rewrite tbind_call_ok.
           cbn [fst snd bind].
           split; [ eexists; reflexivity | ].
           destruct (isValid shape); cbn [negb]; [ reflexivity | ].
           destruct (sewShape shape) as [sewn | e].
           ++ rewrite tbind_call_ok. reflexivity.
           ++ rewrite tbind_call_err. reflexivity.
        -- rewrite tbind_call_err. cbn [fst snd bind].
           split; [ eexists; reflexivity | reflexivity ].
      * rewrite tbind_call_err. reflexivity.
Qed.

(** C9 (amended).  When the swept solid passes the validity check, [make]
    returns it as it is, without sewing.  When it fails the check, [make]
    sews it, builds a solid from the result and returns that solid without
    checking it again; and when sewing or building the solid raises, [make]
    raises that exception: the invalid solid is not returned. *)
Theorem make_repair (self : Thread.t) (wire : Wire) (cs : list SketchOp)
  (path : Helix) (shape : Shape) :
  Thread.build_profile self = Ok (Workplane (ValWire wire)) ->
  profile_to_cross_section py (Workplane (ValWire wire))
    (Thread.lefthand self) (MVInt 20) = Returned cs ->
  makeHelix (wire_lead wire) (Thread.length self) 1 0 (Thread.lefthand self)
    = Ok path ->
  sweep cs path true = Ok shape ->
  let swept := [ helix_call wire self; CallSweep cs path true;
                 CallIsValid shape ] in
  (isValid shape = true -> Thread.make py self = (swept, Ok shape)) /\
  (isValid shape = false ->
   (forall sewn solid,
      sewShape shape = Ok sewn -> Solid sewn = Ok solid ->
      Thread.make py self
      = (swept ++ [CallSewShape shape; CallSolid sewn], Ok solid)) /\
   (forall e,
      sewShape shape = Err e ->
      Thread.make py self = (swept ++ [CallSewShape shape], Err e)) /\
   (forall sewn e,
      sewShape shape = Ok sewn -> Solid sewn = Err e ->
      Thread.make py self
      = (swept ++ [CallSewShape shape; CallSolid sewn], Err e))).
Proof.
  intros Hp Hcs Hpath Hsweep swept.
  assert (Hm : Thread.make py self = sweep_and_repair wire cs self).
  { unfold Thread.make.
    rewrite Hp, !tbind_quiet_ok, Hcs, !tbind_quiet_ok. reflexivity. }
  rewrite Hm. unfold sweep_and_repair, helical_path.
  unfold wire_lead in Hpath. rewrite Hpath, tbind_call_ok.
  rewrite Hsweep, tbind_call_ok, tbind_call_ok.
  split; [ intros -> | intros ->; split; [ | split ] ]; cbn [negb].
  - reflexivity.
  - intros sewn solid Hsew Hsolid.
    rewrite Hsew, tbind_call_ok. cbn [fst snd call]. rewrite Hsolid.
    reflexivity.
  - intros e Hsew. rewrite Hsew, tbind_call_err. reflexivity.
  - intros sewn e Hsew Hsolid.
    rewrite Hsew, tbind_call_ok. cbn [fst snd call]. rewrite Hsolid.
    reflexivity.
Qed.

End Make.

(** The example thread: its profile has lead 8, its length is 10 and its
    radius 3. *)
Lemma make_helix_arguments_witness :
  (exists rest,
     fst (Thread.make (H := rational_math) (H0 := example_kernel)
            (H1 := example_variant) Py2 example_thread)
     = CallMakeHelix (H := example_kernel) 8 10 1 0 false
       :: CallSweep (H := example_kernel) example_cross_section
            (8, 10, 1, 0, false) true :: rest) /\
  snd (Thread.make (H := rational_math) (H0 := example_kernel)
         (H1 := example_variant) Py2 example_thread)
  = Ok 2%nat.
Proof.
  assert (Hcs : profile_to_cross_section (H := rational_math) Py2
                  (Workplane (ValWire example_wire))
                  (Thread.lefthand example_thread) (MVInt 20)
                = Returned example_cross_section)
    by (vm_compute; reflexivity).
  exact (proj2 (proj2 (proj2 (@make_helix_arguments rational_math
                                example_kernel example_variant Py2
                                example_thread)
                         example_wire example_cross_section eq_refl Hcs))).
Defined.

(** The example kernel sweeps an invalid solid: it is sewn, rebuilt and
    returned. *)
Lemma make_repair_witness :
  Thread.make (H := rational_math) (H0 := example_kernel)
    (H1 := example_variant) Py2 example_thread
  = ([ CallMakeHelix (H := example_kernel) 8 10 1 0 false;
       CallSweep (H := example_kernel) example_cross_section
         (8, 10, 1, 0, false) true;
       CallIsValid (H := example_kernel) 1%nat;
       CallSewShape (H := example_kernel) 1%nat;
       CallSolid (H := example_kernel) 1%nat ],
     Ok 2%nat).
Proof.
  assert (Hcs : profile_to_cross_section (H := rational_math) Py2
                  (Workplane (ValWire example_wire))
                  (Thread.lefthand example_thread) (MVInt 20)
                = Returned example_cross_section)
    by (vm_compute; reflexivity).
  apply (proj1 (proj2 (@make_repair rational_math example_kernel
                         example_variant Py2 example_thread example_wire
                         example_cross_section (8, 10, 1, 0, false) 1%nat
                         eq_refl Hcs eq_refl eq_refl) eq_refl)
           1%nat 2%nat eq_refl eq_refl).
Defined.

(** C9 as stated fails when the repair itself fails.  With a kernel whose
    [Solid] raises, the swept solid of the example thread fails the check,
    is sewn, and [make] ends with the exception of [Solid]: no solid, valid
    or not, is returned. *)
Lemma make_repair_counterexample :
  isValid (Kernel := brittle_kernel) 1%nat = false /\
  Thread.make (H := rational_math) (H0 := brittle_kernel)
    (H1 := example_variant) Py2 example_thread
  = ([ CallMakeHelix (H := brittle_kernel) 8 10 1 0 false;
       CallSweep (H := brittle_kernel) example_cross_section
         (8, 10, 1, 0, false) true;
       CallIsValid (H := brittle_kernel) 1%nat;
       CallSewShape (H := brittle_kernel) 1%nat;
       CallSolid (H := brittle_kernel) 1%nat ],
     Err OCCError).
Proof.
  split; [ reflexivity | ]. vm_compute. reflexivity.
Qed.

(** * Further properties of the code *)

(** ** The shape of what [profile_to_cross_section] builds *)

Section Structure.
Context {M : Math}.
Variables (lead : Q) (lefthand : bool).

(** Whatever the lead, the point transform fails only by dividing by it. *)
Lemma transform_err (v : Vector) (e : ExcKind) :
  transform lead lefthand v = Err e -> e = ZeroDivisionError.
Proof.
  unfold transform, get_xz, cart2polar, py_div.
  destruct (Qeq_bool lead 0); simpl; [ now intros [= <-] | discriminate ].
Qed.

Lemma mapM_err {A B : Type} (f : A -> res B) (l : list A) (e e0 : ExcKind) :
  (forall a e', f a = Err e' -> e' = e0) -> mapM f l = Err e -> e = e0.
Proof.
  intros Hf. induction l as [|a l IH]; simpl; [ discriminate | ].
  destruct (f a) as [b|e'] eqn:Ha; simpl.
  - destruct (mapM f l) as [bs|e'']; simpl; [ discriminate | ].
    intros [= <-]. now apply IH.
  - intros [= <-]. now apply (Hf a).
Qed.

Lemma mapM_err_in {A B : Type} (P : ExcKind -> Prop) (f : A -> res B)
  (l : list A) (e : ExcKind) :
  (forall a e', f a = Err e' -> P e') -> mapM f l = Err e -> P e.
Proof.
  intros Hf. induction l as [|a l IH]; simpl; [ discriminate | ].
  destruct (f a) as [b|e'] eqn:Ha; simpl.
  - destruct (mapM f l) as [bs|e'']; simpl; [ discriminate | ].
    intros [= <-]. now apply IH.
  - intros [= <-]. now apply (Hf a).
Qed.

(** A spline is drawn, or the division or the transform divides by zero,
    or the count is negative and the spline is given no point. *)
Lemma apply_spline_cases (edge : Edge) (c : Z) :
  match apply_spline lead lefthand edge c with
  | Ok op => is_drawing op = true
  | Err e => e = ZeroDivisionError \/ (e = IndexError /\ (c < 0)%Z)
  end.
Proof.
  destruct (Z.lt_trichotomy c 0) as [Hc | [-> | Hc]].
  - rewrite (apply_spline_negative lead lefthand edge c Hc). auto.
  - rewrite (apply_spline_zero lead lefthand edge). auto.
  - assert (Hvc : ~ inject_Z c == 0) by (apply inject_Z_nonzero; lia).
    destruct (range_positive c) as (rest & Hr); [ lia | ].
    unfold apply_spline.
    destruct (String.eqb (geomType edge) "CIRCLE");
      rewrite (py_div_ok _ _ Hvc); cbn [bind]; rewrite Hr; cbn [mapM];
      (destruct (transform _ _ _) as [p|e1] eqn:E1; cbn [bind];
       [ | left; now apply transform_err in E1 ]);
      match goal with
      | |- context [ mapM ?f ?l ] =>
          destruct (mapM f l) as [pts|e2] eqn:Em; cbn [bind wp_spline];
          [ reflexivity | ]
      end;
      left; revert Em; apply mapM_err; intros a e'; apply transform_err.
Qed.

(** One segment gives a drawing operation, or fails by a division by zero,
    by a missing count or by a negative count. *)
Lemma convert_edge_cases (vertices_count : list Z) (i : nat) (edge : Edge) :
  match convert_edge lead lefthand vertices_count i edge with
  | Ok op => is_drawing op = true
  | Err e =>
      e = ZeroDivisionError \/
      (e = IndexError /\
       (nth_error vertices_count i = None \/
        exists c, nth_error vertices_count i = Some c /\ (c < 0)%Z))
  end.
Proof.
  unfold convert_edge.
  destruct (_ && _).
  - unfold apply_arc.
    destruct (transform lead lefthand (valueAt edge (Length edge / 2)))
      as [p1|e1] eqn:E1; simpl.
    + destruct (transform lead lefthand (valueAt edge (Length edge)))
        as [p2|e2] eqn:E2; simpl; [ reflexivity | ].
      left. now apply transform_err in E2.
    + left. now apply transform_err in E1.
  - destruct (_ && _).
    + unfold apply_radial_line.
      destruct (transform _ _ _) as [p|e1] eqn:E1; simpl; [ reflexivity | ].
      left. now apply transform_err in E1.
    + unfold list_index.
      destruct (nth_error vertices_count i) as [c|] eqn:Hn; cbn [bind];
        [ | auto ].
      pose proof (apply_spline_cases edge c) as Hs.
      destruct (apply_spline lead lefthand edge c) as [op|e]; [ exact Hs | ].
      destruct Hs as [-> | [-> Hc]]; [ now left | ].
      right. split; [ reflexivity | ]. right. exists c. auto.
Qed.

Lemma convert_edges_structure (vertices_count : list Z) (edges : list Edge) :
  forall (i : nat) (cs : list SketchOp),
  match convert_edges lead lefthand vertices_count i edges cs with
  | Returned r =>
      exists ops, r = cs ++ ops ++ [Close] /\
        List.length ops = List.length edges /\
        forallb is_drawing ops = true
  | Raised e built =>
      exists ops, built = cs ++ ops /\
        (List.length ops < List.length edges)%nat /\
        forallb is_drawing ops = true /\
        (e = ZeroDivisionError \/
         (e = IndexError /\
          (nth_error vertices_count (i + List.length ops) = None \/
           exists c,
             nth_error vertices_count (i + List.length ops) = Some c /\
             (c < 0)%Z)))
  end.
Proof.
  induction edges as [|edge rest IH]; intros i cs; simpl.
  - exists []. auto.
  - pose proof (convert_edge_cases vertices_count i edge) as Hc.
    destruct (convert_edge lead lefthand vertices_count i edge) as [op|e].
    + specialize (IH (S i) (cs ++ [op])).
      destruct (convert_edges _ _ _ _ _ _) as [r|e built].
      * destruct IH as (ops & -> & Hl & Hd).
        exists (op :: ops). rewrite <- app_assoc. simpl.
        rewrite Hc, Hd, Hl. auto.
      * destruct IH as (ops & -> & Hl & Hd & He).
        exists (op :: ops). rewrite <- app_assoc. simpl.
        rewrite Hc, Hd. repeat split; auto; try lia.
        rewrite Nat.add_succ_r. exact He.
    + exists []. rewrite app_nil_r, Nat.add_0_r. simpl.
      repeat split; auto; lia.
Qed.

End Structure.


(** ** The exceptions of [profile_to_cross_section] *)

Lemma float_div_zero (a b : Q) :
  b == 0 -> float_div a b = Err ZeroDivisionError.
Proof.
  intros Hb. unfold float_div.
  now replace (Qeq_bool b 0) with true by (symmetry; now apply Qeq_bool_iff).
Qed.

(** The resolution of a budget fails by the division (a wire without
    length), by the conversion of the budget to a float, or by the
    conversion of an infinity or of a NaN to an int. *)
Lemma vertices_count_int_err (py : PyVersion) (wire : Wire) (B : Z)
  (e : ExcKind) :
  vertices_count_int py wire B = Err e ->
  ((e = ZeroDivisionError /\ wire_Length wire == 0) \/
   e = OverflowError \/ e = ValueError) /\
  Edges wire <> [].
Proof.
  unfold vertices_count_int. intros Hm. split.
  - revert Hm.
    apply (mapM_err_in
             (fun e => (e = ZeroDivisionError /\ wire_Length wire == 0) \/
                       e = OverflowError \/ e = ValueError)).
    intros edge e'. unfold float_div.
    destruct (Qeq_bool (wire_Length wire) 0) eqn:E; cbn [bind].
    + intros [= <-]. left. split; [ reflexivity | now apply Qeq_bool_iff ].
    + unfold float_of_int.
      destruct (to_float (inject_Z B)); cbn [bind];
        try (intros [= <-]; auto).
      destruct (float_mul _ _); cbn [int_ceil]; intros [= <-]; auto.
  - intros He. rewrite He in Hm. discriminate.
Qed.

(** The function on a workplane that holds a wire, in one piece. *)
Lemma profile_to_cross_section_unfold `{Math} (py : PyVersion) (wire : Wire)
  (lefthand : bool) (mv : MinVertices) :
  profile_to_cross_section py (Workplane (ValWire wire)) lefthand mv =
  match resolve_vertices_count py wire mv with
  | Err e => Raised e []
  | Ok counts =>
      match Edges wire with
      | [] => Raised IndexError []
      | e0 :: _ =>
          match transform (wire_lead wire) lefthand (startPoint e0) with
          | Err e => Raised e []
          | Ok start =>
              convert_edges (wire_lead wire) lefthand counts 0 (Edges wire)
                [MoveTo start]
          end
      end
  end.
Proof. destruct mv; reflexivity. Qed.


(** ** Degenerate wires *)

Lemma zero_length_raises `{Math} (py : PyVersion) (wire : Wire)
  (lefthand : bool) (B : Z) :
  Edges wire <> [] -> wire_Length wire == 0 ->
  profile_to_cross_section py (Workplane (ValWire wire)) lefthand (MVInt B)
  = Raised ZeroDivisionError [].
Proof.
  intros Hne HL. rewrite profile_to_cross_section_unfold. simpl.
  unfold vertices_count_int.
  destruct (Edges wire) as [|e0 rest]; [ congruence | ]. cbn [mapM].
  now rewrite (float_div_zero _ _ HL).
Qed.

Lemma zero_lead_raises `{Math} (py : PyVersion) (wire : Wire)
  (lefthand : bool) (min_vertices : MinVertices) (counts : list Z) :
  Edges wire <> [] -> wire_lead wire == 0 ->
  resolve_vertices_count py wire min_vertices = Ok counts ->
  profile_to_cross_section py (Workplane (ValWire wire)) lefthand min_vertices
  = Raised ZeroDivisionError [].
Proof.
  intros Hne Hlead Hr. rewrite profile_to_cross_section_unfold, Hr.
  destruct (Edges wire) as [|e0 rest]; [ congruence | ].
  now rewrite (transform_zero_lead _ _ _ Hlead).
Qed.

(** X3.  Degenerate wires raise before anything is drawn: a wire without
    edges raises [IndexError] (from [edges[0]]), for a budget and for an
    empty list of counts alike; a wire of length 0 with a budget raises
    [ZeroDivisionError] (the share of the first edge); a wire whose
    bounding box has no extent in z raises [ZeroDivisionError] (the
    transform of the start point). *)
Theorem degenerate_profile `{Math} (py : PyVersion) (wire : Wire)
  (lefthand : bool) (min_vertices : MinVertices) (counts : list Z) (B : Z) :
  (Edges wire = [] ->
   profile_to_cross_section py (Workplane (ValWire wire)) lefthand (MVInt B)
   = Raised IndexError [] /\
   profile_to_cross_section py (Workplane (ValWire wire)) lefthand (MVList [])
   = Raised IndexError []) /\
  (Edges wire <> [] -> wire_Length wire == 0 ->
   profile_to_cross_section py (Workplane (ValWire wire)) lefthand (MVInt B)
   = Raised ZeroDivisionError []) /\
  (Edges wire <> [] -> wire_lead wire == 0 ->
   resolve_vertices_count py wire min_vertices = Ok counts ->
   profile_to_cross_section py (Workplane (ValWire wire)) lefthand min_vertices
   = Raised ZeroDivisionError []).
Proof.
  split; [ | split ].
  - intros He. rewrite !profile_to_cross_section_unfold. simpl.
    unfold vertices_count_int. rewrite He. simpl. auto.
  - apply zero_length_raises.
  - apply zero_lead_raises.
Qed.

(** A wire without edges, a wire of length 0 and a flat wire. *)
Lemma degenerate_profile_witness :
  profile_to_cross_section (H := rational_math) Py3
    (Workplane (ValWire empty_wire)) false (MVInt 20)
  = Raised IndexError [] /\
  profile_to_cross_section (H := rational_math) Py3
    (Workplane (ValWire point_wire)) false (MVInt 20)
  = Raised ZeroDivisionError [] /\
  profile_to_cross_section (H := rational_math) Py3
    (Workplane (ValWire flat_wire)) false (MVInt 20)
  = Raised ZeroDivisionError [].
Proof.
  split; [ | split ].
  - exact (proj1 (proj1 (@degenerate_profile rational_math Py3 empty_wire
                           false (MVInt 20) [] 20) eq_refl)).
  - apply (proj1 (proj2 (@degenerate_profile rational_math Py3 point_wire
                           false (MVInt 20) [] 20)));
      [ vm_compute; discriminate | vm_compute; reflexivity ].
  - eapply (proj2 (proj2 (@degenerate_profile rational_math Py3 flat_wire
                            false (MVInt 20) _ 20)));
      [ vm_compute; discriminate | vm_compute; reflexivity
      | vm_compute; reflexivity ].
Defined.

(** ** Budgets *)

(** A share of at least [6 * 10^-8] is rounded to at least [10^-7]. *)
Lemma py_round_positive (py : PyVersion) (u : Q) :
  (6 # 100000000) <= u -> (1 # 10000000) <= py_round py u 7.
Proof.
  intros Hu. unfold py_round.
  change (inject_Z (pow10 7)) with 10000000.
  pose proof (round_half_spec py (u * 10000000)) as [Hlo _].
  assert (Hk : (1 <= round_half py (u * 10000000))%Z).
  { assert (Hq : 0 < inject_Z (round_half py (u * 10000000))) by lra.
    change 0 with (inject_Z 0) in Hq. rewrite <- Zlt_Qlt in Hq. lia. }
  rewrite Zle_Qle in Hk. change (inject_Z 1) with 1 in Hk.
  apply Qle_shift_div_l; lra.
Qed.

(** With a share of at least [10^-7] and a budget of at least 1, the count
    is at least 1: none of the roundings brings the product to 0. *)
Lemma count_positive (py : PyVersion) (u : Q) (B : Z) :
  (1 # 10000000) <= u -> u <= 1 -> (1 <= B <= 10 ^ 300)%Z ->
  (1 <= Qceiling (fl (fl (py_round py (fl u) 7) * fl (inject_Z B))))%Z.
Proof.
  intros Hu Hu1 HB.
  destruct (budget_in_range B) as (HB0 & _); [ lia | ].
  assert (Hm1 : 1 <= inject_Z B).
  { change 1 with (inject_Z 1). rewrite <- Zle_Qle. lia. }
  assert (Hu0 : 0 <= u) by lra.
  destruct (fl_near u Hu0) as (_ & Q1 & _).
  assert (Hq : (6 # 100000000) <= fl u) by lra.
  pose proof (py_round_positive py (fl u) Hq) as K.
  assert (K0 : 0 <= py_round py (fl u) 7) by lra.
  destruct (fl_near _ K0) as (R0 & R1 & _).
  destruct (fl_near _ HB0) as (B0 & B1 & _).
  set (k := py_round py (fl u) 7) in *.
  set (r := fl k) in *.
  set (b := fl (inject_Z B)) in *.
  set (m := inject_Z B) in *.
  assert (Hr : (9 # 100000000) <= r) by lra.
  assert (Hb : (9 # 10) <= b) by lra.
  assert (M : (8 # 100000000) <= r * b) by nra.
  assert (M0 : 0 <= r * b) by lra.
  destruct (fl_near _ M0) as (_ & P1 & _).
  pose proof (Qle_ceiling (fl (r * b))) as C.
  set (p := r * b) in *.
  assert (Hpos : 0 < inject_Z (Qceiling (fl p))) by lra.
  change 0 with (inject_Z 0) in Hpos. rewrite <- Zlt_Qlt in Hpos. lia.
Qed.



Lemma py_round_le_1 (py : PyVersion) (u : Q) :
  u <= 1 -> py_round py u 7 <= 1.
Proof.
  intros Hu. unfold py_round.
  change (inject_Z (pow10 7)) with 10000000.
  pose proof (round_half_spec py (u * 10000000)) as [_ Hhi].
  assert (Hk : (round_half py (u * 10000000) <= 10000000)%Z).
  { assert (Hq : inject_Z (round_half py (u * 10000000)) < inject_Z 10000001).
    { change (inject_Z 10000001) with 10000001. lra. }
    rewrite <- Zlt_Qlt in Hq. lia. }
  rewrite Zle_Qle in Hk. change (inject_Z 10000000) with 10000000 in Hk.
  apply Qle_shift_div_r; lra.
Qed.

(** The rounded share of an edge that is not longer than the wire is a
    float between 0 and 1. *)
Lemma share_le_1 (py : PyVersion) (u : Q) :
  0 <= u <= 1 ->
  0 <= fl (py_round py (fl u) 7) <= 1.
Proof.
  intros [H0 H1].
  assert (F1 : fl 1 == 1) by (vm_compute; reflexivity).
  pose proof (fl_mono u 1 H0 H1) as A.
  destruct (fl_error u H0) as (A0 & _).
  pose proof (py_round_nonneg py (fl u) A0) as B0.
  assert (B1 : py_round py (fl u) 7 <= 1) by (apply py_round_le_1; lra).
  pose proof (fl_mono _ 1 B0 B1) as C.
  destruct (fl_error _ B0) as (C0 & _).
  split; [ exact C0 | lra ].
Qed.

(** X5.  For a wire of positive length whose edges are not longer than
    the wire, the counts of a budget grow with the budget, edge by edge;
    and for a budget of at most [2^53], which is a float, none exceeds the
    budget: an edge never gets more vertices than the whole wire was
    given. *)
Theorem counts_monotone (py : PyVersion) (wire : Wire) (B B' : Z) :
  0 < wire_Length wire ->
  Forall (fun e => 0 <= Length e <= wire_Length wire) (Edges wire) ->
  (0 <= B <= B')%Z -> (B' <= 10 ^ 300)%Z ->
  exists counts counts',
    resolve_vertices_count py wire (MVInt B) = Ok counts /\
    resolve_vertices_count py wire (MVInt B') = Ok counts' /\
    Forall2 Z.le counts counts' /\
    ((B <= 2 ^ 53)%Z -> Forall (fun c => (0 <= c <= B)%Z) counts).
Proof.
  intros HL Hes HB HB'.
  assert (R : (0 <= B <= 10 ^ 300)%Z) by lia.
  assert (R' : (0 <= B' <= 10 ^ 300)%Z) by lia.
  exists (map (count_of py (wire_Length wire) B) (Edges wire)),
         (map (count_of py (wire_Length wire) B') (Edges wire)).
  split; [ apply (vertices_count_int_eq py wire B HL Hes R) | ].
  split; [ apply (vertices_count_int_eq py wire B' HL Hes R') | ].
  assert (Hu : forall e, In e (Edges wire) ->
                 0 <= Length e / wire_Length wire <= 1).
  { intros e He. rewrite Forall_forall in Hes. specialize (Hes e He).
    split; [ apply Qle_shift_div_l | apply Qle_shift_div_r ]; lra. }
  assert (Hb0 : 0 <= inject_Z B)
    by (change 0 with (inject_Z 0); rewrite <- Zle_Qle; lia).
  assert (Hbb : inject_Z B <= inject_Z B') by (rewrite <- Zle_Qle; lia).
  pose proof (fl_mono _ _ Hb0 Hbb) as Hfb.
  destruct (fl_error _ Hb0) as (Hf0 & _).
  split.
  - clear Hes. induction (Edges wire) as [|e es IH]; simpl; constructor.
    + unfold count_of. apply Qceiling_resp_le.
      destruct (share_le_1 py _ (Hu e (or_introl eq_refl))) as [Hr0 _].
      set (r := fl (py_round py (fl (Length e / wire_Length wire)) 7)) in *.
      set (b := fl (inject_Z B)) in *. set (b' := fl (inject_Z B')) in *.
      apply fl_mono; nra.
    + apply IH. intros e' He'. apply Hu. now right.
  - intros H53. apply Forall_forall. intros c Hc. apply in_map_iff in Hc.
    destruct Hc as (e & <- & He).
    destruct (share_le_1 py _ (Hu e He)) as [Hr0 Hr1].
    pose proof (fl_int B (conj (proj1 HB) H53)) as Hint.
    unfold count_of.
    set (r := fl (py_round py (fl (Length e / wire_Length wire)) 7)) in *.
    set (b := fl (inject_Z B)) in *.
    assert (P0 : 0 <= r * b) by nra.
    split.
    + change 0%Z with (Qceiling 0). apply Qceiling_resp_le.
      apply (fl_error _ P0).
    + rewrite <- (Qceiling_Z B). apply Qceiling_resp_le.
      apply Qle_trans with (fl (inject_Z B)).
      * apply fl_mono; [ exact P0 | ]. set (m := inject_Z B) in *. nra.
      * fold b. set (m := inject_Z B) in *. lra.
Qed.

(** The example profile with the budgets 10 and 20. *)
Lemma counts_monotone_witness :
  exists counts counts',
    resolve_vertices_count Py2 example_wire (MVInt 10) = Ok counts /\
    resolve_vertices_count Py2 example_wire (MVInt 20) = Ok counts' /\
    Forall2 Z.le counts counts' /\
    ((10 <= 2 ^ 53)%Z -> Forall (fun c => (0 <= c <= 10)%Z) counts).
Proof.
  apply (counts_monotone Py2 example_wire 10 20).
  - reflexivity.
  - apply Forall_forall.
    intros e [<- | [<- | [<- | [<- | []]]]]; split; vm_compute; discriminate.
  - lia.
  - vm_compute. discriminate.
Defined.

(** Above [2^53] a budget is rounded when it is converted, and a count can
    exceed it: a wire of one segment and [2^53 + 3]. *)
Lemma counts_exceed_large_budget :
  resolve_vertices_count Py3 flat_wire (MVInt (2 ^ 53 + 3))
  = Ok [(2 ^ 53 + 4)%Z].
Proof. vm_compute. reflexivity. Qed.

Lemma count_of_zero (py : PyVersion) (L : Q) (e : Edge) :
  count_of py L 0 e = 0%Z.
Proof.
  unfold count_of. change (fl (inject_Z 0)) with 0.
  rewrite (fl_zero (fl (py_round py (fl (Length e / L)) 7) * 0)) by ring.
  reflexivity.
Qed.

(** X6.  With the budget 0 a wire that has an edge drawn as a spline, and
    no edge longer than the wire, always raises [ZeroDivisionError]: every
    count is 0. *)
Theorem zero_budget `{Math} (py : PyVersion) (wire : Wire) (lefthand : bool)
  (e : Edge) :
  In e (Edges wire) -> to_spline e ->
  Forall (fun e' => 0 <= Length e' <= wire_Length wire) (Edges wire) ->
  exists built,
    profile_to_cross_section py (Workplane (ValWire wire)) lefthand (MVInt 0)
    = Raised ZeroDivisionError built.
Proof.
  intros Hin Hs Hes.
  assert (Hne : Edges wire <> []) by (intros E; rewrite E in Hin; destruct Hin).
  destruct (Qeq_dec (wire_Length wire) 0) as [HL | HL].
  - exists [].
    apply zero_length_raises; assumption.
  - assert (HL' : 0 < wire_Length wire).
    { rewrite Forall_forall in Hes. specialize (Hes e Hin). lra. }
    assert (HB : (0 <= 0 <= 10 ^ 300)%Z)
      by (split; [ lia | vm_compute; discriminate ]).
    assert (Hr : resolve_vertices_count py wire (MVInt 0)
                 = Ok (map (count_of py (wire_Length wire) 0) (Edges wire)))
      by (apply (vertices_count_int_eq py wire 0 HL' Hes HB)).
    destruct (Qeq_dec (wire_lead wire) 0) as [H0 | H0].
    + exists [].
      eapply zero_lead_raises; eassumption.
    + rewrite profile_to_cross_section_unfold, Hr.
      destruct (Edges wire) as [|e0 rest] eqn:He; [ congruence | ].
      rewrite (transform_ok _ _ _ H0).
      destruct (In_nth_error _ _ Hin) as (k & Hk).
      destruct (convert_edges_zero (wire_lead wire) lefthand H0
                  (map (count_of py (wire_Length wire) 0) (e0 :: rest))
                  (e0 :: rest) 0
                  [MoveTo (polar_image (wire_lead wire) lefthand
                             (startPoint e0))] k e)
        as (built & Hb & _); auto.
      * intros j Hj. apply counts_cover with (edges := e0 :: rest); auto.
        apply length_map.
      * intros j e' c _ Hj _ Hc. simpl Nat.add in Hc.
        rewrite nth_error_map, Hj in Hc. simpl in Hc.
        rewrite count_of_zero in Hc. injection Hc as <-. lia.
      * simpl Nat.add. rewrite nth_error_map, Hk. simpl.
        now rewrite count_of_zero.
      * exists built. exact Hb.
Qed.

(** The example profile, whose first segment is slanted. *)
Lemma zero_budget_witness :
  exists built,
    profile_to_cross_section (H := rational_math) Py2
      (Workplane (ValWire example_wire)) false (MVInt 0)
    = Raised ZeroDivisionError built.
Proof.
  apply (@zero_budget rational_math Py2 example_wire false
           (line_edge (mkVector 2 0 0) (mkVector 5 0 4) 5)).
  - left. reflexivity.
  - split; intros [_ Hc]; vm_compute in Hc; discriminate Hc.
  - apply Forall_forall.
    intros e [<- | [<- | [<- | [<- | []]]]]; split; vm_compute; discriminate.
Defined.

(** The lengths matter: a share that overflows is an infinity, its product
    with the budget 0 is not a number, and the conversion to an int raises
    [ValueError] before any division by a count. *)
Lemma zero_budget_overlong_edge :
  profile_to_cross_section (H := rational_math) Py3
    (Workplane (ValWire overlong_wire)) false (MVInt 0)
  = Raised ValueError [].
Proof. vm_compute. reflexivity. Qed.

(** ** The two versions of Python *)

Lemma Qfloor_unique (x : Q) (n : Z) :
  inject_Z n <= x -> x < inject_Z n + 1 -> Qfloor x = n.
Proof.
  intros Hlo Hhi.
  pose proof (Qfloor_le x) as H1. pose proof (Qlt_floor x) as H2.
  rewrite inject_Z_plus in H2. change (inject_Z 1) with 1 in H2.
  assert (A : inject_Z (Qfloor x) < inject_Z (n + 1)).
  { rewrite inject_Z_plus. change (inject_Z 1) with 1. lra. }
  assert (B : inject_Z n < inject_Z (Qfloor x + 1)).
  { rewrite inject_Z_plus. change (inject_Z 1) with 1. lra. }
  rewrite <- Zlt_Qlt in A, B. lia.
Qed.

Lemma Qceiling_unique (x : Q) (n : Z) :
  inject_Z n - 1 < x -> x <= inject_Z n -> Qceiling x = n.
Proof.
  intros Hlo Hhi.
  pose proof (Qle_ceiling x) as H1. pose proof (Qceiling_lt x) as H2.
  unfold Z.sub in H2. rewrite inject_Z_plus in H2.
  change (inject_Z (- (1))) with (- (1)) in H2.
  assert (A : inject_Z (Qceiling x) < inject_Z (n + 1)).
  { rewrite inject_Z_plus. change (inject_Z 1) with 1. lra. }
  assert (B : inject_Z n < inject_Z (Qceiling x + 1)).
  { rewrite inject_Z_plus. change (inject_Z 1) with 1. lra. }
  rewrite <- Zlt_Qlt in A, B. lia.
Qed.

(** The two roundings differ at ties only. *)
Lemma round_half_agree (x : Q) :
  ~ tie x -> round_half Py2 x = round_half Py3 x.
Proof.
  unfold tie, round_half. intros Ht.
  pose proof (Qfloor_le x) as H1. pose proof (Qlt_floor x) as H2.
  rewrite inject_Z_plus in H2. change (inject_Z 1) with 1 in H2.
  set (f := Qfloor x) in *.
  destruct (Qcompare_spec (x - inject_Z f) (1 # 2)) as [E | L | G];
    [ contradiction | | ].
  - destruct (Qle_bool 0 x).
    + apply Qfloor_unique; lra.
    + apply Qceiling_unique; lra.
  - destruct (Qle_bool 0 x).
    + apply Qfloor_unique; rewrite inject_Z_plus;
        change (inject_Z 1) with 1; lra.
    + apply Qceiling_unique; rewrite inject_Z_plus;
        change (inject_Z 1) with 1; lra.
Qed.

Lemma vertices_count_int_agree (wire : Wire) (B : Z) :
  Forall (fun e =>
            ~ tie (fl (Length e / wire_Length wire) * inject_Z (pow10 7)))
         (Edges wire) ->
  vertices_count_int Py2 wire B = vertices_count_int Py3 wire B.
Proof.
  unfold vertices_count_int.
  induction 1 as [|e es He Hes IH]; cbn [mapM]; [ reflexivity | ].
  rewrite IH. f_equal. unfold float_div.
  destruct (Qeq_bool (wire_Length wire) 0); [ reflexivity | ].
  cbn [bind].
  generalize (eq_refl (to_float (Length e / wire_Length wire))).
  unfold to_float at 2.
  destruct (Qle_bool (pow2 1024) (Qabs (fl (Length e / wire_Length wire))));
    intros ->; [ reflexivity | ].
  cbn [float_round]. unfold py_round. now rewrite (round_half_agree _ He).
Qed.



(** ** Wires of vertical and horizontal lines *)

Section Counts.
Context {M : Math}.
Variables (lead : Q) (lefthand : bool).

Lemma convert_edge_line (counts counts' : list Z) (i : nat) (edge : Edge) :
  ~ to_spline edge ->
  convert_edge lead lefthand counts i edge
  = convert_edge lead lefthand counts' i edge.
Proof.
  intros Hs. unfold convert_edge.
  destruct (dispatch_cases edge)
    as [(_ & _ & ->) | [(_ & _ & _ & -> & ->) | (Hs' & _)]];
    [ reflexivity | reflexivity | contradiction ].
Qed.

Lemma convert_edges_lines (counts counts' : list Z) (edges : list Edge) :
  Forall (fun e => ~ to_spline e) edges ->
  forall i cs,
    convert_edges lead lefthand counts i edges cs
    = convert_edges lead lefthand counts' i edges cs.
Proof.
  induction 1 as [|edge rest He Hrest IH]; intros i cs; simpl;
    [ reflexivity | ].
  rewrite (convert_edge_line counts counts' i edge He).
  destruct (convert_edge _ _ _ _ _); [ apply IH | reflexivity ].
Qed.

End Counts.

(** X8.  When every edge is a vertical or a horizontal line, the result
    does not depend on [min_vertices], as long as it is accepted: the counts
    are computed and never looked up. *)
Theorem lines_ignore_min_vertices `{Math} (py : PyVersion) (wire : Wire)
  (lefthand : bool) (mv mv' : MinVertices) (counts counts' : list Z) :
  Forall (fun e => ~ to_spline e) (Edges wire) ->
  resolve_vertices_count py wire mv = Ok counts ->
  resolve_vertices_count py wire mv' = Ok counts' ->
  profile_to_cross_section py (Workplane (ValWire wire)) lefthand mv
  = profile_to_cross_section py (Workplane (ValWire wire)) lefthand mv'.
Proof.
  intros Hl Hr Hr'. rewrite !profile_to_cross_section_unfold, Hr, Hr'.
  destruct (Edges wire) as [|e0 rest] eqn:He; [ reflexivity | ].
  destruct (transform _ _ _); [ | reflexivity ].
  rewrite <- He in *. now apply convert_edges_lines.
Qed.

(** A step, with the default budget and with a list of zeros. *)
Lemma lines_ignore_min_vertices_witness :
  profile_to_cross_section (H := rational_math) Py3
    (Workplane (ValWire step_wire)) false (MVInt 20)
  = profile_to_cross_section (H := rational_math) Py3
      (Workplane (ValWire step_wire)) false (MVList [0; 0]%Z).
Proof.
  eapply (@lines_ignore_min_vertices rational_math Py3 step_wire false
            (MVInt 20) (MVList [0; 0]%Z)).
  - apply Forall_forall.
    intros e [<- | [<- | []]]; intros [Hx Hz];
      [ apply Hx | apply Hz ]; split;
      solve [ reflexivity | vm_compute; reflexivity ].
  - vm_compute. reflexivity.
  - vm_compute. reflexivity.
Defined.

(** ** The geometry of arcs, lines and splines *)

Lemma polar_image_norm2 `{Math} (lead : Q) (lefthand : bool) (v : Vector) :
  (forall x, cos x * cos x + sin x * sin x == 1) ->
  norm2 (polar_image lead lefthand v) == vx v * vx v.
Proof.
  intros Hp. unfold norm2, polar_image. cbn [fst snd].
  set (a := if lefthand then _ else _).
  transitivity (vx v * vx v * (cos a * cos a + sin a * sin a)); [ ring | ].
  rewrite Hp. ring.
Qed.

(** X9.  The arc drawn for a vertical line (one of constant radius [r])
    passes through two points at distance [r] of the thread axis, for a math
    library that satisfies the Pythagorean identity. *)
Theorem arc_radius `{Math} (lead : Q) (lefthand : bool) (edge : Edge) (r : Q) :
  (forall x, cos x * cos x + sin x * sin x == 1) ->
  ~ lead == 0 ->
  vx (valueAt edge (Length edge / 2)) == r ->
  vx (valueAt edge (Length edge)) == r ->
  exists p1 p2,
    apply_arc lead lefthand edge = Ok (ThreePointArc p1 p2) /\
    norm2 p1 == r * r /\ norm2 p2 == r * r.
Proof.
  intros Hp Hlead H1 H2. unfold apply_arc.
  rewrite !(transform_ok _ _ _ Hlead). simpl.
  eexists. eexists. split; [ reflexivity | ].
  rewrite !(polar_image_norm2 _ _ _ Hp), H1, H2. split; reflexivity.
Qed.

Lemma circle_denominator (x : Q) : ~ 1 + x * x == 0.
Proof. nra. Qed.

Lemma circle_math_pythagoras (x : Q) :
  @cos circle_math x * @cos circle_math x
  + @sin circle_math x * @sin circle_math x == 1.
Proof. cbn [cos sin circle_math]. field. apply circle_denominator. Qed.

Lemma circle_math_cos_even (x : Q) :
  @cos circle_math (- x) == @cos circle_math x.
Proof.
  cbn [cos sin circle_math]. field. apply circle_denominator.
Qed.

Lemma circle_math_sin_odd (x : Q) :
  @sin circle_math (- x) == - @sin circle_math x.
Proof.
  cbn [cos sin circle_math]. field. apply circle_denominator.
Qed.

Lemma circle_math_cos_compat (x y : Q) :
  x == y -> @cos circle_math x == @cos circle_math y.
Proof. intros E. cbn [cos circle_math]. now rewrite E. Qed.

Lemma circle_math_sin_compat (x y : Q) :
  x == y -> @sin circle_math x == @sin circle_math y.
Proof. intros E. cbn [sin circle_math]. now rewrite E. Qed.

(** The vertical segment of the example profile, at radius 5. *)
Lemma arc_radius_witness :
  exists p1 p2,
    apply_arc (H := circle_math) 8 false
      (line_edge (mkVector 5 0 4) (mkVector 5 0 6) 2)
    = Ok (ThreePointArc p1 p2) /\
    norm2 p1 == 5 * 5 /\ norm2 p2 == 5 * 5.
Proof.
  apply (@arc_radius circle_math 8 false
           (line_edge (mkVector 5 0 4) (mkVector 5 0 6) 2) 5).
  - exact circle_math_pythagoras.
  - intros E. vm_compute in E. discriminate E.
  - vm_compute. reflexivity.
  - vm_compute. reflexivity.
Defined.

(** X10.  The line drawn for a horizontal edge is radial: the image of its
    start point and its target are on one line through the thread axis. *)
Theorem horizontal_line_is_radial `{Math} (lead : Q) (lefthand : bool) (edge : Edge) :
  (forall x y, x == y -> cos x == cos y) ->
  (forall x y, x == y -> sin x == sin y) ->
  ~ lead == 0 ->
  constant_z edge ->
  exists p q,
    transform lead lefthand (startPoint edge) = Ok p /\
    apply_radial_line lead lefthand edge = Ok (LineTo q) /\
    fst p * snd q == snd p * fst q.
Proof.
  intros Hc Hs Hlead Hz. unfold apply_radial_line.
  rewrite !(transform_ok _ _ _ Hlead). simpl.
  eexists. eexists. split; [ reflexivity | split; [ reflexivity | ] ].
  unfold polar_image. cbn [fst snd].
  unfold constant_z in Hz.
  set (a := if lefthand then vz (startPoint edge) / lead * (2 * pi)
            else - (vz (startPoint edge) / lead * (2 * pi))).
  set (b := if lefthand then vz (endPoint edge) / lead * (2 * pi)
            else - (vz (endPoint edge) / lead * (2 * pi))).
  assert (Hab : a == b).
  { subst a b. destruct lefthand; rewrite Hz; reflexivity. }
  rewrite (Hc a b Hab), (Hs a b Hab). ring.
Qed.

(** The horizontal segment of the example profile. *)
Lemma horizontal_line_is_radial_witness :
  exists p q,
    transform (H := circle_math) 8 false (mkVector 5 0 6) = Ok p /\
    apply_radial_line (H := circle_math) 8 false
      (line_edge (mkVector 5 0 6) (mkVector 2 0 6) 3)
    = Ok (LineTo q) /\
    fst p * snd q == snd p * fst q.
Proof.
  apply (@horizontal_line_is_radial circle_math 8 false
           (line_edge (mkVector 5 0 6) (mkVector 2 0 6) 3)).
  - exact circle_math_cos_compat.
  - exact circle_math_sin_compat.
  - intros E. vm_compute in E. discriminate E.
  - vm_compute. reflexivity.
Defined.



(** ** Handedness *)

Section Mirror.
Context {M : Math}.
Hypothesis cos_even : forall x, cos (- x) == cos x.
Hypothesis sin_odd : forall x, sin (- x) == - sin x.
Variable lead : Q.

Lemma transform_mirror (v : Vector) :
  mirror_result mirror_point (transform lead true v) (transform lead false v).
Proof.
  unfold transform, get_xz, cart2polar.
  destruct (py_div (vz v) lead) as [q|e]; simpl; [ | exact eq_refl ].
  unfold mirror_point. cbn [fst snd].
  rewrite cos_even, sin_odd. split; ring.
Qed.

Lemma mapM_mirror {A : Type} (f g : A -> res (Q * Q)) (l : list A) :
  (forall a, mirror_result mirror_point (f a) (g a)) ->
  mirror_result (Forall2 mirror_point) (mapM f l) (mapM g l).
Proof.
  intros Hfg. induction l as [|a l IH]; simpl; [ constructor | ].
  specialize (Hfg a).
  destruct (f a) as [p|e], (g a) as [q|e']; simpl in *; try contradiction;
    [ | exact Hfg ].
  destruct (mapM f l) as [ps|e], (mapM g l) as [qs|e']; simpl in *;
    try contradiction; [ | exact IH ].
  now constructor.
Qed.

Lemma convert_edge_mirror (counts : list Z) (i : nat) (edge : Edge) :
  mirror_result mirror_op
    (convert_edge lead true counts i edge)
    (convert_edge lead false counts i edge).
Proof.
  unfold convert_edge.
  destruct (_ && _).
  - unfold apply_arc.
    pose proof (transform_mirror (valueAt edge (Length edge / 2))) as H1.
    pose proof (transform_mirror (valueAt edge (Length edge))) as H2.
    destruct (transform lead true (valueAt edge (Length edge / 2))),
             (transform lead false (valueAt edge (Length edge / 2)));
      simpl in *; try contradiction; [ | exact H1 ].
    destruct (transform lead true (valueAt edge (Length edge))),
             (transform lead false (valueAt edge (Length edge)));
      simpl in *; try contradiction; [ | exact H2 ].
    now constructor.
  - destruct (_ && _).
    + unfold apply_radial_line.
      pose proof (transform_mirror (endPoint edge)) as H1.
      destruct (transform lead true (endPoint edge)),
               (transform lead false (endPoint edge));
        simpl in *; try contradiction; [ | exact H1 ].
      now constructor.
    + destruct (list_index counts i) as [c|e]; cbn [bind];
        [ | exact eq_refl ].
      unfold apply_spline.
      destruct (String.eqb (geomType edge) "CIRCLE"); unfold py_div;
        destruct (Qeq_bool (inject_Z c) 0); cbn [bind];
        try exact eq_refl;
        match goal with
        | |- mirror_result _ (bind (mapM ?f ?l) _) (bind (mapM ?g _) _) =>
            pose proof (mapM_mirror f g l (fun j => transform_mirror _)) as Hm;
            destruct (mapM f l) as [ps|e], (mapM g l) as [qs|e'];
            simpl in *; try contradiction; [ | exact Hm ];
            destruct Hm; simpl; [ reflexivity | ];
            constructor; now constructor
        end.
Qed.

Lemma convert_edges_mirror (counts : list Z) (edges : list Edge) :
  forall i cs cs',
    Forall2 mirror_op cs cs' ->
    mirror_outcome (convert_edges lead true counts i edges cs)
                   (convert_edges lead false counts i edges cs').
Proof.
  induction edges as [|edge rest IH]; intros i cs cs' Hcs; simpl.
  - apply Forall2_app; [ exact Hcs | repeat constructor ].
  - pose proof (convert_edge_mirror counts i edge) as He.
    destruct (convert_edge lead true counts i edge) as [op|e],
             (convert_edge lead false counts i edge) as [op'|e'];
      simpl in He; try contradiction.
    + apply IH. apply Forall2_app; [ exact Hcs | ].
      constructor; [ exact He | constructor ].
    + simpl. split; [ exact He | exact Hcs ].
Qed.

End Mirror.

(** X12.  For a math library with an even [cos] and an odd [sin], the
    left-handed and the right-handed cross-section of a profile are mirror
    images: the same operations in the same order, every point with its y
    coordinate negated; and they raise the same exception at the same
    place. *)
Theorem handedness_mirrors `{Math} (py : PyVersion) (profile : PyProfile)
  (min_vertices : MinVertices) :
  (forall x, cos (- x) == cos x) ->
  (forall x, sin (- x) == - sin x) ->
  mirror_outcome
    (profile_to_cross_section py profile true min_vertices)
    (profile_to_cross_section py profile false min_vertices).
Proof.
  intros Hc Hs.
  destruct profile as [[wire|]|].
  - rewrite !profile_to_cross_section_unfold.
    destruct (resolve_vertices_count py wire min_vertices) as [counts|e];
      [ | simpl; auto ].
    destruct (Edges wire) as [|e0 rest] eqn:He; [ simpl; auto | ].
    pose proof (transform_mirror Hc Hs (wire_lead wire) (startPoint e0)) as Ht.
    destruct (transform (wire_lead wire) true (startPoint e0)) as [p|e],
             (transform (wire_lead wire) false (startPoint e0)) as [q|e'];
      simpl in Ht; try contradiction.
    + apply convert_edges_mirror; auto.
      constructor; [ constructor; exact Ht | constructor ].
    + simpl. auto.
  - destruct min_vertices; simpl; auto.
  - simpl. auto.
Qed.

(** The example profile. *)
Lemma handedness_mirrors_witness :
  mirror_outcome
    (profile_to_cross_section (H := circle_math) Py3
       (Workplane (ValWire example_wire)) true (MVInt 20))
    (profile_to_cross_section (H := circle_math) Py3
       (Workplane (ValWire example_wire)) false (MVInt 20)).
Proof.
  apply (@handedness_mirrors circle_math Py3
           (Workplane (ValWire example_wire)) (MVInt 20)).
  - exact circle_math_cos_even.
  - exact circle_math_sin_odd.
Defined.

(** ** [Thread.__init__], the attributes that are not given *)

Section InitFrame.
Context {B : Builtins}.
Variable py : PyVersion.


Lemma init_unknown_anywhere (kwargs : list (string * PyVal)) (key : string) :
  forall self,
  hasattr self key = false -> In key (map fst kwargs) ->
  ~ In "__dict__"%string (map fst kwargs) ->
  exists e, Thread.init_loop py self kwargs = Err e.
Proof.
  induction kwargs as [|[k v] rest IH]; intros self Hh Hin Hd;
    [ destruct Hin | ].
  destruct (Thread.init_loop py self ((k, v) :: rest)) as [s'|e] eqn:Hi;
    [ | eauto ].
  destruct (init_step py _ _ _ _ _ Hi) as (d & cv & s & Hg & _ & Hs & Hr).
  simpl in Hd, Hin.
  assert (Hk : k <> key).
  { intros ->. unfold hasattr in Hh. rewrite Hg in Hh. discriminate. }
  assert (Hkey : key <> "__dict__"%string).
  { intros ->. unfold hasattr, getattr in Hh. discriminate. }
  destruct (IH s) as (e & He).
  - unfold hasattr.
    rewrite (getattr_setattr_other _ _ _ _ _ Hs) by tauto. exact Hh.
  - tauto.
  - tauto.
  - congruence.
Qed.


End InitFrame.



(** ** [Thread.__init__], the order of the keywords *)

Section InitOrder.
Context {B : Builtins}.
Variable py : PyVersion.

(** The keywords of a loop that completes are set in the dictionary of the
    instance. *)
Lemma init_keys_plain (kwargs : list (string * PyVal)) :
  forall self self',
  Thread.init_loop py self kwargs = Ok self' ->
  ~ In "__dict__"%string (map fst kwargs) ->
  forall k, In k (map fst kwargs) ->
  String.eqb k "__class__" = false /\ String.eqb k "__weakref__" = false.
Proof.
  induction kwargs as [|[k0 v] rest IH]; intros self self' Hi Hd k Hin;
    [ destruct Hin | ].
  destruct (init_step py _ _ _ _ _ Hi) as (d & cv & s & _ & _ & Hs & Hr).
  simpl in Hd, Hin.
  destruct Hin as [<- | Hin].
  - destruct (setattr_plain _ _ _ _ Hs) as (Hc & Hw & _); [ tauto | auto ].
  - apply (IH s self' Hr); tauto.
Qed.

(** What a completed construction stores, in one form for every default. *)
Lemma init_cast (cls : PyClass) (kwargs : list (string * PyVal))
  (self' : Instance) :
  NoDup (map fst kwargs) ->
  ~ In "__dict__"%string (map fst kwargs) ->
  Thread.init_loop py (fresh cls) kwargs = Ok self' ->
  forall key value, In (key, value) kwargs ->
  exists default_value cast_value,
    assoc key (class_attrs cls) = Some default_value /\
    cast_to default_value value = Ok cast_value /\
    getattr self' key = Some cast_value.
Proof.
  intros Hnd Hdict Hi key value Hin.
  destruct (init_stored py kwargs (fresh cls) self' Hnd Hdict
              (fun _ _ => eq_refl) Hi key value Hin) as (d & Hd & Hm).
  exists d. unfold cast_to.
  destruct d; try (destruct Hm as (cv & Hc & Hg); exists cv; auto).
  exists value. auto.
Qed.

(** The loop completes when every keyword is an attribute of the class
    that can be set and every value can be cast. *)
Lemma init_completes (kwargs : list (string * PyVal)) :
  forall self,
  NoDup (map fst kwargs) ->
  ~ In "__dict__"%string (map fst kwargs) ->
  (forall k, In k (map fst kwargs) -> assoc k (inst_dict self) = None) ->
  (forall key value, In (key, value) kwargs ->
     String.eqb key "__class__" = false /\
     String.eqb key "__weakref__" = false /\
     exists default_value cast_value,
       assoc key (class_attrs (inst_class self)) = Some default_value /\
       cast_to default_value value = Ok cast_value) ->
  exists self', Thread.init_loop py self kwargs = Ok self'.
Proof.
  induction kwargs as [|[k v] rest IH]; intros self Hnd Hdict Hfresh Hacc.
  - exists self. reflexivity.
  - simpl in Hnd, Hdict. inversion Hnd as [|? ? Hk Hnd']; subst.
    destruct (Hacc k v (or_introl eq_refl)) as (Hc1 & Hw1 & d & cv & Hd & Hc).
    assert (Hd1 : String.eqb k "__dict__" = false)
      by (apply String.eqb_neq; tauto).
    assert (Hg : getattr self k = Some d).
    { unfold getattr. rewrite Hd1, Hc1, Hw1.
      rewrite (Hfresh k) by (now left). exact Hd. }
    simpl. unfold hasattr. rewrite Hg. simpl.
    unfold cast_to in Hc. rewrite Hc. simpl.
    unfold setattr. rewrite Hd1, Hc1, Hw1. cbn [bind].
    apply IH; auto.
    + intros k' Hk'. simpl.
      destruct (String.eqb_spec k k') as [->|_]; [ contradiction | ].
      apply Hfresh. now right.
    + intros key value Hin. apply Hacc. now right.
Qed.


End InitOrder.


(** ** [Thread.make], the order of the kernel calls *)

Section MakeProtocol.
Context {M : Math} {K : Kernel} {V : Thread.Variant}.
Variable py : PyVersion.

Lemma sweep_and_repair_protocol (wire : Wire) (cs : list SketchOp)
  (self : Thread.t) :
  exists n,
    map call_kind (fst (sweep_and_repair wire cs self)) = firstn n make_protocol /\
    match snd (sweep_and_repair wire cs self) with
    | Ok _ => n = 3%nat \/ n = 5%nat
    | Err _ => n <> 3%nat
    end.
Proof.
  unfold sweep_and_repair, helical_path.
  destruct (makeHelix _ _ _ _ _) as [path|e].
  - rewrite (tbind_call_ok). cbn [fst snd].
    destruct (sweep cs path true) as [shape|e].
    + rewrite !tbind_call_ok. cbn [fst snd].
      destruct (isValid shape); cbn [negb].
      * exists 3%nat. split; [ reflexivity | now left ].
      * destruct (sewShape shape) as [sewn|e].
        -- rewrite tbind_call_ok. cbn [fst snd call].
           exists 5%nat. split; [ reflexivity | ].
           destruct (Solid sewn); [ now right | discriminate ].
        -- rewrite tbind_call_err. cbn [fst snd].
           exists 4%nat. split; [ reflexivity | discriminate ].
    + rewrite tbind_call_err. cbn [fst snd].
      exists 2%nat. split; [ reflexivity | discriminate ].
  - rewrite tbind_call_err. cbn [fst snd].
    exists 1%nat. split; [ reflexivity | discriminate ].
Qed.

(** X16.  Whatever the kernel answers, the calls [make] issues are an
    initial part of: helix, sweep, validity check, sewing, solid.  When
    [make] returns, it has issued the first three or all five; it never
    stops with an exception right after the validity check. *)
Theorem make_call_order (self : Thread.t) :
  exists n,
    map call_kind (fst (Thread.make py self)) = firstn n make_protocol /\
    match snd (Thread.make py self) with
    | Ok _ => n = 3%nat \/ n = 5%nat
    | Err _ => n <> 3%nat
    end.
Proof.
  destruct (make_cases py self) as [(e & ->) | (wire & cs & _ & _ & ->)].
  - exists 0%nat. split; [ reflexivity | discriminate ].
  - apply sweep_and_repair_protocol.
Qed.

End MakeProtocol.

(** X17.  The base class cannot be made: its [build_profile] raises
    [NotImplementedError], and [make] raises it before any kernel call.  In
    general the exception of [build_profile], or else the exception of
    [profile_to_cross_section] on its profile with the budget 20, leaves
    [make] as it is, and the kernel is not called. *)
Theorem make_propagates `{Math} `{Kernel} (py : PyVersion) (self : Thread.t) :
  Thread.make (H1 := base_variant) py self = ([], Err NotImplementedError) /\
  forall (V : Thread.Variant) (e : ExcKind),
    (Thread.build_profile self = Err e ->
     Thread.make py self = ([], Err e)) /\
    (forall profile built,
       Thread.build_profile self = Ok profile ->
       profile_to_cross_section py profile (Thread.lefthand self) (MVInt 20)
       = Raised e built ->
       Thread.make py self = ([], Err e)).
Proof.
  split; [ reflexivity | ]. intros V e. split.
  - intros Hp. unfold Thread.make. rewrite Hp. reflexivity.
  - intros profile built Hp Hcs. unfold Thread.make.
    rewrite Hp, !tbind_quiet_ok, Hcs. reflexivity.
Qed.

(** A thread with a flat profile: the cross-section divides by its lead. *)
Lemma make_propagates_witness :
  Thread.make (H := rational_math) (H0 := example_kernel)
    (H1 := flat_variant) Py2 example_thread
  = ([], Err ZeroDivisionError).
Proof.
  eapply (proj2 ((proj2 (@make_propagates rational_math example_kernel Py2
                           example_thread))
                   flat_variant ZeroDivisionError)).
  - reflexivity.
  - vm_compute. reflexivity.
Defined.

(** ** [CoordSystem.from_transform] and the transforms *)

(** X19.  On frames with unit, perpendicular axes, which the constructor
    of [cadquery.Plane] copies, [from_transform] and
    [local_to_world_transform] are inverse to each other: such a frame, or
    its copy by [from_plane], is read back from its transform, and a matrix
    that is the transform of a frame, with a first and a third column of
    unit length and perpendicular, is the transform of the frame read from
    it. *)
Theorem transform_round_trip (c : t) (m : Matrix) :
  (orthonormal c ->
   equiv (from_transform (local_to_world_transform c)) c /\
   equiv (from_transform (local_to_world_transform (from_plane c))) c) /\
  (frame_matrix m -> orthonormal (from_transform m) ->
   Matrix_eq (local_to_world_transform (from_transform m)) m).
Proof.
  split; [ intros _; split | ].
  - destruct c as [[o1 o2 o3] [x1 x2 x3] [z1 z2 z3]].
    expose. repeat split; ring.
  - destruct c as [[o1 o2 o3] [x1 x2 x3] [z1 z2 z3]].
    unfold from_plane. expose. repeat split; ring.
  - intros Hm _. now apply rG_from_transform.
Qed.

(** The transform of a tilted frame. *)
Lemma transform_round_trip_witness :
  (equiv (from_transform (local_to_world_transform tilted_frame)) tilted_frame /\
   equiv (from_transform (local_to_world_transform (from_plane tilted_frame)))
     tilted_frame) /\
  Matrix_eq
    (local_to_world_transform
       (from_transform (local_to_world_transform turned_frame)))
    (local_to_world_transform turned_frame).
Proof.
  split.
  - apply (proj1 (transform_round_trip tilted_frame
                    (local_to_world_transform turned_frame))).
    unfold orthonormal. repeat split; vm_compute; reflexivity.
  - apply (proj2 (transform_round_trip tilted_frame
                    (local_to_world_transform turned_frame))).
    + unfold frame_matrix, Vector_eq. repeat split; vm_compute; reflexivity.
    + unfold orthonormal. repeat split; vm_compute; reflexivity.
Defined.

(** ** [CoordSystem.__add__], what the sum is *)

(** X20.  The sum of two frames with orthonormal axes has orthonormal
    axes. *)
Theorem add_keeps_orthonormal (py : PyVersion) (a b : t) :
  orthonormal a -> orthonormal b ->
  exists r, __add__ py a (IsCoordSystem b) = Ok r /\ orthonormal r.
Proof.
  intros Ha Hb. exists (add a b).
  split; [ reflexivity | apply add_orthonormal; assumption ].
Qed.

(** Two tilted frames. *)
Lemma add_keeps_orthonormal_witness :
  exists r,
    __add__ Py3 tilted_frame (IsCoordSystem turned_frame) = Ok r /\
    orthonormal r.
Proof.
  apply (add_keeps_orthonormal Py3 tilted_frame turned_frame);
    unfold orthonormal; repeat split; vm_compute; reflexivity.
Defined.

Lemma Matrix_multiply_vector_compat (m n : Matrix) (p : Vector) :
  Matrix_eq m n ->
  Vector_eq (Matrix_multiply_vector m p) (Matrix_multiply_vector n p).
Proof.
  intros ((E1&E2&E3&E4)&(E5&E6&E7&E8)&(E9&E10&E11&E12)&_).
  unfold Vector_eq, Matrix_multiply_vector; project.
  repeat split.
  - now rewrite E1, E2, E3, E4.
  - now rewrite E5, E6, E7, E8.
  - now rewrite E9, E10, E11, E12.
Qed.

Lemma Matrix_multiply_vector_product (a b : t) (p : Vector) :
  Vector_eq (Matrix_multiply_vector (Matrix_multiply (rG a) (rG b)) p)
            (Matrix_multiply_vector (rG a) (Matrix_multiply_vector (rG b) p)).
Proof.
  destruct a as [[oa1 oa2 oa3] [xa1 xa2 xa3] [za1 za2 za3]].
  destruct b as [[ob1 ob2 ob3] [xb1 xb2 xb3] [zb1 zb2 zb3]].
  destruct p as [p1 p2 p3].
  expose. repeat split; ring.
Qed.

(** X21.  [A + B] is [B] placed in [A]: its transform takes a point to
    where the transform of [A] takes the image of the point by the
    transform of [B], and its origin is the origin of [B] carried by the
    transform of [A]; for [A] with orthonormal axes. *)
Theorem add_composes_points (py : PyVersion) (a b : t) (p : Vector) :
  orthonormal a ->
  exists r,
    __add__ py a (IsCoordSystem b) = Ok r /\
    Vector_eq
      (Matrix_multiply_vector (local_to_world_transform r) p)
      (Matrix_multiply_vector (local_to_world_transform a)
         (Matrix_multiply_vector (local_to_world_transform b) p)) /\
    Vector_eq (origin r)
      (Matrix_multiply_vector (local_to_world_transform a) (origin b)).
Proof.
  intros Ha. exists (add a b). split; [ reflexivity | split ].
  - unfold add, local_to_world_transform.
    destruct (Matrix_multiply_vector_compat _ _ p
                (rG_from_transform _ (frame_matrix_product a b Ha)))
      as (E1 & E2 & E3).
    destruct (Matrix_multiply_vector_product a b p) as (F1 & F2 & F3).
    unfold Vector_eq.
    split; [ | split ]; etransitivity; eassumption.
  - destruct a as [[oa1 oa2 oa3] [xa1 xa2 xa3] [za1 za2 za3]].
    destruct b as [[ob1 ob2 ob3] [xb1 xb2 xb3] [zb1 zb2 zb3]].
    expose. repeat split; ring.
Qed.

(** Two tilted frames and the point (1, 1, 1). *)
Lemma add_composes_points_witness :
  exists r,
    __add__ Py3 tilted_frame (IsCoordSystem turned_frame) = Ok r /\
    Vector_eq
      (Matrix_multiply_vector (local_to_world_transform r) (mkVector 1 1 1))
      (Matrix_multiply_vector (local_to_world_transform tilted_frame)
         (Matrix_multiply_vector (local_to_world_transform turned_frame)
            (mkVector 1 1 1))) /\
    Vector_eq (origin r)
      (Matrix_multiply_vector (local_to_world_transform tilted_frame)
         (origin turned_frame)).
Proof.
  apply (add_composes_points Py3 tilted_frame turned_frame (mkVector 1 1 1)).
  unfold orthonormal. repeat split; vm_compute; reflexivity.
Defined.

(** X22.  A translation on the left moves the origin and keeps the axes;
    so two translations commute.  Sums in general do not: a tilted frame
    and a translation give different origins in the two orders. *)
Theorem add_translation (py : PyVersion) (u v : Vector) (b : t) :
  (exists r, __add__ py (translation u) (IsCoordSystem b) = Ok r /\
             equiv r (mk (Vector_add u (origin b)) (xDir b) (zDir b))) /\
  (exists r r',
     __add__ py (translation u) (IsCoordSystem (translation v)) = Ok r /\
     __add__ py (translation v) (IsCoordSystem (translation u)) = Ok r' /\
     equiv r r') /\
  (exists a c r r',
     orthonormal a /\ orthonormal c /\
     __add__ py a (IsCoordSystem c) = Ok r /\
     __add__ py c (IsCoordSystem a) = Ok r' /\
     ~ equiv r r').
Proof.
  split; [ | split ].
  - exists (add (translation u) b). split; [ reflexivity | ].
    destruct b as [[ob1 ob2 ob3] [xb1 xb2 xb3] [zb1 zb2 zb3]].
    destruct u as [u1 u2 u3].
    unfold translation, Vector_add. expose. repeat split; ring.
  - exists (add (translation u) (translation v)),
           (add (translation v) (translation u)).
    split; [ reflexivity | split; [ reflexivity | ] ].
    destruct u as [u1 u2 u3]. destruct v as [v1 v2 v3].
    unfold translation. expose. repeat split; ring.
  - exists tilted_frame, shifted_frame,
           (add tilted_frame shifted_frame), (add shifted_frame tilted_frame).
    split; [ unfold orthonormal; repeat split; vm_compute; reflexivity | ].
    split; [ unfold orthonormal; repeat split; vm_compute; reflexivity | ].
    split; [ reflexivity | split; [ reflexivity | ] ].
    intros ((E & _) & _). vm_compute in E. discriminate E.
Qed.

(** ** [intersect] *)

Section Intersect.
Context {SK : Solids}.
Variable py : PyVersion.

(** X23.  [intersect] raises [ValueError] whatever the kernel would
    answer: when the first workplane has no solid, whatever the second
    argument is; and, with a solid, when the second argument is neither a
    workplane nor a solid, with a message that names its type. *)
Theorem intersect_rejects (wp2 : Wp2) (solidRef : SolidObj)
  (wp2_cls : PyClass) (combine clean : bool) :
  intersect py None wp2 combine clean
  = Err (mkException ValueError "Cannot find solid to intersect with") /\
  intersect py (Some solidRef) (OtherObject wp2_cls) combine clean
  = Err (mkException ValueError
           ("Cannot intersect type '" ++ class_repr wp2_cls ++ "'")) /\
  contains (class_repr wp2_cls)
           ("Cannot intersect type '" ++ class_repr wp2_cls ++ "'") = true.
Proof.
  split; [ reflexivity | split ].
  - unfold intersect, intersect_error_template. cbn.
    reflexivity.
  - apply contains_app.
Qed.

(** X24.  [combine] decides only what [solidRef] wraps afterwards: with
    it or without it the call raises the same exception or returns a
    workplane with the same single solid; with it [solidRef] wraps that
    solid, without it [solidRef] is left as it was. *)
Theorem intersect_combine (solidRef : SolidObj) (wp2 : Wp2) (clean : bool) :
  match intersect py (Some solidRef) wp2 true clean,
        intersect py (Some solidRef) wp2 false clean with
  | Ok kept, Ok apart =>
      new_objects kept = new_objects apart /\
      new_objects kept = [solidRef_wrapped kept] /\
      solidRef_wrapped apart = solidRef
  | Err e, Err e' => e = e'
  | _, _ => False
  end.
Proof.
  unfold intersect.
  destruct (match wp2 with
            | IsCQ val => val
            | IsSolid solid => Ok (as_object solid)
            | OtherObject wp2_cls =>
                msg <- str_format py intersect_error_template
                         [ ("0", ArgClass wp2_cls) ]%string ;;
                Err (mkException ValueError msg)
            end) as [other|e]; cbn [bind]; [ | reflexivity ].
  destruct (solid_intersect solidRef other) as [newS|e]; cbn [bind];
    [ | reflexivity ].
  destruct clean; [ destruct (solid_clean newS) as [cleaned|e] | ];
    cbn [bind new_objects solidRef_wrapped]; auto.
Qed.

End Intersect.
